(** * Weather overlay and shopping-cart widgets: model and properties

    The development embeds two browser scripts:
    - the weather overlay of the tourism site script ([initWeatherOverlay]
      and the helpers it closes over), and
    - the produce storefront's cart script ([script.js]).

    JavaScript numbers are IEEE-754 doubles and are modelled by Rocq's
    primitive floats.  Timestamps come from [Date.now()], an integral
    number of milliseconds far below 2^53, where double arithmetic is
    exact; they are modelled in [Z]. *)

From Stdlib Require Import Floats ZArith Ascii.
From stdpp Require Import base strings list gmap fin_maps pretty.

#[local] Set Warnings "-register-all,-inexact-float".
Local Open Scope string_scope.

(** ** JavaScript values *)

Module JS.

(** The values that [JSON.parse] can produce, plus [undefined]. An
    object is an association list read at the first binding of a key. *)
Inductive value : Type :=
| VUndefined
| VNull
| VBool (b : bool)
| VNum (n : float)
| VStr (s : string)
| VArr (xs : list value)
| VObj (fields : list (string * value)).

(** ToBoolean. *)
Definition truthy (v : value) : bool :=
  match v with
  | VUndefined | VNull => false
  | VBool b => b
  | VNum n => negb (PrimFloat.eqb n 0 || PrimFloat.is_nan n)
  | VStr s => negb (String.eqb s "")
  | VArr _ | VObj _ => true
  end.

(** [typeof v === "number"] and [Array.isArray(v)]. *)
Definition is_number (v : value) : bool :=
  match v with VNum _ => true | _ => false end.

Definition isArray (v : value) : bool :=
  match v with VArr _ => true | _ => false end.

Fixpoint assoc (k : string) (fields : list (string * value)) : value :=
  match fields with
  | [] => VUndefined
  | (k', v) :: rest => if String.eqb k' k then v else assoc k rest
  end.

(** Property read [v.k] on a value that is neither [null] nor
    [undefined] (every read in the scripts is guarded by [v && ...]).
    Primitives and arrays have no own property of the names used. *)
Definition prop (v : value) (k : string) : value :=
  match v with
  | VObj fields => assoc k fields
  | _ => VUndefined
  end.

(** [a && b] and [a || b] on values. *)
Definition and_ (a b : value) : value := if truthy a then b else a.
Definition or_ (a b : value) : value := if truthy a then a else b.

(** Array element read [xs[i]]: out of range gives [undefined]. *)
Definition index (xs : list value) (i : nat) : value :=
  default VUndefined (xs !! i).

(** How an evaluation ends: with a value, or with a thrown error, of
    which the scripts read the message. *)
Inductive completion (A : Type) : Type :=
| Normal (a : A)
| Throw (msg : string).
Arguments Normal {A} a.
Arguments Throw {A} msg.

#[global] Instance completion_ret : MRet completion := fun A a => Normal a.
#[global] Instance completion_bind : MBind completion := fun A B f m =>
  match m with Normal a => f a | Throw msg => Throw msg end.
#[global] Instance completion_fmap : FMap completion := fun A B f m =>
  match m with Normal a => Normal (f a) | Throw msg => Throw msg end.

(** Whether the object has an own property of that name. *)
Definition has_own (k : string) (fields : list (string * value)) : bool :=
  existsb (fun kv => String.eqb kv.1 k) fields.

(** Whether the conversion of a value to a primitive finds a method to
    call. The own properties of a parsed object are never functions: an
    own [toString] hides [Object.prototype.toString] and is skipped as not
    callable, an own [valueOf] is skipped likewise, the inherited
    [valueOf] hands the object back, and the conversion ends in a
    TypeError. An array is converted by [join], which converts each of its
    elements to a string, [null] and [undefined] apart. *)
Fixpoint converts (v : value) : bool :=
  match v with
  | VObj fields => negb (has_own "toString" fields)
  | VArr xs => forallb converts xs
  | _ => true
  end.

(** What the scripts use of the engine: its string-to-number conversion,
    the string an object or an array converts to when the conversion
    succeeds, its number formatting, and the message of the TypeError it
    throws for a value that cannot be converted. *)
Record Platform : Type := {
  StringToNumber : string -> float;
  ToPrimitive : value -> string;
  toLocaleString : float -> nat -> string;
  TypeError_message : value -> string;
}.

Section Coercions.
Variable P : Platform.

(** [Number(v)], which is also the ToNumber coercion applied by the
    arithmetic operators. *)
Definition Number (v : value) : completion float :=
  match v with
  | VUndefined => Normal PrimFloat.nan
  | VNull => Normal 0%float
  | VBool true => Normal 1%float
  | VBool false => Normal 0%float
  | VNum n => Normal n
  | VStr s => Normal (StringToNumber P s)
  | VArr _ | VObj _ =>
      if converts v then Normal (StringToNumber P (ToPrimitive P v))
      else Throw (TypeError_message P v)
  end.

Definition isFinite (n : float) : bool := PrimFloat.is_finite n.

(** Lines 190-197. *)
Definition formatNumber (n : value) (digits : nat) : completion string :=
  num ← Number n;
  if negb (isFinite num) then Normal "—"
  else Normal (toLocaleString P num digits).
End Coercions.

End JS.

Import JS.

(** ** Weather overlay *)

Module Weather.

Record IconLabel : Type := { icon : string; label : string }.

Section Presentation.
Variable P : Platform.

(** Lines 1252-1283. *)
Definition codeToIcon (code : value) : completion IconLabel :=
  c ← Number P code;
  Normal (
  if negb (isFinite c) then {| icon := "ri-question-line"; label := "Unknown" |}
  else if (c =? 0)%float then {| icon := "ri-sun-line"; label := "Clear sky" |}
  else if (c =? 1)%float then {| icon := "ri-sun-cloudy-line"; label := "Mainly clear" |}
  else if (c =? 2)%float then {| icon := "ri-cloudy-2-line"; label := "Partly cloudy" |}
  else if (c =? 3)%float then {| icon := "ri-cloudy-line"; label := "Overcast" |}
  else if (c =? 45)%float || (c =? 48)%float
    then {| icon := "ri-mist-line"; label := "Fog" |}
  else if (c =? 51)%float || (c =? 53)%float || (c =? 55)%float
    then {| icon := "ri-drizzle-line"; label := "Drizzle" |}
  else if (c =? 56)%float || (c =? 57)%float
    then {| icon := "ri-snowy-line"; label := "Freezing drizzle" |}
  else if (c =? 61)%float || (c =? 63)%float || (c =? 65)%float
    then {| icon := "ri-rainy-line"; label := "Rain" |}
  else if (c =? 66)%float || (c =? 67)%float
    then {| icon := "ri-snowy-line"; label := "Freezing rain" |}
  else if (c =? 71)%float || (c =? 73)%float || (c =? 75)%float
    then {| icon := "ri-snowy-line"; label := "Snow" |}
  else if (c =? 77)%float then {| icon := "ri-snowy-line"; label := "Snow grains" |}
  else if (c =? 80)%float || (c =? 81)%float || (c =? 82)%float
    then {| icon := "ri-showers-line"; label := "Showers" |}
  else if (c =? 95)%float then {| icon := "ri-thunderstorms-line"; label := "Thunderstorm" |}
  else if (c =? 96)%float || (c =? 99)%float
    then {| icon := "ri-thunderstorms-line"; label := "Thunderstorm + hail" |}
  else {| icon := "ri-cloud-windy-line"; label := "Variable" |}).
End Presentation.

(** The codes the table of [codeToIcon] tests for, in source order. *)
Definition recognized_codes : list float :=
  [0; 1; 2; 3; 45; 48; 51; 53; 55; 56; 57; 61; 63; 65; 66; 67;
   71; 73; 75; 77; 80; 81; 82; 95; 96; 99]%float.

(** The labels the table can produce. *)
Definition table_labels : list string :=
  ["Unknown"; "Clear sky"; "Mainly clear"; "Partly cloudy"; "Overcast";
   "Fog"; "Drizzle"; "Freezing drizzle"; "Rain"; "Freezing rain"; "Snow";
   "Snow grains"; "Showers"; "Thunderstorm"; "Thunderstorm + hail";
   "Variable"].

(** Line 1285. *)
Definition toF (c : float) : float := ((c * 9) / 5 + 32)%float.

(** *** Configuration ([APP], lines 308-339) *)

Record City : Type := {
  city_id : string;
  city_name : string;
  city_country : string;
  city_lat : float;
  city_lon : float;
}.

Definition APP_cities : list City := [
  {| city_id := "erbil"; city_name := "Erbil (Hewlêr)"; city_country := "Iraq";
     city_lat := 36.1911; city_lon := 44.0092 |};
  {| city_id := "sulaymaniyah"; city_name := "Sulaymaniyah (Silêmanî)";
     city_country := "Iraq"; city_lat := 35.5653; city_lon := 45.4329 |};
  {| city_id := "duhok"; city_name := "Duhok (Dihok)"; city_country := "Iraq";
     city_lat := 36.8667; city_lon := 42.95 |};
  {| city_id := "halabja"; city_name := "Halabja"; city_country := "Iraq";
     city_lat := 35.1815; city_lon := 45.9866 |};
  {| city_id := "zakho"; city_name := "Zakho"; city_country := "Iraq";
     city_lat := 37.1431; city_lon := 42.6861 |};
  {| city_id := "kirkuk"; city_name := "Kirkuk"; city_country := "Iraq";
     city_lat := 35.4681; city_lon := 44.3922 |}
].

Definition APP_weather_base : string := "https://api.open-meteo.com/v1/forecast".
Definition APP_weather_params_current : string :=
  "temperature_2m,relative_humidity_2m,apparent_temperature,weather_code,wind_speed_10m".
Definition APP_weather_params_hourly : string :=
  "temperature_2m,weather_code,wind_speed_10m,relative_humidity_2m".
Definition APP_weather_params_timezone : string := "auto".
Definition APP_weather_params_forecast_hours : N := 24.
Definition APP_weather_cacheTtlMs : Z := 10 * 60 * 1000.
Definition APP_storageKeys_weatherCache : string := "kurdistan_weather_cache".
Definition APP_storageKeys_weatherUnits : string := "kurdistan_weather_units".
Definition APP_storageKeys_lastCity : string := "kurdistan_weather_city".

(** *** State ([STATE.weather], lines 358-364) *)

Inductive Units : Type := UnitsC | UnitsF.

Definition units_str (u : Units) : string :=
  match u with UnitsC => "c" | UnitsF => "f" end.

(** A cache entry [{ ts, data }] as [cacheSet] writes it. *)
Record CacheEntry : Type := { ts : Z; data : value }.

(** [cityId] is a string from [initWeatherOverlay] on (line 1143), before
    any handler is installed. *)
Record WeatherState : Type := {
  units : Units;
  cityId : string;
  cache : gmap string CacheEntry;
  isLoading : bool;
  lastError : option string;
}.

Definition set_units (u : Units) (st : WeatherState) : WeatherState :=
  {| units := u; cityId := cityId st; cache := cache st;
     isLoading := isLoading st; lastError := lastError st |}.
Definition set_cityId (c : string) (st : WeatherState) : WeatherState :=
  {| units := units st; cityId := c; cache := cache st;
     isLoading := isLoading st; lastError := lastError st |}.
Definition set_cache (m : gmap string CacheEntry) (st : WeatherState) : WeatherState :=
  {| units := units st; cityId := cityId st; cache := m;
     isLoading := isLoading st; lastError := lastError st |}.
Definition set_isLoading (b : bool) (st : WeatherState) : WeatherState :=
  {| units := units st; cityId := cityId st; cache := cache st;
     isLoading := b; lastError := lastError st |}.
Definition set_lastError (e : option string) (st : WeatherState) : WeatherState :=
  {| units := units st; cityId := cityId st; cache := cache st;
     isLoading := isLoading st; lastError := e |}.

(** The state the script starts from once the overlay is initialised. *)
Definition initial_state (u : Units) (c : string) (m : gmap string CacheEntry)
  : WeatherState :=
  {| units := u; cityId := c; cache := m; isLoading := false; lastError := None |}.

(** *** Host services *)

(** [localStorage] holds strings under string keys. The host decides
    whether a write fits the quota and how the cache is serialised. *)
Record Host : Type := {
  JSON_stringify : gmap string CacheEntry -> string;
  quota_allows : gmap string string -> string -> string -> bool;
}.

(** What the network hands back for one request: the transport fails
    with a message, or a response arrives with a status and a body that
    [res.json()] parses or rejects with a message. *)
Inductive NetOutcome : Type :=
| NetTransportError (msg : string)
| NetResponse (status : N) (body : string + value).

(** [res.ok]: the status is in the range 200-299. *)
Definition res_ok (status : N) : bool :=
  ((200 <=? status) && (status <=? 299))%N.

(** The request [fetchWeather] builds (lines 1427-1440). *)
Record Request : Type := {
  req_base : string;
  req_latitude : float;
  req_longitude : float;
  req_current : string;
  req_hourly : string;
  req_timezone : string;
  req_forecast_hours : string;
}.

Inductive FetchResult : Type :=
| Returned (payload : value) (source : string)
| Thrown (message : string).

(** Where the synchronous part of [fetchWeather] stops. *)
Inductive FetchBegin : Type :=
| BeginThrow (message : string)
| BeginReturn (payload : value) (source : string)
| BeginFetch (req : Request).

Section Fetcher.
Variable H : Host.

(** [localStorage.setItem]: [None] stands for the quota exception. *)
Definition localStorage_setItem (ls : gmap string string) (k v : string)
  : option (gmap string string) :=
  if quota_allows H ls k v then Some (<[k := v]> ls) else None.

(** Lines 449-455. *)
Definition persistWeatherCache (st : WeatherState) (ls : gmap string string)
  : gmap string string :=
  match localStorage_setItem ls APP_storageKeys_weatherCache
          (JSON_stringify H (cache st)) with
  | Some ls' => ls'
  | None => ls
  end.

(** Lines 444-447. The flag tells whether the function ran to its end;
    an exception from [setItem] is not caught here. *)
Definition persistWeatherSettings (st : WeatherState) (ls : gmap string string)
  : gmap string string * bool :=
  match localStorage_setItem ls APP_storageKeys_weatherUnits (units_str (units st)) with
  | None => (ls, false)
  | Some ls1 =>
      if String.eqb (cityId st) "" then (ls1, true)
      else match localStorage_setItem ls1 APP_storageKeys_lastCity (cityId st) with
           | None => (ls1, false)
           | Some ls2 => (ls2, true)
           end
  end.

(** Line 1287. *)
Definition buildKey (st : WeatherState) : string :=
  cityId st +:+ "_" +:+ units_str (units st).

(** Line 1289, over any registry: [None] is [undefined]. *)
Definition getCity_in (cities : list City) (id : string) : option City :=
  match find (fun c => String.eqb (city_id c) id) cities with
  | Some c => Some c
  | None => head cities
  end.

Definition getCity (id : string) : option City := getCity_in APP_cities id.

(** Lines 1291-1297. An entry in the mapping is an object, so [!entry]
    holds exactly when the key is absent. *)
Definition fromCache (st : WeatherState) (now : Z) : value :=
  match cache st !! buildKey st with
  | None => VNull
  | Some entry =>
      if (ts entry =? 0)%Z || (APP_weather_cacheTtlMs <? now - ts entry)%Z
      then VNull
      else or_ (data entry) VNull
  end.

(** Lines 1299-1303. *)
Definition cacheSet (st : WeatherState) (ls : gmap string string) (now : Z)
    (d : value) : WeatherState * gmap string string :=
  let st' := set_cache (<[buildKey st := {| ts := now; data := d |}]> (cache st)) st in
  (st', persistWeatherCache st' ls).

Definition request_for (city : City) : Request :=
  {| req_base := APP_weather_base;
     req_latitude := city_lat city;
     req_longitude := city_lon city;
     req_current := APP_weather_params_current;
     req_hourly := APP_weather_params_hourly;
     req_timezone := APP_weather_params_timezone;
     req_forecast_hours := pretty APP_weather_params_forecast_hours |}.

(** Lines 1417-1440: [fetchWeather] up to the call of [fetch]. *)
Definition fetchWeather_begin (st : WeatherState) (now : Z) (force : bool)
  : FetchBegin :=
  match getCity (cityId st) with
  | None => BeginThrow "City not found"
  | Some city =>
      if negb force then
        let cached := fromCache st now in
        if truthy cached then BeginReturn cached "cache"
        else BeginFetch (request_for city)
      else BeginFetch (request_for city)
  end.

(** Lines 1440-1444: [fetchWeather] from the outcome of [fetch] on. *)
Definition fetchWeather_resume (st : WeatherState) (ls : gmap string string)
    (now : Z) (net : NetOutcome)
  : FetchResult * (WeatherState * gmap string string) :=
  match net with
  | NetTransportError msg => (Thrown msg, (st, ls))
  | NetResponse status body =>
      if negb (res_ok status)
      then (Thrown ("Weather request failed (" +:+ pretty status +:+ ")"), (st, ls))
      else match body with
           | inl msg => (Thrown msg, (st, ls))
           | inr json => (Returned json "live", cacheSet st ls now json)
           end
  end.

(** One call of [fetchWeather] run to its end, and the number of
    network calls it made. The call reads the state and the clock ([now])
    at the cache check. When it goes to the network it is suspended at
    [await fetch(...)] and at [await res.json()], where the handlers of
    the page may run: [resumed] is the state and the storage as the call
    finds them when it resumes for the cache write, and [now'] the clock
    at that write. *)
Record FetchRun : Type := {
  run_result : FetchResult;
  run_state : WeatherState;
  run_storage : gmap string string;
  run_network_calls : nat;
}.

Definition fetchWeather (st : WeatherState) (ls : gmap string string)
    (now : Z) (force : bool) (resumed : WeatherState * gmap string string)
    (net : NetOutcome) (now' : Z) : FetchRun :=
  match fetchWeather_begin st now force with
  | BeginThrow msg =>
      {| run_result := Thrown msg; run_state := st; run_storage := ls;
         run_network_calls := 0 |}
  | BeginReturn d s =>
      {| run_result := Returned d s; run_state := st; run_storage := ls;
         run_network_calls := 0 |}
  | BeginFetch _ =>
      let r := fetchWeather_resume resumed.1 resumed.2 now' net in
      {| run_result := r.1; run_state := r.2.1; run_storage := r.2.2;
         run_network_calls := 1 |}
  end.

End Fetcher.

(** *** Forecast rows of [renderWeather] (lines 1368-1414) *)

(** One pushed row, with the values its template interpolates. The
    time cell keeps the raw array element; its formatting is the host's. *)
Record Row : Type := {
  row_time : value;
  row_icon : string;
  row_label : string;
  row_temp : string;
  row_wind : string;
  row_hum : string;
}.

Inductive ForecastBody : Type :=
| ForecastRows (rows : list Row)
| NoForecast.

Section Renderer.
Variable P : Platform.

(** [data && data.hourly ? data.hourly : null]. *)
Definition hourly_of (d : value) : value :=
  if truthy (and_ d (prop d "hourly")) then prop d "hourly" else VNull.

(** [h && Array.isArray(h.k) ? h.k : []]. *)
Definition hourly_array (h : value) (k : string) : list value :=
  if truthy (and_ h (VBool (isArray (prop h k))))
  then match prop h k with VArr xs => xs | _ => [] end
  else [].

(** [Math.min(8, times.length, tempsC.length, codes.length)]. *)
Definition forecast_count (times tempsC codes : list value) : nat :=
  Nat.min 8 (Nat.min (length times) (Nat.min (length tempsC) (length codes))).

Definition unitSymbol (u : Units) : string :=
  match u with UnitsF => "°F" | UnitsC => "°C" end.
Definition windUnit (u : Units) : string :=
  match u with UnitsF => "mph" | UnitsC => "km/h" end.

(** The body of the loop at index [i], in the order the source
    evaluates it: [toF] and the product by [0.621371] convert their
    operand to a number, [codeToIcon] and [formatNumber] call [Number];
    [formatTimeShort] catches what its conversion throws. *)
Definition forecast_row (u : Units) (times tempsC codes winds hums : list value)
    (i : nat) : completion Row :=
  let t := index times i in
  tempVal ← match u with
            | UnitsF => c ← Number P (index tempsC i); Normal (VNum (toF c))
            | UnitsC => Normal (index tempsC i)
            end;
  w ← match u with
      | UnitsF => x ← Number P (index winds i); Normal (VNum (x * 0.621371)%float)
      | UnitsC => Normal (index winds i)
      end;
  il ← codeToIcon P (index codes i);
  temp ← formatNumber P tempVal 0;
  wind ← formatNumber P w 0;
  hum ← formatNumber P (index hums i) 0;
  Normal {| row_time := t;
            row_icon := icon il;
            row_label := label il;
            row_temp := temp +:+ unitSymbol u;
            row_wind := wind +:+ " " +:+ windUnit u;
            row_hum := hum +:+ "%" |}.

(** The rows the loop pushes, for [i] from [0] below [count]; an
    exception in a row ends the loop and the function. *)
Definition forecast_rows (u : Units) (d : value) : completion (list Row) :=
  let h := hourly_of d in
  let times := hourly_array h "time" in
  let tempsC := hourly_array h "temperature_2m" in
  let codes := hourly_array h "weather_code" in
  let winds := hourly_array h "wind_speed_10m" in
  let hums := hourly_array h "relative_humidity_2m" in
  let count := forecast_count times tempsC codes in
  mapM (forecast_row u times tempsC codes winds hums) (seq 0 count).

(** Lines 1411-1413. *)
Definition forecast_body (u : Units) (d : value) : completion ForecastBody :=
  rows ← forecast_rows u d;
  Normal match rows with
         | [] => NoForecast
         | _ => ForecastRows rows
         end.

End Renderer.

End Weather.

(** ** Shopping cart ([script.js]) *)

Module Cart.

Record Product : Type := {
  product_id : float;
  product_name : string;
  product_price : float;
  product_image : string;
}.

(** Lines 1-44. *)
Definition products : list Product := [
  {| product_id := 1; product_name := "Honeycrisp Apples"; product_price := 4.99;
     product_image := "https://images.unsplash.com/photo-1567306226416-28f0efdc88ce?auto=format&fit=crop&w=900&q=80" |};
  {| product_id := 2; product_name := "Ataulfo Mangoes"; product_price := 6.5;
     product_image := "https://images.unsplash.com/photo-1591073113125-e46713c829ed?auto=format&fit=crop&w=900&q=80" |};
  {| product_id := 3; product_name := "Blueberry Pack"; product_price := 5.25;
     product_image := "https://images.unsplash.com/photo-1498557850523-fd3d118b962e?auto=format&fit=crop&w=900&q=80" |};
  {| product_id := 4; product_name := "Valencia Oranges"; product_price := 3.75;
     product_image := "https://images.unsplash.com/photo-1582979512210-99b6a53386f9?auto=format&fit=crop&w=900&q=80" |};
  {| product_id := 5; product_name := "Seedless Grapes"; product_price := 4.2;
     product_image := "https://images.unsplash.com/photo-1537640538966-79f369143f8f?auto=format&fit=crop&w=900&q=80" |};
  {| product_id := 6; product_name := "Dragon Fruit"; product_price := 7.9;
     product_image := "https://images.unsplash.com/photo-1527325678964-54921661f888?auto=format&fit=crop&w=900&q=80" |}
].

(** A cart entry: [{ ...product, qty }]. *)
Record CartItem : Type := {
  item_id : float;
  item_name : string;
  item_price : float;
  item_image : string;
  qty : float;
}.

Definition item_of (p : Product) (q : float) : CartItem :=
  {| item_id := product_id p; item_name := product_name p;
     item_price := product_price p; item_image := product_image p; qty := q |}.

Definition add_qty (it : CartItem) : CartItem :=
  {| item_id := item_id it; item_name := item_name it;
     item_price := item_price it; item_image := item_image it;
     qty := (qty it + 1)%float |}.

(** The clicked element: whether it is an [HTMLButtonElement], and its
    [data-id] attribute when it has one. *)
Record ClickTarget : Type := {
  isButton : bool;
  dataset_id : option string;
}.

Definition dataset_value (t : ClickTarget) : value :=
  match dataset_id t with Some s => VStr s | None => VUndefined end.

(** Position of the first element that passes the test. *)
Fixpoint findIndex {A : Type} (p : A -> bool) (l : list A) : option nat :=
  match l with
  | [] => None
  | x :: rest => if p x then Some 0 else S <$> findIndex p rest
  end.

Section Handler.
Variable P : Platform.

(** Lines 91-113. [cart.find] hands back the first entry that passes
    the test and [qty += 1] writes through it, that is, to the entry at
    that position. An exception ends the handler with the cart as it is. *)
Definition onProductGridClick (cart : list CartItem) (target : ClickTarget)
  : list CartItem :=
  if negb (isButton target) then cart
  else
    match Number P (dataset_value target) with
    | Throw _ => cart
    | Normal id =>
        match find (fun item => (product_id item =? id)%float) products with
        | None => cart
        | Some product =>
            match findIndex (fun item => (item_id item =? id)%float) cart with
            | Some i => alter add_qty i cart
            | None => cart ++ [item_of product 1]
            end
        end
    end.

(** The cart after a sequence of clicks, starting from [const cart = []]. *)
Definition clicks (targets : list ClickTarget) : list CartItem :=
  foldl onProductGridClick [] targets.

End Handler.

End Cart.

(** ** HTML escaping (lines 219-227) *)

Module Html.

(** [s.replaceAll(c, r)] for a pattern of one character: every
    occurrence is replaced, left to right, and the replacement is not
    scanned again. *)
Fixpoint replaceAll (c : ascii) (r : string) (s : string) : string :=
  match s with
  | EmptyString => EmptyString
  | String a rest =>
      if Ascii.eqb a c then r +:+ replaceAll c r rest
      else String a (replaceAll c r rest)
  end.

(** The chain of five replacements on the coerced string; ["034"] is
    the double quote. *)
Definition escape (s : string) : string :=
  replaceAll "'" "&#39;"
    (replaceAll "034" "&quot;"
       (replaceAll ">" "&gt;"
          (replaceAll "<" "&lt;"
             (replaceAll "&" "&amp;" s)))).

(** [String(str ?? "")]: [ToString] is the engine's conversion of the
    values that are neither strings nor nullish. *)
Definition coerce (ToString : value -> string) (v : value) : string :=
  match v with
  | VUndefined | VNull => ""
  | VStr s => s
  | _ => ToString v
  end.

Definition escapeHtml (ToString : value -> string) (v : value) : string :=
  escape (coerce ToString v).

(** What one character becomes in one pass over the input. *)
Definition entity (a : ascii) : string :=
  if Ascii.eqb a "&" then "&amp;"
  else if Ascii.eqb a "<" then "&lt;"
  else if Ascii.eqb a ">" then "&gt;"
  else if Ascii.eqb a "034" then "&quot;"
  else if Ascii.eqb a "'" then "&#39;"
  else String a EmptyString.

Fixpoint one_pass (s : string) : string :=
  match s with
  | EmptyString => EmptyString
  | String a rest => entity a +:+ one_pass rest
  end.

(** The characters that open or close markup and attribute values. *)
Definition markup_chars : list ascii := ["<"; ">"; "034"; "'"]%char.

Fixpoint occurs (c : ascii) (s : string) : bool :=
  match s with
  | EmptyString => false
  | String a rest => Ascii.eqb a c || occurs c rest
  end.

End Html.

(** ** [renderWeather] (lines 1305-1415) *)

Module WeatherCard.
Import Weather.

(** The host's date and time formatting, which the script wraps in
    [try]/[catch] (lines 199-217), and its string conversion. *)
Record Formats : Type := {
  formatDateShort : value -> string;
  formatTimeShort : value -> string;
  ToString : value -> string;
}.

(** The texts the card and the status line interpolate. *)
Record NowCard : Type := {
  status_text : string;
  time_label : string;
  now_icon : string;
  now_temp : string;
  now_city : string;
  now_desc : string;
  now_feels : string;
  now_humidity : string;
  now_wind : string;
  now_coords : string;
}.

(** What one call of [renderWeather] draws: the card, and the forecast
    body when the page has the forecast card. *)
Record Rendered : Type := {
  drawn_now : NowCard;
  drawn_forecast : option ForecastBody;
}.

Section Card.
Variable P : Platform.
Variable F : Formats.

(** [data && data.current ? data.current : null]. *)
Definition current_of (d : value) : value :=
  if truthy (and_ d (prop d "current")) then prop d "current" else VNull.

(** [current && typeof current.k === "number" ? current.k : null]. *)
Definition number_field (current : value) (k : string) : option float :=
  if truthy current then
    match prop current k with VNum n => Some n | _ => None end
  else None.

(** [units === "f" && x !== null ? conv(x) : x]. *)
Definition in_units (u : Units) (conv : float -> float) (x : option float)
  : option float :=
  match u, x with
  | UnitsF, Some n => Some (conv n)
  | _, _ => x
  end.

(** [x !== null ? `${formatNumber(x, 0)}${suffix}` : "—"]. *)
Definition cell (x : option float) (suffix : string) : completion string :=
  match x with
  | Some n => s ← formatNumber P (VNum n) 0; Normal (s +:+ suffix)
  | None => Normal "—"
  end.

Definition code_value (x : option float) : value :=
  match x with Some n => VNum n | None => VNull end.

(** Lines 1305-1366: the status line and the card for a payload and the
    source it came from. Reading [city.name] off [undefined] would throw. *)
Definition renderNow (st : WeatherState) (d : value) (source : string)
  : completion NowCard :=
  match getCity (cityId st) with
  | None => Throw (TypeError_message P VUndefined)
  | Some city =>
      let u := units st in
      let current := current_of d in
      let tempC := number_field current "temperature_2m" in
      let temp := in_units u toF tempC in
      let humidity := number_field current "relative_humidity_2m" in
      let feelsC := number_field current "apparent_temperature" in
      let feels := in_units u toF feelsC in
      let wcode := number_field current "weather_code" in
      let windKmh := number_field current "wind_speed_10m" in
      let wind := in_units u (fun w => (w * 0.621371)%float) windKmh in
      let timeStr :=
        if truthy (and_ current (prop current "time")) then prop current "time"
        else VNull in
      let timeLabel :=
        if truthy timeStr
        then formatDateShort F timeStr +:+ " • " +:+ formatTimeShort F timeStr
        else "—" in
      il ← codeToIcon P (code_value wcode);
      let src := if String.eqb source "cache" then "Cached" else "Live" in
      temp_cell ← cell temp (unitSymbol u);
      feels_cell ← cell feels (unitSymbol u);
      humidity_cell ← cell humidity "%";
      wind_cell ← cell wind (" " +:+ windUnit u);
      lat ← formatNumber P (VNum (city_lat city)) 3;
      lon ← formatNumber P (VNum (city_lon city)) 3;
      Normal {| status_text := src +:+ " weather updated: " +:+ timeLabel;
                time_label := timeLabel;
                now_icon := icon il;
                now_temp := temp_cell;
                now_city := Html.escapeHtml (ToString F) (VStr (city_name city));
                now_desc := Html.escapeHtml (ToString F) (VStr (label il));
                now_feels := feels_cell;
                now_humidity := humidity_cell;
                now_wind := wind_cell;
                now_coords := lat +:+ ", " +:+ lon |}
  end.

(** Whether the overlay holds the forecast card ([fcParts], line 1219). *)
Variable fcParts : bool.

(** Lines 1305-1415. *)
Definition renderWeather (st : WeatherState) (d : value) (source : string)
  : completion Rendered :=
  card ← renderNow st d source;
  body ← (if fcParts then Some <$> forecast_body P (units st) d else Normal None);
  Normal {| drawn_now := card; drawn_forecast := body |}.

End Card.

End WeatherCard.

(** ** The fetch flow as the event loop runs it (lines 1447-1487) *)

Module WeatherFlow.
Import Weather.

(** What the overlay shows: nothing yet, the skeleton, a payload that
    [renderWeather] drew, or the error card of the [catch] block. *)
Inductive View : Type :=
| ViewBlank
| ViewSkeleton
| ViewWeather (payload : value) (source : string)
| ViewError (message : string).

(** A suspended call of [renderWeatherFromCacheOrFetch]: it waits for
    the network, or for a [fetchWeather] promise that is already settled. *)
Inductive Pending : Type :=
| AwaitNetwork (req : Request)
| AwaitSettled (r : FetchResult).

Definition is_network (p : Pending) : bool :=
  match p with AwaitNetwork _ => true | AwaitSettled _ => false end.

Record Machine : Type := {
  m_state : WeatherState;
  m_storage : gmap string string;
  m_view : View;
  m_pending : list Pending;
  m_requests : list Request;
}.

(** The requests that are out and not yet answered. *)
Definition in_flight (m : Machine) : nat :=
  length (filter (fun p => is_network p = true) (m_pending m)).

Inductive Event : Type :=
| EvUnitsChange (v : Units)
| EvCityChange (id : string)
| EvRefreshClick
| EvOverlayOpen
| EvSettle (i : nat) (net : NetOutcome).

Section Flow.
Variable H : Host.
Variable P : Platform.
Variable F : WeatherCard.Formats.
Variable fcParts : bool.

(** Lines 1447-1455: the call, up to its [await]. *)
Definition renderWeatherFromCacheOrFetch (m : Machine) (now : Z) (force : bool)
  : Machine :=
  if isLoading (m_state m) then m
  else
    let st := set_lastError None (set_isLoading true (m_state m)) in
    match fetchWeather_begin st now force with
    | BeginThrow msg =>
        {| m_state := st; m_storage := m_storage m; m_view := ViewSkeleton;
           m_pending := m_pending m ++ [AwaitSettled (Thrown msg)];
           m_requests := m_requests m |}
    | BeginReturn d s =>
        {| m_state := st; m_storage := m_storage m; m_view := ViewSkeleton;
           m_pending := m_pending m ++ [AwaitSettled (Returned d s)];
           m_requests := m_requests m |}
    | BeginFetch req =>
        {| m_state := st; m_storage := m_storage m; m_view := ViewSkeleton;
           m_pending := m_pending m ++ [AwaitNetwork req];
           m_requests := m_requests m ++ [req] |}
    end.

(** Lines 1455-1486: the rest of the call once [fetchWeather] settled.
    [renderWeather] runs inside the [try]: what it throws is caught like
    an error of the fetch. *)
Definition finish (st : WeatherState) (ls : gmap string string)
    (rest : list Pending) (reqs : list Request) (r : FetchResult) : Machine :=
  let failed msg :=
    {| m_state := set_isLoading false (set_lastError (Some msg) st);
       m_storage := ls; m_view := ViewError msg; m_pending := rest;
       m_requests := reqs |} in
  match r with
  | Returned d s =>
      match WeatherCard.renderWeather P F fcParts st d s with
      | Normal _ =>
          {| m_state := set_isLoading false st; m_storage := ls;
             m_view := ViewWeather d s; m_pending := rest; m_requests := reqs |}
      | Throw msg => failed msg
      end
  | Thrown msg => failed msg
  end.

(** The suspended call at position [i] resumes; [net] is what the
    network answered if that call was waiting for it. *)
Definition settle (m : Machine) (now : Z) (i : nat) (net : NetOutcome) : Machine :=
  match m_pending m !! i with
  | None => m
  | Some (AwaitSettled r) =>
      finish (m_state m) (m_storage m) (delete i (m_pending m)) (m_requests m) r
  | Some (AwaitNetwork _) =>
      let r := fetchWeather_resume H (m_state m) (m_storage m) now net in
      finish r.2.1 r.2.2 (delete i (m_pending m)) (m_requests m) r.1
  end.

(** A handler that changes the selection (lines 1151-1154, 1159-1163):
    it stores the selection, persists it and starts the flow. *)
Definition select (m : Machine) (now : Z) (st : WeatherState) : Machine :=
  let p := persistWeatherSettings H st (m_storage m) in
  let m' := {| m_state := st; m_storage := p.1; m_view := m_view m;
               m_pending := m_pending m; m_requests := m_requests m |} in
  if p.2 then renderWeatherFromCacheOrFetch m' now false else m'.

Definition step (m : Machine) (now : Z) (ev : Event) : Machine :=
  match ev with
  | EvUnitsChange v => select m now (set_units v (m_state m))
  | EvCityChange id => select m now (set_cityId id (m_state m))
  | EvRefreshClick => renderWeatherFromCacheOrFetch m now true
  | EvOverlayOpen => renderWeatherFromCacheOrFetch m now false
  | EvSettle i net => settle m now i net
  end.

(** A run of the event loop: events with the clock reading at each. *)
Fixpoint run (m : Machine) (evs : list (Z * Event)) : Machine :=
  match evs with
  | [] => m
  | (now, ev) :: rest => run (step m now ev) rest
  end.

Definition initial_machine (u : Units) (c : string)
    (m : gmap string CacheEntry) (ls : gmap string string) : Machine :=
  {| m_state := initial_state u c m; m_storage := ls; m_view := ViewBlank;
     m_pending := []; m_requests := [] |}.

End Flow.

End WeatherFlow.

(** ** Specification vocabulary *)

Module Spec.
Import Weather WeatherFlow.

(** The time-to-live test in the specification's words: an entry is
    valid when [now - capturedAtMillis <= ttlMillis]. *)
Definition within_ttl (now : Z) (e : CacheEntry) : Prop :=
  (now - ts e <= 600000)%Z.

(** What [fromCache] asks of an entry before it hands its payload out. *)
Definition usable (now : Z) (e : CacheEntry) : Prop :=
  ts e ≠ 0%Z ∧ within_ttl now e ∧ truthy (data e) = true.

Definition has_usable_entry (st : WeatherState) (now : Z) : Prop :=
  ∃ e, cache st !! buildKey st = Some e ∧ usable now e.

(** A failed network call: a transport error or a non-success status. *)
Definition net_failed (net : NetOutcome) : bool :=
  match net with
  | NetTransportError _ => true
  | NetResponse status _ => negb (res_ok status)
  end.

Definition failure_message (net : NetOutcome) : string :=
  match net with
  | NetTransportError msg => msg
  | NetResponse status _ => "Weather request failed (" +:+ pretty status +:+ ")"
  end.

(** In the specification's words: the five parallel arrays of the
    hourly record are read up to the shortest of their lengths. *)
Definition hourly_lengths (d : value) : list nat :=
  let h := hourly_of d in
  [length (hourly_array h "time");
   length (hourly_array h "temperature_2m");
   length (hourly_array h "weather_code");
   length (hourly_array h "wind_speed_10m");
   length (hourly_array h "relative_humidity_2m")].

Definition shortest_common_length (d : value) : nat :=
  foldr Nat.min (length (hourly_array (hourly_of d) "time")) (hourly_lengths d).

(** The count of the loop: [Math.min(8, ...)] over the three arrays. *)
Definition row_count (d : value) : nat :=
  let h := hourly_of d in
  forecast_count (hourly_array h "time") (hourly_array h "temperature_2m")
    (hourly_array h "weather_code").

(** The elements that row [i] of the forecast converts to numbers. *)
Definition converted_at (d : value) (i : nat) : list value :=
  let h := hourly_of d in
  [index (hourly_array h "temperature_2m") i;
   index (hourly_array h "wind_speed_10m") i;
   index (hourly_array h "weather_code") i;
   index (hourly_array h "relative_humidity_2m") i].

(** The loading flag is up exactly while one call of the flow is
    suspended, and no call is suspended while it is down. *)
Definition single_flight_inv (m : Machine) : Prop :=
  (isLoading (m_state m) = true ∧ length (m_pending m) = 1) ∨
  (isLoading (m_state m) = false ∧ m_pending m = []).

(** Every entry of the cart carries the id of a product, and no id
    occurs twice. *)
Definition cart_ok (cart : list Cart.CartItem) : Prop :=
  NoDup (Cart.item_id <$> cart) ∧
  ∀ a, a ∈ cart → Cart.item_id a ∈ Cart.product_id <$> Cart.products.

(** Celsius readings [c], [c + 5], ... next to the Fahrenheit values
    [f], [f + 9], ... that exact arithmetic pairs them with. *)
Fixpoint celsius_grid (n : nat) (c f : float) : list (float * float) :=
  match n with
  | O => []
  | S n' => (c, f) :: celsius_grid n' (c + 5)%float (f + 9)%float
  end.

(** Entries of a cart are pairwise distinct under [===] on their ids. *)
Definition distinct_ids (cart : list Cart.CartItem) : Prop :=
  ∀ i j a b, cart !! i = Some a → cart !! j = Some b →
    (Cart.item_id a =? Cart.item_id b)%float = true → i = j.

End Spec.

(** ** A concrete host, for evaluating the model *)

Module Demo.
Import Weather WeatherFlow.

Definition digit_of (a : ascii) : option float :=
  match a with
  | "0"%char => Some 0%float | "1"%char => Some 1%float
  | "2"%char => Some 2%float | "3"%char => Some 3%float
  | "4"%char => Some 4%float | "5"%char => Some 5%float
  | "6"%char => Some 6%float | "7"%char => Some 7%float
  | "8"%char => Some 8%float | "9"%char => Some 9%float
  | _ => None
  end.

(** Decimal digit strings read as the engine reads them; the empty
    string is 0 and anything else is NaN. *)
Fixpoint digits_value (acc : float) (s : string) : float :=
  match s with
  | EmptyString => acc
  | String a rest =>
      match digit_of a with
      | Some d => digits_value (acc * 10 + d)%float rest
      | None => PrimFloat.nan
      end
  end.

Definition platform : Platform :=
  {| StringToNumber := digits_value 0;
     ToPrimitive := fun v => match v with VArr [] => "" | _ => "[object Object]" end;
     toLocaleString := fun _ _ => "0";
     TypeError_message := fun _ => "Cannot convert object to primitive value" |}.

(** A host whose storage takes values of at most [limit] characters. *)
Definition host (limit : nat) : Host :=
  {| JSON_stringify := fun m => "{" +:+ pretty (size m) +:+ "}";
     quota_allows := fun _ _ v => (String.length v <=? limit)%nat |}.

Definition state0 : WeatherState := initial_state UnitsC "erbil" ∅.

(** An hourly record with 24 times, temperatures, winds and humidities
    and 20 weather codes. *)
Definition hourly_24_20 : value :=
  VObj [("hourly",
    VObj [("time", VArr (replicate 24 (VStr "2026-01-01T00:00")));
          ("temperature_2m", VArr (replicate 24 (VNum 20)));
          ("weather_code", VArr (replicate 20 (VNum 0)));
          ("wind_speed_10m", VArr (replicate 24 (VNum 10)));
          ("relative_humidity_2m", VArr (replicate 24 (VNum 50)))])].

(** A payload whose second weather code is an object with an own
    [toString] property. *)
Definition hourly_unconvertible : value :=
  VObj [("hourly",
    VObj [("time", VArr (replicate 3 (VStr "2026-01-01T00:00")));
          ("temperature_2m", VArr (replicate 3 (VNum 20)));
          ("weather_code", VArr [VNum 0; VObj [("toString", VNum 1)]; VNum 3])])].

End Demo.

(** ** News filter and pagination (lines 2377-2450) *)

Module News.
Import Weather.

(** The engine's string operations the filter uses. *)
Record StringOps : Type := {
  toLowerCase : string -> string;
  trim : string -> string;
  includes : string -> string -> bool;
}.

(** The fields of an item that the filter reads. *)
Record NewsItem : Type := {
  news_title : string;
  news_excerpt : string;
  news_category : string;
  news_location : string;
}.

(** [STATE.news]. The page is a whole number: it starts at 1, is loaded
    through [Math.floor] (line 437) and moves by 1. *)
Record NewsState : Type := {
  news_filter : string;
  news_query : string;
  news_page : Z;
  news_items : list NewsItem;
}.

Definition APP_news_perPage : Z := 6.
Definition APP_news_maxPage : Z := 4.
Definition APP_storageKeys_newsPage : string := "kurdistan_news_page".

(** Line 39, on whole numbers. *)
Definition clamp (n lo hi : Z) : Z := Z.min hi (Z.max lo n).

(** What one call of [apply] puts on the page. *)
Record NewsView : Type := {
  shown : list NewsItem;
  page_text : string;
  prev_disabled : bool;
  next_disabled : bool;
}.

Definition set_page (p : Z) (st : NewsState) : NewsState :=
  {| news_filter := news_filter st; news_query := news_query st;
     news_page := p; news_items := news_items st |}.

Section Paging.
Variable H : Host.
Variable S : StringOps.

(** The test of the [filter] callback. *)
Definition matches (flt query : string) (it : NewsItem) : bool :=
  let cat := toLowerCase S (news_category it) in
  let okFilter := if String.eqb flt "all" then true else includes S cat flt in
  let okQuery :=
    if String.eqb query "" then true
    else includes S
           (toLowerCase S (news_title it +:+ " " +:+ news_excerpt it +:+ " "
                             +:+ news_category it +:+ " " +:+ news_location it))
           query in
  okFilter && okQuery.

Definition filtered (st : NewsState) : list NewsItem :=
  filter (fun it => matches (news_filter st)
                      (toLowerCase S (trim S (news_query st))) it = true)
         (news_items st).

(** [Math.max(1, Math.ceil(n / perPage))]; for a list length the
    quotient and its ceiling are exact in doubles. *)
Definition totalPages_of (n : nat) : Z :=
  Z.max 1 ((Z.of_nat n + (APP_news_perPage - 1)) / APP_news_perPage).

(** [xs.slice(start, start + perPage)] for [start >= 0]. *)
Definition page_slice (xs : list NewsItem) (start : Z) : list NewsItem :=
  take (Z.to_nat APP_news_perPage) (drop (Z.to_nat start) xs).

(** [apply]. The page is stored before [persistNewsPage] runs; when the
    storage refuses the write the exception leaves the function and the
    page is not drawn ([None]). *)
Definition apply (st : NewsState) (ls : gmap string string)
  : NewsState * gmap string string * option NewsView :=
  let fl := filtered st in
  let totalPages := totalPages_of (length fl) in
  let page := clamp (news_page st) 1 (Z.min totalPages APP_news_maxPage) in
  let st' := set_page page st in
  match localStorage_setItem H ls APP_storageKeys_newsPage (pretty page) with
  | None => (st', ls, None)
  | Some ls' =>
      let start := ((page - 1) * APP_news_perPage)%Z in
      (st', ls',
       Some {| shown := page_slice fl start;
               page_text := "Page " +:+ pretty page +:+ " / " +:+ pretty totalPages;
               prev_disabled := (page <=? 1)%Z;
               next_disabled := (page >=? totalPages)%Z |})
  end.

(** The handlers of the filter buttons ([attr] is the button's
    [data-news-filter]), the search box and the two paging buttons. *)
Definition onFilterClick (attr : option string) (st : NewsState)
    (ls : gmap string string) :=
  let name :=
    match attr with
    | Some s => if String.eqb s "" then "all" else s
    | None => "all"
    end in
  apply {| news_filter := toLowerCase S name; news_query := news_query st;
           news_page := 1; news_items := news_items st |} ls.

Definition doSearch (input : string) (st : NewsState) (ls : gmap string string) :=
  apply {| news_filter := news_filter st; news_query := input;
           news_page := 1; news_items := news_items st |} ls.

Definition onPrevClick (st : NewsState) (ls : gmap string string) :=
  apply (set_page (news_page st - 1) st) ls.

Definition onNextClick (st : NewsState) (ls : gmap string string) :=
  apply (set_page (news_page st + 1) st) ls.

(** The items page [p] shows, for a page the clamp lets through. *)
Definition page_items (st : NewsState) (p : Z) : list NewsItem :=
  page_slice (filtered st) ((p - 1) * APP_news_perPage).

End Paging.

End News.

(** ** Gallery lightbox navigation (lines 1877-1909) *)

Module Gallery.

(** [STATE.gallery]: the number of items and the current index. *)
Record GalleryState : Type := {
  total : nat;
  currentIndex : Z;
}.

(** [move(dir)]: [%] is the remainder that takes the sign of the
    dividend. *)
Definition move (dir : Z) (g : GalleryState) : GalleryState :=
  match total g with
  | O => g
  | S _ =>
      {| total := total g;
         currentIndex :=
           Z.rem (currentIndex g + dir + Z.of_nat (total g)) (Z.of_nat (total g)) |}
  end.

(** [window.__kurdistanOpenGalleryModal(index)] for a whole-number
    index; [None] when there is no item and the modal stays closed. *)
Definition openGalleryModal (index : Z) (g : GalleryState) : option GalleryState :=
  match total g with
  | O => None
  | S _ =>
      Some {| total := total g;
              currentIndex := News.clamp index 0 (Z.of_nat (total g) - 1) |}
  end.

(** The chip [`${index + 1} / ${total}`] of [setModal]. *)
Definition position_chip (g : GalleryState) : string :=
  pretty (currentIndex g + 1)%Z +:+ " / " +:+ pretty (total g).

Inductive Key : Type := ArrowLeft | ArrowRight.

Definition onKey (k : Key) (g : GalleryState) : GalleryState :=
  match k with
  | ArrowLeft => move (-1) g
  | ArrowRight => move 1 g
  end.

End Gallery.

(** ** Overlays, modals and the body scroll lock
    (lines 115-150, 477-491, 717-749, 812-925) *)

Module Overlays.

(** The three inline styles of [document.body] the lock touches. *)
Record BodyStyle : Type := {
  overflow : string;
  paddingRight : string;
  touchAction : string;
}.

(** The closure state of [disableBodyScroll]. *)
Record ScrollLock : Type := {
  lockCount : nat;
  prevOverflow : string;
  prevPaddingRight : string;
  prevTouchAction : string;
}.

Definition initial_lock : ScrollLock :=
  {| lockCount := 0; prevOverflow := ""; prevPaddingRight := "";
     prevTouchAction := "" |}.

(** [scrollbarWidth()], from
    [w = window.innerWidth - document.documentElement.clientWidth]. *)
Definition scrollbarWidth (w : Z) : Z := if (w >? 0)%Z then w else 0%Z.

(** [lock()]. *)
Definition lock (w : Z) (bs : BodyStyle * ScrollLock) : BodyStyle * ScrollLock :=
  let n := S (lockCount bs.2) in
  if negb (n =? 1)%nat then
    (bs.1, {| lockCount := n; prevOverflow := prevOverflow bs.2;
              prevPaddingRight := prevPaddingRight bs.2;
              prevTouchAction := prevTouchAction bs.2 |})
  else
    let sw := scrollbarWidth w in
    ({| overflow := "hidden";
        paddingRight := if (sw =? 0)%Z then paddingRight bs.1 else pretty sw +:+ "px";
        touchAction := "none" |},
     {| lockCount := n; prevOverflow := overflow bs.1;
        prevPaddingRight := paddingRight bs.1;
        prevTouchAction := touchAction bs.1 |}).

(** [unlock()]. *)
Definition unlock (bs : BodyStyle * ScrollLock) : BodyStyle * ScrollLock :=
  let n := Nat.max 0 (lockCount bs.2 - 1) in
  let sl := {| lockCount := n; prevOverflow := prevOverflow bs.2;
               prevPaddingRight := prevPaddingRight bs.2;
               prevTouchAction := prevTouchAction bs.2 |} in
  if negb (n =? 0)%nat then (bs.1, sl)
  else ({| overflow := prevOverflow bs.2; paddingRight := prevPaddingRight bs.2;
           touchAction := prevTouchAction bs.2 |}, sl).

(** [get locked()]. *)
Definition locked (sl : ScrollLock) : bool := (0 <? lockCount sl)%nat.

Inductive Kind : Type := KOverlay | KModal.

(** The page as the overlay system sees it. Elements are named by
    numbers and compared as the script compares references; [shown] holds
    the overlays and modals that are not hidden. The [untrap] closures of
    the stack entries are left out. *)
Record UI : Type := {
  body : BodyStyle;
  scroll : ScrollLock;
  shown : gset nat;
  navShown : bool;
  overlayStack : list (nat * Kind);
  currentOverlay : option nat;
  lastFocus : option nat;
}.

Definition initial_ui (b : BodyStyle) : UI :=
  {| body := b; scroll := initial_lock; shown := ∅; navShown := false;
     overlayStack := []; currentOverlay := None; lastFocus := None |}.

(** Lines 733-748; the inner [closeMobileNav]. *)
Definition closeMobileNav (u : UI) : UI :=
  if negb (navShown u) then u
  else
    let bs := unlock (body u, scroll u) in
    {| body := bs.1; scroll := bs.2; shown := shown u; navShown := false;
       overlayStack := overlayStack u; currentOverlay := currentOverlay u;
       lastFocus := None |}.

(** Lines 717-731; [active] is [document.activeElement] when it is an
    [HTMLElement]. *)
Definition openMobileNav (active : option nat) (w : Z) (u : UI) : UI :=
  let bs := lock w (body u, scroll u) in
  {| body := bs.1; scroll := bs.2; shown := shown u; navShown := true;
     overlayStack := overlayStack u; currentOverlay := currentOverlay u;
     lastFocus := active |}.

(** The toggle button (lines 693-696). *)
Definition onNavToggle (active : option nat) (w : Z) (u : UI) : UI :=
  if negb (navShown u) then openMobileNav active w u else closeMobileNav u.

(** What [openOverlay] and [openModalDialog] share. *)
Definition open_with (k : Kind) (el : nat) (active : option nat) (w : Z) (u : UI)
  : UI :=
  let u1 := closeMobileNav u in
  let bs := lock w (body u1, scroll u1) in
  {| body := bs.1; scroll := bs.2; shown := {[el]} ∪ shown u1;
     navShown := navShown u1;
     overlayStack := overlayStack u1 ++ [(el, k)];
     currentOverlay :=
       match k with KOverlay => Some el | KModal => currentOverlay u1 end;
     lastFocus := active |}.

(** Lines 812-837. *)
Definition openOverlay (el : nat) (active : option nat) (w : Z) (u : UI) : UI :=
  open_with KOverlay el active w u.

(** Lines 875-897. *)
Definition openModalDialog (el : nat) (active : option nat) (w : Z) (u : UI) : UI :=
  open_with KModal el active w u.

(** [overlayStack.findIndex(x => x.el === el)] and [splice(idx, 1)]. *)
Definition stack_without (el : nat) (stack : list (nat * Kind)) : list (nat * Kind) :=
  match Cart.findIndex (fun x => (x.1 =? el)%nat) stack with
  | Some idx => delete idx stack
  | None => stack
  end.

(** What [closeOverlay] and [closeModal] share. *)
Definition close_with (k : Kind) (el : nat) (u : UI) : UI :=
  if negb (bool_decide (el ∈ shown u)) then u
  else
    let stack := stack_without el (overlayStack u) in
    let bs := unlock (body u, scroll u) in
    {| body := bs.1; scroll := bs.2; shown := shown u ∖ {[el]};
       navShown := navShown u;
       overlayStack := stack;
       currentOverlay :=
         match k with
         | KOverlay => fst <$> last stack
         | KModal => currentOverlay u
         end;
       lastFocus :=
         match stack with
         | [] => None
         | _ => lastFocus u
         end |}.

(** Lines 839-865. *)
Definition closeOverlay (el : nat) (u : UI) : UI := close_with KOverlay el u.

(** Lines 899-922. *)
Definition closeModal (el : nat) (u : UI) : UI := close_with KModal el u.

(** Lines 867-873. *)
Definition closeTopOverlay (u : UI) : UI :=
  match last (overlayStack u) with
  | None => u
  | Some (el, KModal) => closeModal el u
  | Some (el, KOverlay) => closeOverlay el u
  end.

(** The Escape handler (lines 481-490). *)
Definition onEscape (u : UI) : UI :=
  match overlayStack u with
  | [] => if navShown u then closeMobileNav u else u
  | _ => closeTopOverlay u
  end.

Inductive UIEvent : Type :=
| UOpenOverlay (el : nat) (active : option nat) (w : Z)
| UOpenModal (el : nat) (active : option nat) (w : Z)
| UCloseOverlay (el : nat)
| UCloseModal (el : nat)
| UEscape
| UNavToggle (active : option nat) (w : Z)
| UNavClose.

Definition ui_step (u : UI) (ev : UIEvent) : UI :=
  match ev with
  | UOpenOverlay el a w => openOverlay el a w u
  | UOpenModal el a w => openModalDialog el a w u
  | UCloseOverlay el => closeOverlay el u
  | UCloseModal el => closeModal el u
  | UEscape => onEscape u
  | UNavToggle a w => onNavToggle a w u
  | UNavClose => closeMobileNav u
  end.

Definition ui_run (u : UI) (evs : list UIEvent) : UI := foldl ui_step u evs.

(** [n] calls of [lock] and [unlock] in a row. *)
Fixpoint locks (ws : list Z) (bs : BodyStyle * ScrollLock) : BodyStyle * ScrollLock :=
  match ws with
  | [] => bs
  | w :: rest => locks rest (lock w bs)
  end.

Fixpoint unlocks (n : nat) (bs : BodyStyle * ScrollLock) : BodyStyle * ScrollLock :=
  match n with
  | O => bs
  | S n' => unlocks n' (unlock bs)
  end.

(** The lock and the body agree with the page's own styles [b0]: the
    body carries them while the count is zero, and while it is not, the
    body is set not to scroll and the saved styles are those of [b0]. *)
Definition lock_inv (b0 : BodyStyle) (bs : BodyStyle * ScrollLock) : Prop :=
  (lockCount bs.2 = 0%nat → bs.1 = b0) ∧
  ((0 < lockCount bs.2)%nat →
     overflow bs.1 = "hidden" ∧ touchAction bs.1 = "none" ∧
     prevOverflow bs.2 = overflow b0 ∧
     prevPaddingRight bs.2 = paddingRight b0 ∧
     prevTouchAction bs.2 = touchAction b0).

(** What holds of the page along every run: the lock counts the stack
    entries and the open navigation, every shown element has an entry,
    and lock and body agree. *)
Definition ui_inv (b0 : BodyStyle) (u : UI) : Prop :=
  lockCount (scroll u)
    = (length (overlayStack u) + (if navShown u then 1 else 0))%nat ∧
  (∀ el, el ∈ shown u → el ∈ (fst <$> overlayStack u)) ∧
  lock_inv b0 (body u, scroll u).

End Overlays.

(** ** The stored weather selection (lines 418-423, 1143) *)

Module Boot.
Import Weather.

(** Lines 419-420: the stored units are taken when they are ["c"] or
    ["f"]; otherwise the initial ["c"] stays. *)
Definition load_units (ls : gmap string string) : Units :=
  match ls !! APP_storageKeys_weatherUnits with
  | Some s =>
      if String.eqb s "c" then UnitsC
      else if String.eqb s "f" then UnitsF
      else UnitsC
  | None => UnitsC
  end.

(** Lines 422-423: the stored city, when it is a non-empty string;
    [None] is the initial [null]. *)
Definition load_cityId (ls : gmap string string) : option string :=
  match ls !! APP_storageKeys_lastCity with
  | Some s => if String.eqb s "" then None else Some s
  | None => None
  end.

(** Line 1143: [(APP.cities[0] && APP.cities[0].id) || "erbil"] fills in
    a missing selection. *)
Definition default_cityId : string :=
  match head APP_cities with
  | Some c => if String.eqb (city_id c) "" then "erbil" else city_id c
  | None => "erbil"
  end.

Definition boot_cityId (ls : gmap string string) : string :=
  match load_cityId ls with
  | Some s => s
  | None => default_cityId
  end.

(** The weather state once [loadPersistedState] and
    [initWeatherOverlay] have run, for the cache [m] read from storage. *)
Definition boot_state (ls : gmap string string) (m : gmap string CacheEntry)
  : WeatherState :=
  initial_state (load_units ls) (boot_cityId ls) m.

End Boot.

(** ** Sample hosts and inputs, for evaluating the model *)

Module Samples.
Import Weather.

Fixpoint prefixb (p s : string) : bool :=
  match p, s with
  | EmptyString, _ => true
  | String a p', String b s' => Ascii.eqb a b && prefixb p' s'
  | String _ _, EmptyString => false
  end.

(** Substring search, as [includes] does it on plain text. *)
Fixpoint includesb (s q : string) : bool :=
  prefixb q s ||
  match s with
  | EmptyString => false
  | String _ s' => includesb s' q
  end.

Definition string_ops : News.StringOps :=
  {| News.toLowerCase := fun s => s;
     News.trim := fun s => s;
     News.includes := includesb |}.

Definition formats : WeatherCard.Formats :=
  {| WeatherCard.formatDateShort := fun _ => "Jan 01, 2026";
     WeatherCard.formatTimeShort := fun _ => "12:00";
     WeatherCard.ToString := fun _ => "[object Object]" |}.

Definition story (n : nat) (category : string) : News.NewsItem :=
  {| News.news_title := "Story " +:+ pretty n;
     News.news_excerpt := "A curated story from Kurdistan.";
     News.news_category := category;
     News.news_location := "Kurdistan" |}.

(** Thirty stories, every third one about food. *)
Definition stories : list News.NewsItem :=
  (fun n => story n (if (n mod 3 =? 0)%nat then "food" else "travel")) <$> seq 1 30.

Definition news0 : News.NewsState :=
  {| News.news_filter := "all"; News.news_query := ""; News.news_page := 1;
     News.news_items := stories |}.

Definition page_style : Overlays.BodyStyle :=
  {| Overlays.overflow := "auto"; Overlays.paddingRight := "4px";
     Overlays.touchAction := "" |}.

End Samples.

(** ** More vocabulary *)

Module Props.
Import Weather.

(** A request for the coordinates of a city of the registry. *)
Definition registered_request (req : Request) : Prop :=
  ∃ c, c ∈ APP_cities ∧ req = request_for c.

(** A cart entry that carries the fields of a catalogue product. *)
Definition product_copy (it : Cart.CartItem) : Prop :=
  ∃ p, p ∈ Cart.products ∧ Cart.item_id it = Cart.product_id p ∧
       Cart.item_name it = Cart.product_name p ∧
       Cart.item_price it = Cart.product_price p ∧
       Cart.item_image it = Cart.product_image p.

End Props.

(** ** Properties *)

Import Weather WeatherFlow Spec.

(** *** Conversions *)

Lemma bind_Normal {A B : Type} (m : completion A) (f : A → completion B) (b : B) :
  m ≫= f = Normal b ↔ ∃ a, m = Normal a ∧ f a = Normal b.
Proof.
  destruct m as [a|msg]; cbn.
  - split; [eauto | by intros (a' & [= <-] & ?)].
  - split; [done | by intros (? & ? & ?)].
Qed.

Lemma bind_Throw {A B : Type} (m : completion A) (f : A → completion B) (msg : string) :
  m ≫= f = Throw msg ↔ m = Throw msg ∨ ∃ a, m = Normal a ∧ f a = Throw msg.
Proof.
  destruct m as [a|msg']; cbn.
  - split; [eauto|]. by intros [?|(a' & [= <-] & ?)].
  - split; [intros [= ->]; by left|]. intros [[= ->]|(a & Hm & _)]; [reflexivity | discriminate Hm].
Qed.

(** [Number] throws on the values that do not convert, and only there. *)
Lemma Number_converts (P : Platform) (v : value) :
  converts v = true → ∃ c, Number P v = Normal c.
Proof.
  intros Hc. destruct v as [| |[|]| | | |]; cbn [Number]; eauto.
  - rewrite Hc. eauto.
  - rewrite Hc. eauto.
Qed.

Lemma Number_throws (P : Platform) (v : value) :
  converts v = false → Number P v = Throw (TypeError_message P v).
Proof.
  intros Hc. destruct v as [| |[|]| | | |]; try done; cbn [Number]; by rewrite Hc.
Qed.

Lemma Number_Normal_converts (P : Platform) (v : value) (c : float) :
  Number P v = Normal c → converts v = true.
Proof.
  intros Hn. destruct (converts v) eqn:Hc; [done|].
  by rewrite (Number_throws P v Hc) in Hn.
Qed.

Lemma Number_Throw_inv (P : Platform) (v : value) (msg : string) :
  Number P v = Throw msg → converts v = false ∧ msg = TypeError_message P v.
Proof.
  intros Hn. destruct (converts v) eqn:Hc.
  - destruct (Number_converts P v Hc) as [c Hv]. congruence.
  - rewrite (Number_throws P v Hc) in Hn. by injection Hn as <-.
Qed.

Lemma formatNumber_converts (P : Platform) (v : value) (digits : nat) :
  converts v = true → ∃ s, formatNumber P v digits = Normal s.
Proof.
  intros Hc. unfold formatNumber.
  destruct (Number_converts P v Hc) as [c ->]. cbn.
  destruct (negb (isFinite c)); eauto.
Qed.

Lemma formatNumber_throws (P : Platform) (v : value) (digits : nat) :
  converts v = false → formatNumber P v digits = Throw (TypeError_message P v).
Proof. intros Hc. unfold formatNumber. by rewrite (Number_throws P v Hc). Qed.

Lemma formatNumber_Throw_inv (P : Platform) (v : value) (digits : nat) (msg : string) :
  formatNumber P v digits = Throw msg →
  converts v = false ∧ msg = TypeError_message P v.
Proof.
  intros Hf. destruct (converts v) eqn:Hc.
  - destruct (formatNumber_converts P v digits Hc) as [s Hs]. congruence.
  - rewrite (formatNumber_throws P v digits Hc) in Hf. by injection Hf as <-.
Qed.

Lemma formatNumber_undefined (P : Platform) (digits : nat) :
  formatNumber P VUndefined digits = Normal "—".
Proof. reflexivity. Qed.

(** *** Presentation helpers *)

Lemma Forall_unrecognized (c : float) :
  Forall (fun k => (c =? k)%float = false) recognized_codes →
  ∀ k, k ∈ recognized_codes → (c =? k)%float = false.
Proof. intros HF k Hk. rewrite Forall_forall in HF. by apply HF. Qed.

Ltac split_chain :=
  repeat match goal with
         | |- context [if ?b then _ else _] => destruct b
         end.

Lemma codeToIcon_label_in_table (P : Platform) (v : value) (il : IconLabel) :
  codeToIcon P v = Normal il → label il ∈ table_labels.
Proof.
  unfold codeToIcon, table_labels.
  destruct (Number P v) as [c|msg]; cbn; [|done].
  intros [= <-]. split_chain; cbn [label]; set_solver.
Qed.

Lemma codeToIcon_converts (P : Platform) (v : value) :
  converts v = true → ∃ il, codeToIcon P v = Normal il.
Proof.
  intros Hc. unfold codeToIcon. destruct (Number_converts P v Hc) as [c ->].
  cbn. eauto.
Qed.

Lemma codeToIcon_throws (P : Platform) (v : value) :
  converts v = false → codeToIcon P v = Throw (TypeError_message P v).
Proof. intros Hc. unfold codeToIcon. by rewrite (Number_throws P v Hc). Qed.

Lemma codeToIcon_Throw_inv (P : Platform) (v : value) (msg : string) :
  codeToIcon P v = Throw msg → converts v = false ∧ msg = TypeError_message P v.
Proof.
  intros Hf. destruct (converts v) eqn:Hc.
  - destruct (codeToIcon_converts P v Hc) as [s Hs]. congruence.
  - rewrite (codeToIcon_throws P v Hc) in Hf. by injection Hf as <-.
Qed.

(** The mapping is not total, and not every unlisted number is
    "Variable": the number the parser reads from [1e999] is infinite,
    matches no code of the table and is labelled "Unknown"; and on an
    object with an own [toString] property the conversion throws. *)
Lemma codeToIcon_counterexample :
  is_number (VNum infinity) = true ∧
  Forall (fun k => (infinity =? k)%float = false) recognized_codes ∧
  codeToIcon Demo.platform (VNum infinity)
    = Normal {| icon := "ri-question-line"; label := "Unknown" |} ∧
  codeToIcon Demo.platform (VObj [("toString", VNum 1)])
    = Throw "Cannot convert object to primitive value".
Proof.
  split; [reflexivity|]. split; [unfold recognized_codes; repeat constructor|].
  split; reflexivity.
Qed.

(** C8, amended. [codeToIcon] answers with a label of its table for
    every value that converts to a number, and throws the TypeError of
    the conversion for the others (an object with an own [toString]
    property, or an array that holds one). Code 0 is "Clear sky", code 95
    is "Thunderstorm", every finite number the table does not list (12345
    among them) is "Variable", and every number that is not finite is
    "Unknown". *)
Theorem codeToIcon_mapping (P : Platform) (v : value) (c : float) :
  codeToIcon P (VNum 0) = Normal {| icon := "ri-sun-line"; label := "Clear sky" |} ∧
  codeToIcon P (VNum 95)
    = Normal {| icon := "ri-thunderstorms-line"; label := "Thunderstorm" |} ∧
  codeToIcon P (VNum 12345)
    = Normal {| icon := "ri-cloud-windy-line"; label := "Variable" |} ∧
  (isFinite c = true →
   Forall (fun k => (c =? k)%float = false) recognized_codes →
     codeToIcon P (VNum c)
       = Normal {| icon := "ri-cloud-windy-line"; label := "Variable" |}) ∧
  (isFinite c = false →
     codeToIcon P (VNum c) = Normal {| icon := "ri-question-line"; label := "Unknown" |}) ∧
  (converts v = true → ∃ il, codeToIcon P v = Normal il ∧ label il ∈ table_labels) ∧
  (converts v = false → codeToIcon P v = Throw (TypeError_message P v)) ∧
  (match v with VArr _ | VObj _ => True | _ => converts v = true end).
Proof.
  split; [reflexivity|]. split; [reflexivity|]. split; [reflexivity|].
  split; [|split; [|split; [|split]]].
  - intros Hfinite Hunrecognized.
    pose proof (Forall_unrecognized c Hunrecognized) as Hk.
    unfold codeToIcon. cbn [Number mbind completion_bind]. rewrite Hfinite. cbn [negb].
    rewrite !Hk by (unfold recognized_codes; set_solver).
    reflexivity.
  - intros Hn. unfold codeToIcon. cbn [Number mbind completion_bind]. by rewrite Hn.
  - intros Hc. destruct (codeToIcon_converts P v Hc) as [il Hil].
    exists il. split; [done|]. by eapply codeToIcon_label_in_table.
  - apply codeToIcon_throws.
  - by destruct v.
Qed.

Lemma codeToIcon_mapping_witness :
  codeToIcon Demo.platform (VNum 7)
    = Normal {| icon := "ri-cloud-windy-line"; label := "Variable" |} ∧
  codeToIcon Demo.platform (VNum neg_infinity)
    = Normal {| icon := "ri-question-line"; label := "Unknown" |} ∧
  (∃ il, codeToIcon Demo.platform (VStr "abc") = Normal il ∧ label il ∈ table_labels) ∧
  codeToIcon Demo.platform (VArr [VNum 1; VObj [("toString", VNull)]])
    = Throw "Cannot convert object to primitive value".
Proof.
  assert (Hu : Forall (fun k => (7 =? k)%float = false) recognized_codes).
  { unfold recognized_codes. repeat constructor. }
  destruct (codeToIcon_mapping Demo.platform (VStr "abc") 7)
    as (_ & _ & _ & Hvar & _ & Hin & _).
  destruct (codeToIcon_mapping Demo.platform
              (VArr [VNum 1; VObj [("toString", VNull)]]) neg_infinity)
    as (_ & _ & _ & _ & Hinf & _ & Hthrow & _).
  split; [exact (Hvar eq_refl Hu)|]. split; [exact (Hinf eq_refl)|].
  split; [exact (Hin eq_refl) | exact (Hthrow eq_refl)].
Defined.

Example codeToIcon_null (P : Platform) :
  codeToIcon P VNull = Normal {| icon := "ri-sun-line"; label := "Clear sky" |}.
Proof. reflexivity. Qed.

(** On the whole-degree grid from -100 to 200 in steps of 5 the double
    result is the exact Fahrenheit value. *)
Lemma toF_exact_on_grid :
  Forall (fun cf => toF cf.1 = cf.2) (celsius_grid 61 (-100) (-148)).
Proof. vm_compute. repeat constructor. Qed.

(** C9. [toF] computes [c * 9 / 5 + 32] in double arithmetic for every
    input, with [toF(0) = 32] and [toF(100) = 212]. *)
Theorem toF_formula (c : float) :
  toF c = (c * 9 / 5 + 32)%float ∧ toF 0 = 32%float ∧ toF 100 = 212%float.
Proof. repeat split; reflexivity. Qed.

(** *** Location registry *)

Lemma getCity_in_registry (id : string) :
  ∃ c, getCity id = Some c ∧ c ∈ APP_cities.
Proof.
  unfold getCity, getCity_in.
  destruct (find _ APP_cities) as [c|] eqn:Hfind.
  - exists c. split; [done|]. apply list_elem_of_In. by apply find_some in Hfind as [? _].
  - eexists. split; [reflexivity|]. unfold APP_cities. set_solver.
Qed.

Lemma getCity_found (id : string) (c : City) :
  find (fun c => String.eqb (city_id c) id) APP_cities = Some c →
  city_id c = id ∧ c ∈ APP_cities.
Proof.
  intros Hfind. apply find_some in Hfind as [Hin Heq].
  split; [by apply String.eqb_eq | by apply list_elem_of_In].
Qed.

Lemma getCity_not_found (id : string) :
  find (fun c => String.eqb (city_id c) id) APP_cities = None →
  id ∉ city_id <$> APP_cities.
Proof.
  intros Hfind Hin. apply list_elem_of_fmap in Hin as (c & -> & Hc).
  apply list_elem_of_In in Hc.
  pose proof (find_none _ _ Hfind c Hc) as Hneq. cbn in Hneq.
  by rewrite String.eqb_refl in Hneq.
Qed.

Lemma fetchWeather_begin_no_throw (st : WeatherState) (now : Z) (force : bool)
    (msg : string) :
  fetchWeather_begin st now force ≠ BeginThrow msg.
Proof.
  unfold fetchWeather_begin.
  destruct (getCity_in_registry (cityId st)) as (c & -> & _).
  destruct (negb force); [|done]. by destruct (truthy _).
Qed.

(** C7. Every id resolves to a registered location: the one with that
    id when there is one, the first of the registry otherwise; and
    [fetchWeather] never throws for the id, so that a successful network
    answer always yields a result. *)
Theorem getCity_never_fails (H : Host) (id : string) :
  ∃ c, getCity id = Some c ∧ c ∈ APP_cities ∧
    (id ∈ city_id <$> APP_cities → city_id c = id) ∧
    (id ∉ city_id <$> APP_cities → head APP_cities = Some c) ∧
    (∀ st now force msg,
        cityId st = id → fetchWeather_begin st now force ≠ BeginThrow msg) ∧
    (∀ st ls now force resumed status json now',
        cityId st = id → res_ok status = true →
        ∃ d s, run_result (fetchWeather H st ls now force resumed
                             (NetResponse status (inr json)) now') = Returned d s).
Proof.
  destruct (getCity_in_registry id) as (c & Hc & Hin).
  exists c. split; [done|]. split; [done|].
  assert (Hrun : ∀ st ls now force resumed status json now',
            cityId st = id → res_ok status = true →
            ∃ d s, run_result (fetchWeather H st ls now force resumed
                                 (NetResponse status (inr json)) now') = Returned d s).
  { intros st ls now force resumed status json now' _ Hok. unfold fetchWeather.
    destruct (fetchWeather_begin st now force) as [msg| |] eqn:Hb.
    + by apply fetchWeather_begin_no_throw in Hb.
    + cbn. eauto.
    + cbn. rewrite Hok. cbn. eauto. }
  unfold getCity, getCity_in in Hc.
  destruct (find _ APP_cities) as [c'|] eqn:Hfind.
  - injection Hc as ->. apply getCity_found in Hfind as [Hid Hreg].
    split; [done|]. split.
    { intros Hnot. exfalso. apply Hnot. apply list_elem_of_fmap. eauto. }
    split; [|exact Hrun].
    intros. apply fetchWeather_begin_no_throw.
  - apply getCity_not_found in Hfind.
    split; [done|]. split; [done|]. split; [|exact Hrun].
    intros. apply fetchWeather_begin_no_throw.
Qed.

Lemma getCity_never_fails_witness :
  ∃ c, getCity "atlantis" = Some c ∧ city_id c = "erbil" ∧
    ∃ d s, run_result
      (fetchWeather (Demo.host 64) (set_cityId "atlantis" Demo.state0) ∅ 1000
         false (set_cityId "atlantis" Demo.state0, ∅)
         (NetResponse 200 (inr (VObj []))) 1001) = Returned d s.
Proof.
  destruct (getCity_never_fails (Demo.host 64) "atlantis")
    as (c & Hc & _ & _ & Hhead & _ & Hrun).
  exists c. split; [exact Hc|]. split.
  - assert (Hnot : "atlantis" ∉ city_id <$> APP_cities).
    { vm_compute. intros Hin. repeat (apply elem_of_cons in Hin as [Hin|Hin]; [discriminate Hin|]).
      by apply elem_of_nil in Hin. }
    specialize (Hhead Hnot). cbn in Hhead. injection Hhead as <-. reflexivity.
  - apply (Hrun (set_cityId "atlantis" Demo.state0) ∅ 1000%Z false
             (set_cityId "atlantis" Demo.state0, ∅) 200%N (VObj []) 1001%Z);
      reflexivity.
Defined.

(** *** The cache *)

Lemma fromCache_absent (st : WeatherState) (now : Z) :
  cache st !! buildKey st = None → fromCache st now = VNull.
Proof. intros Hk. unfold fromCache. by rewrite Hk. Qed.

Lemma fromCache_truthy_iff (st : WeatherState) (now : Z) (e : CacheEntry) :
  cache st !! buildKey st = Some e →
  truthy (fromCache st now) = true ↔ usable now e.
Proof.
  intros Hk. unfold fromCache, usable, within_ttl, APP_weather_cacheTtlMs, or_.
  rewrite Hk.
  destruct (Z.eqb_spec (ts e) 0) as [Hz|Hz]; cbn [orb].
  { split; [discriminate | intros [? _]; done]. }
  destruct (Z.ltb_spec (10 * 60 * 1000) (now - ts e)) as [Hlt|Hle].
  { split; [discriminate | intros (_ & ? & _); lia]. }
  destruct (truthy (data e)) eqn:Ht.
  - rewrite Ht. split; [intros _; repeat split; [done | lia] | done].
  - cbn. split; [discriminate | intros (_ & _ & ?); done].
Qed.

Lemma fromCache_usable (st : WeatherState) (now : Z) (e : CacheEntry) :
  cache st !! buildKey st = Some e → usable now e → fromCache st now = data e.
Proof.
  intros Hk (Hz & Httl & Ht). unfold within_ttl in Httl.
  unfold fromCache, APP_weather_cacheTtlMs, or_. rewrite Hk, Ht.
  destruct (Z.eqb_spec (ts e) 0) as [|_]; [done|].
  destruct (Z.ltb_spec (10 * 60 * 1000) (now - ts e)); [lia | done].
Qed.

Lemma fromCache_truthy_usable (st : WeatherState) (now : Z) :
  truthy (fromCache st now) = true ↔ has_usable_entry st now.
Proof.
  unfold has_usable_entry. destruct (cache st !! buildKey st) as [e|] eqn:Hk.
  - rewrite (fromCache_truthy_iff st now e Hk). split; [eauto|].
    by intros (e' & [= <-] & ?).
  - rewrite fromCache_absent by done. split; [done | by intros (? & ? & ?)].
Qed.

Lemma fetchWeather_begin_forced (st : WeatherState) (now : Z) :
  ∃ req, fetchWeather_begin st now true = BeginFetch req.
Proof.
  unfold fetchWeather_begin.
  destruct (getCity_in_registry (cityId st)) as (c & -> & _). cbn. eauto.
Qed.

Lemma fetchWeather_begin_hit (st : WeatherState) (now : Z) (e : CacheEntry) :
  cache st !! buildKey st = Some e → usable now e →
  fetchWeather_begin st now false = BeginReturn (data e) "cache".
Proof.
  intros Hk Hu. unfold fetchWeather_begin.
  destruct (getCity_in_registry (cityId st)) as (c & -> & _). cbn [negb].
  rewrite (fromCache_usable st now e Hk Hu).
  destruct Hu as (_ & _ & ->). done.
Qed.

Lemma fetchWeather_begin_miss (st : WeatherState) (now : Z) :
  ¬ has_usable_entry st now →
  ∃ req, fetchWeather_begin st now false = BeginFetch req.
Proof.
  intros Hno. unfold fetchWeather_begin.
  destruct (getCity_in_registry (cityId st)) as (c & -> & _). cbn [negb].
  destruct (truthy (fromCache st now)) eqn:Ht; [|eauto].
  by apply fromCache_truthy_usable in Ht.
Qed.

Lemma fetchWeather_begin_fetch_iff (st : WeatherState) (now : Z) (force : bool) :
  (∃ req, fetchWeather_begin st now force = BeginFetch req) ↔
  force = true ∨ ¬ has_usable_entry st now.
Proof.
  split.
  - intros [req Hb]. destruct force; [by left|]. right.
    intros (e & Hk & Hu). by rewrite (fetchWeather_begin_hit st now e Hk Hu) in Hb.
  - intros [-> | Hno]; [apply fetchWeather_begin_forced|].
    destruct force; [apply fetchWeather_begin_forced | by apply fetchWeather_begin_miss].
Qed.

Lemma buildKey_set_cache (m : gmap string CacheEntry) (st : WeatherState) :
  buildKey (set_cache m st) = buildKey st.
Proof. reflexivity. Qed.

Lemma fetchWeather_resume_success (H : Host) (st : WeatherState)
    (ls : gmap string string) (now : Z) (status : N) (json : value) :
  res_ok status = true →
  fetchWeather_resume H st ls now (NetResponse status (inr json))
    = (Returned json "live", cacheSet H st ls now json).
Proof. intros Hok. cbn. by rewrite Hok. Qed.

Lemma fetchWeather_resume_failure (H : Host) (st : WeatherState)
    (ls : gmap string string) (now : Z) (net : NetOutcome) :
  net_failed net = true →
  fetchWeather_resume H st ls now net = (Thrown (failure_message net), (st, ls)).
Proof.
  destruct net as [msg|status body]; cbn; [done|].
  intros Hf. by rewrite Hf.
Qed.

(** A body that [res.json()] rejects fails the call the same way. *)
Lemma fetchWeather_resume_unparsable (H : Host) (st : WeatherState)
    (ls : gmap string string) (now : Z) (status : N) (msg : string) :
  (fetchWeather_resume H st ls now (NetResponse status (inl msg))).2 = (st, ls).
Proof. cbn. by destruct (negb (res_ok status)). Qed.

Lemma cacheSet_lookup (H : Host) (st : WeatherState) (ls : gmap string string)
    (now : Z) (d : value) :
  cache (cacheSet H st ls now d).1 !! buildKey st = Some {| ts := now; data := d |}.
Proof. cbn. apply lookup_insert_eq. Qed.





(** *** One call of [fetchWeather] *)





(** Nor does it when the city is changed while the first request is out:
    the answer for Erbil is filed under the key of Duhok, and a second
    unforced call for Erbil ten milliseconds later goes to the network
    too. *)
Example fetch_twice_selection_changed :
  let payload := VObj [("current", VObj [("temperature_2m", VNum 21)])] in
  let r1 := fetchWeather (Demo.host 64) Demo.state0 ∅ 1000 false
              (set_cityId "duhok" Demo.state0, ∅)
              (NetResponse 200 (inr payload)) 1200 in
  let st2 := set_cityId "erbil" (run_state r1) in
  let r2 := fetchWeather (Demo.host 64) st2 (run_storage r1) 1210 false
              (st2, run_storage r1) (NetResponse 200 (inr payload)) 1400 in
  buildKey st2 = buildKey Demo.state0 ∧
  cache (run_state r1) !! "erbil_c" = None ∧
  cache (run_state r1) !! "duhok_c" = Some {| ts := 1200; data := payload |} ∧
  run_result r2 = Returned payload "live" ∧
  run_network_calls r1 + run_network_calls r2 = 2.
Proof. cbv zeta. repeat split; by vm_compute. Qed.



(** C4. When the network call fails, by a transport error or a
    non-success status, [fetchWeather] throws an error with a message
    and leaves the state and the storage as it finds them when it
    resumes; the flow records the message in [lastError] and leaves the
    mapping as it was. *)
Theorem failed_fetch_leaves_cache (H : Host) (st : WeatherState)
    (ls : gmap string string) (now now' : Z) (force : bool)
    (resumed : WeatherState * gmap string string) (net : NetOutcome)
    (Hcall : ∃ req, fetchWeather_begin st now force = BeginFetch req)
    (Hfail : net_failed net = true) :
  fetchWeather H st ls now force resumed net now'
    = {| run_result := Thrown (failure_message net); run_state := resumed.1;
         run_storage := resumed.2; run_network_calls := 1 |} ∧
  fetchWeather H st ls now force (st, ls) net now'
    = {| run_result := Thrown (failure_message net); run_state := st;
         run_storage := ls; run_network_calls := 1 |} ∧
  (∀ status body, net = NetResponse status body →
     failure_message net = "Weather request failed (" +:+ pretty status +:+ ")") ∧
  (∀ P F fcParts m i req, m_pending m !! i = Some (AwaitNetwork req) →
     let m' := settle H P F fcParts m now' i net in
     cache (m_state m') = cache (m_state m) ∧
     m_storage m' = m_storage m ∧
     lastError (m_state m') = Some (failure_message net) ∧
     m_view m' = ViewError (failure_message net)).
Proof.
  destruct Hcall as [req Hb]. split.
  { unfold fetchWeather. rewrite Hb. rewrite fetchWeather_resume_failure by done.
    by destruct resumed. }
  split.
  { unfold fetchWeather. rewrite Hb. by rewrite fetchWeather_resume_failure. }
  split; [by intros status body ->|].
  intros P F fcParts m i req' Hp. cbv zeta. unfold settle. rewrite Hp.
  by rewrite fetchWeather_resume_failure.
Qed.

Lemma failed_fetch_leaves_cache_witness :
  let st := set_cache {[ "erbil_c" := {| ts := 1000; data := VObj [] |} ]} Demo.state0 in
  fetchWeather (Demo.host 64) st ∅ 2000 true (st, ∅) (NetResponse 503 (inr VNull)) 2001
    = {| run_result := Thrown "Weather request failed (503)"; run_state := st;
         run_storage := ∅; run_network_calls := 1 |}.
Proof.
  cbv zeta.
  refine (proj1 (proj2 (failed_fetch_leaves_cache (Demo.host 64) _ ∅ 2000 2001 true
           (Demo.state0, ∅) (NetResponse 503 (inr VNull)) _ _))).
  - eexists. reflexivity.
  - reflexivity.
Defined.

(** C6. A successful network fetch writes the entry into the mapping
    and then hands the serialised mapping, new entry included, to the
    storage; when the storage refuses the write the call still returns
    the live payload and the entry stays in the mapping. The key is the
    one of the selection the call finds when the answer arrives. *)
Theorem successful_fetch_persists_best_effort (H : Host) (st : WeatherState)
    (ls : gmap string string) (now now' : Z) (force : bool)
    (resumed : WeatherState * gmap string string) (status : N) (json : value)
    (Hcall : ∃ req, fetchWeather_begin st now force = BeginFetch req)
    (Hok : res_ok status = true) :
  let r := fetchWeather H st ls now force resumed (NetResponse status (inr json)) now' in
  let entry := {| ts := now'; data := json |} in
  let serialized :=
    JSON_stringify H (<[buildKey resumed.1 := entry]> (cache resumed.1)) in
  run_result r = Returned json "live" ∧
  cache (run_state r) = <[buildKey resumed.1 := entry]> (cache resumed.1) ∧
  cache (run_state r) !! buildKey resumed.1 = Some entry ∧
  (quota_allows H resumed.2 APP_storageKeys_weatherCache serialized = true →
     run_storage r = <[APP_storageKeys_weatherCache := serialized]> resumed.2) ∧
  (quota_allows H resumed.2 APP_storageKeys_weatherCache serialized = false →
     run_storage r = resumed.2).
Proof.
  destruct Hcall as [req Hb]. cbv zeta. unfold fetchWeather. rewrite Hb.
  rewrite fetchWeather_resume_success by done.
  cbn [run_result run_state run_storage fst snd].
  split; [done|]. split; [done|]. split; [apply cacheSet_lookup|].
  unfold cacheSet, persistWeatherCache, localStorage_setItem. cbn [snd cache set_cache].
  split; intros ->; done.
Qed.

Lemma successful_fetch_persists_best_effort_witness :
  let r := fetchWeather (Demo.host 0) Demo.state0 ∅ 1000 false (Demo.state0, ∅)
             (NetResponse 200 (inr (VObj []))) 1002 in
  run_result r = Returned (VObj []) "live" ∧
  cache (run_state r) !! "erbil_c" = Some {| ts := 1002; data := VObj [] |} ∧
  run_storage r = ∅.
Proof.
  cbv zeta.
  destruct (successful_fetch_persists_best_effort (Demo.host 0) Demo.state0 ∅ 1000 1002
              false (Demo.state0, ∅) 200 (VObj []))
    as (Hres & _ & Hentry & _ & Hfull).
  - eexists. reflexivity.
  - reflexivity.
  - split; [exact Hres|]. split; [exact Hentry|]. apply Hfull. reflexivity.
Defined.

(** *** Forecast rows *)

Lemma mapM_Normal {A B : Type} (f : A → completion B) (l : list A) (ks : list B) :
  mapM f l = Normal ks ↔ Forall2 (fun x y => f x = Normal y) l ks.
Proof.
  revert ks. induction l as [|x l IH]; intros ks; cbn.
  - split; [intros [= <-]; constructor | by intros ->%Forall2_nil_inv_l].
  - destruct (f x) as [y|msg] eqn:Hx; cbn.
    + destruct (mapM f l) as [k|msg] eqn:Hl; cbn.
      * split.
        -- unfold mret, completion_ret. intros [= <-]. constructor; [done|]. by apply IH.
        -- intros (y' & k' & Hy & Hk & ->)%Forall2_cons_inv_l.
           apply IH in Hk. unfold mret, completion_ret. congruence.
      * split; [done|].
        intros (y' & k' & Hy & Hk & ->)%Forall2_cons_inv_l.
        apply IH in Hk. congruence.
    + split; [done|].
      intros (y' & k' & Hy & Hk & ->)%Forall2_cons_inv_l. congruence.
Qed.

Lemma mapM_Throw {A B : Type} (f : A → completion B) (l : list A) (msg : string) :
  mapM f l = Throw msg → ∃ x, x ∈ l ∧ f x = Throw msg.
Proof.
  induction l as [|x l IH]; cbn; [done|].
  destruct (f x) as [y|msg'] eqn:Hx; cbn.
  - destruct (mapM f l) as [k|msg'] eqn:Hl; cbn; [done|].
    intros [= ->]. destruct (IH eq_refl) as (x' & Hin & Hx').
    exists x'. split; [by apply list_elem_of_further | done].
  - intros [= ->]. exists x. split; [apply list_elem_of_here | done].
Qed.

Lemma mapM_total {A B : Type} (f : A → completion B) (l : list A) :
  (∀ x, x ∈ l → ∃ y, f x = Normal y) → ∃ ks, mapM f l = Normal ks.
Proof.
  induction l as [|x l IH]; intros Hall; cbn; [by eexists|].
  destruct (Hall x (list_elem_of_here _ _)) as [y ->]. cbn.
  destruct IH as [ks ->]; [|cbn; by eexists].
  intros x' Hx'. apply Hall. by apply list_elem_of_further.
Qed.

Lemma formatNumber_VNum (P : Platform) (x : float) (digits : nat) :
  formatNumber P (VNum x) digits
    = Normal (if negb (isFinite x) then "—" else toLocaleString P x digits).
Proof. unfold formatNumber. cbn. by destruct (negb (isFinite x)). Qed.

(** A row is pushed when its four operands convert; otherwise the row
    throws the TypeError of an operand that does not. *)
Lemma forecast_row_cases (P : Platform) (u : Units)
    (times tempsC codes winds hums : list value) (i : nat) :
  (converts (index tempsC i) = true ∧ converts (index winds i) = true ∧
   converts (index codes i) = true ∧ converts (index hums i) = true ∧
   ∃ r, forecast_row P u times tempsC codes winds hums i = Normal r) ∨
  (∃ v, v ∈ [index tempsC i; index winds i; index codes i; index hums i] ∧
        converts v = false ∧
        forecast_row P u times tempsC codes winds hums i
          = Throw (TypeError_message P v)).
Proof.
  unfold forecast_row.
  generalize (index tempsC i) (index winds i) (index codes i) (index hums i).
  intros a w c h.
  destruct (converts a) eqn:Ha, (converts w) eqn:Hw, (converts c) eqn:Hc,
    (converts h) eqn:Hh;
    try destruct (Number_converts P a Ha) as [na Hna];
    try destruct (formatNumber_converts P a 0 Ha) as [fa Hfa];
    try pose proof (Number_throws P a Ha) as Hna;
    try pose proof (formatNumber_throws P a 0 Ha) as Hfa;
    try destruct (Number_converts P w Hw) as [nw Hnw];
    try destruct (formatNumber_converts P w 0 Hw) as [fw Hfw];
    try pose proof (Number_throws P w Hw) as Hnw;
    try pose proof (formatNumber_throws P w 0 Hw) as Hfw;
    try destruct (codeToIcon_converts P c Hc) as [ic Hic];
    try pose proof (codeToIcon_throws P c Hc) as Hic;
    try destruct (formatNumber_converts P h 0 Hh) as [fh Hfh];
    try pose proof (formatNumber_throws P h 0 Hh) as Hfh;
    destruct u;
    repeat first [ rewrite Hna | rewrite Hnw | rewrite Hic | rewrite Hfa
                 | rewrite Hfw | rewrite Hfh | rewrite formatNumber_VNum
                 | progress cbn [mbind completion_bind] ];
    first [ left; repeat split; try done; by eexists
          | right; exists a; split; [set_solver | done]
          | right; exists w; split; [set_solver | done]
          | right; exists c; split; [set_solver | done]
          | right; exists h; split; [set_solver | done] ].
Qed.

Lemma forecast_row_Normal_iff (P : Platform) (u : Units)
    (times tempsC codes winds hums : list value) (i : nat) :
  (∃ r, forecast_row P u times tempsC codes winds hums i = Normal r) ↔
  ∀ v, v ∈ [index tempsC i; index winds i; index codes i; index hums i] →
       converts v = true.
Proof.
  destruct (forecast_row_cases P u times tempsC codes winds hums i)
    as [(Ha & Hw & Hc & Hh & Hr) | (v & Hv & Hcv & Hr)].
  - split; [|done]. intros _ v Hv.
    repeat (apply elem_of_cons in Hv as [->|Hv]; [done|]). by apply elem_of_nil in Hv.
  - split.
    + intros [r Hr']. congruence.
    + intros Hall. specialize (Hall v Hv). congruence.
Qed.

Lemma forecast_row_Throw_inv (P : Platform) (u : Units)
    (times tempsC codes winds hums : list value) (i : nat) (msg : string) :
  forecast_row P u times tempsC codes winds hums i = Throw msg →
  ∃ v, v ∈ [index tempsC i; index winds i; index codes i; index hums i] ∧
       converts v = false ∧ msg = TypeError_message P v.
Proof.
  intros Hr.
  destruct (forecast_row_cases P u times tempsC codes winds hums i)
    as [(_ & _ & _ & _ & r & Hr') | (v & Hv & Hcv & Hr')]; [congruence|].
  exists v. split; [done|]. split; [done|]. congruence.
Qed.

Lemma forecast_rows_Normal (P : Platform) (u : Units) (d : value) (rows : list Row) :
  forecast_rows P u d = Normal rows →
  length rows = row_count d ∧
  ∀ i, (i < row_count d)%nat →
    ∃ r, rows !! i = Some r ∧
         forecast_row P u (hourly_array (hourly_of d) "time")
           (hourly_array (hourly_of d) "temperature_2m")
           (hourly_array (hourly_of d) "weather_code")
           (hourly_array (hourly_of d) "wind_speed_10m")
           (hourly_array (hourly_of d) "relative_humidity_2m") i = Normal r.
Proof.
  unfold forecast_rows, row_count. cbv zeta. intros Hm%mapM_Normal.
  split.
  - apply Forall2_length in Hm. by rewrite length_seq in Hm.
  - intros i Hi.
    destruct (Forall2_lookup_l _ _ _ i i Hm) as (r & Hr & Hrow).
    { by apply lookup_seq_lt. }
    by exists r.
Qed.

Lemma forecast_rows_Normal_iff (P : Platform) (u : Units) (d : value) :
  (∃ rows, forecast_rows P u d = Normal rows) ↔
  ∀ i v, (i < row_count d)%nat → v ∈ converted_at d i → converts v = true.
Proof.
  split.
  - intros [rows Hrows] i v Hi Hv.
    destruct (forecast_rows_Normal P u d rows Hrows) as [_ Hlook].
    destruct (Hlook i Hi) as (r & _ & Hr).
    exact (proj1 (forecast_row_Normal_iff P u _ _ _ _ _ i) (ex_intro _ r Hr) v Hv).
  - intros Hall. unfold forecast_rows. cbv zeta. apply mapM_total.
    intros i Hi%elem_of_seq. apply forecast_row_Normal_iff.
    intros v Hv. apply (Hall i v); [|done]. unfold row_count. lia.
Qed.

Lemma forecast_rows_Throw (P : Platform) (u : Units) (d : value) (msg : string) :
  forecast_rows P u d = Throw msg →
  ∃ i v, (i < row_count d)%nat ∧ v ∈ converted_at d i ∧ converts v = false ∧
         msg = TypeError_message P v.
Proof.
  unfold forecast_rows. cbv zeta. intros (i & Hi%elem_of_seq & Hr)%mapM_Throw.
  destruct (forecast_row_Throw_inv P u _ _ _ _ _ i msg Hr) as (v & Hv & Hcv & Hmsg).
  exists i, v. split; [unfold row_count; lia|]. done.
Qed.

(** What a pushed row holds. *)
Lemma forecast_row_Normal_inv (P : Platform) (u : Units)
    (times tempsC codes winds hums : list value) (i : nat) (r : Row) :
  forecast_row P u times tempsC codes winds hums i = Normal r →
  ∃ tempVal w il temp wind hum,
    match u with
    | UnitsF => c ← Number P (index tempsC i); Normal (VNum (toF c))
    | UnitsC => Normal (index tempsC i)
    end = Normal tempVal ∧
    match u with
    | UnitsF => x ← Number P (index winds i); Normal (VNum (x * 0.621371)%float)
    | UnitsC => Normal (index winds i)
    end = Normal w ∧
    codeToIcon P (index codes i) = Normal il ∧
    formatNumber P tempVal 0 = Normal temp ∧
    formatNumber P w 0 = Normal wind ∧
    formatNumber P (index hums i) 0 = Normal hum ∧
    r = {| row_time := index times i; row_icon := icon il; row_label := label il;
           row_temp := temp +:+ unitSymbol u;
           row_wind := wind +:+ " " +:+ windUnit u;
           row_hum := hum +:+ "%" |}.
Proof.
  unfold forecast_row. intros Hr.
  apply bind_Normal in Hr as (tempVal & Ht & Hr).
  apply bind_Normal in Hr as (w & Hw & Hr).
  apply bind_Normal in Hr as (il & Hil & Hr).
  apply bind_Normal in Hr as (temp & Htemp & Hr).
  apply bind_Normal in Hr as (wind & Hwind & Hr).
  apply bind_Normal in Hr as (hum & Hhum & Hr).
  injection Hr as <-. by exists tempVal, w, il, temp, wind, hum.
Qed.

(** A wind or humidity array that ends before the row count is read as
    [undefined] there, and the cell shows the dash of [formatNumber]. *)
Lemma forecast_row_missing_cells (P : Platform) (u : Units)
    (times tempsC codes winds hums : list value) (i : nat) (r : Row) :
  forecast_row P u times tempsC codes winds hums i = Normal r →
  ((length winds ≤ i)%nat → row_wind r = "—" +:+ " " +:+ windUnit u) ∧
  ((length hums ≤ i)%nat → row_hum r = "—" +:+ "%") ∧
  ∃ il, codeToIcon P (index codes i) = Normal il ∧
        row_icon r = icon il ∧ row_label r = label il.
Proof.
  intros (tempVal & w & il & temp & wind & hum & Ht & Hw & Hil & Htemp & Hwind
          & Hhum & ->)%forecast_row_Normal_inv.
  cbn [row_wind row_hum row_icon row_label]. split; [|split; [|by exists il]].
  - intros Hlen. unfold index in Hw. rewrite (lookup_ge_None_2 winds i Hlen) in Hw.
    cbn [default] in Hw.
    destruct u; cbn in Hw; injection Hw as <-.
    + rewrite formatNumber_undefined in Hwind. by injection Hwind as <-.
    + rewrite formatNumber_VNum in Hwind. by injection Hwind as <-.
  - intros Hlen. unfold index in Hhum. rewrite (lookup_ge_None_2 hums i Hlen) in Hhum.
    cbn [default] in Hhum. rewrite formatNumber_undefined in Hhum.
    by injection Hhum as <-.
Qed.

(** The rows are not cut at the shortest of the arrays: with 24 times,
    temperatures, winds and humidities and 20 weather codes the common
    length is 20 and 8 rows are rendered. *)
Lemma forecast_rows_counterexample :
  hourly_lengths Demo.hourly_24_20 = [24; 24; 20; 24; 24] ∧
  shortest_common_length Demo.hourly_24_20 = 20 ∧
  ∃ rows, forecast_rows Demo.platform UnitsC Demo.hourly_24_20 = Normal rows ∧
          length rows = 8.
Proof.
  split; [by vm_compute|]. split; [by vm_compute|].
  eexists. split; [by vm_compute | reflexivity].
Qed.

(** And rows are not always rendered: when a weather code that the loop
    reads is an object with an own [toString] property, the conversion
    throws in the second row and no row is drawn. *)
Example forecast_rows_unconvertible :
  row_count Demo.hourly_unconvertible = 3 ∧
  forecast_rows Demo.platform UnitsC Demo.hourly_unconvertible
    = Throw "Cannot convert object to primitive value" ∧
  forecast_body Demo.platform UnitsF Demo.hourly_unconvertible
    = Throw "Cannot convert object to primitive value".
Proof. repeat split; by vm_compute. Qed.

(** C3, amended. The loop runs over the first
    [min(8, time.length, temperature_2m.length, weather_code.length)]
    positions. When every temperature, wind, weather code and humidity it
    reads there converts to a number, the renderer pushes exactly that
    many rows, so 24 temperatures with 20 weather codes give 8 rows;
    otherwise it throws the TypeError of the conversion and draws no row.
    Every row reads the three arrays of the count inside their bounds,
    and a read past the end of the other two gives [undefined]. *)
Theorem forecast_rows_truncation (P : Platform) (u : Units) (d : value) :
  let times := hourly_array (hourly_of d) "time" in
  let tempsC := hourly_array (hourly_of d) "temperature_2m" in
  let codes := hourly_array (hourly_of d) "weather_code" in
  let count :=
    Nat.min 8 (Nat.min (length times) (Nat.min (length tempsC) (length codes))) in
  row_count d = count ∧
  (∀ rows, forecast_rows P u d = Normal rows →
     length rows = count ∧ ∀ i, (i < count)%nat → is_Some (rows !! i)) ∧
  ((∃ rows, forecast_rows P u d = Normal rows) ↔
     ∀ i v, (i < count)%nat → v ∈ converted_at d i → converts v = true) ∧
  (∀ msg, forecast_rows P u d = Throw msg →
     ∃ i v, (i < count)%nat ∧ v ∈ converted_at d i ∧ converts v = false ∧
            msg = TypeError_message P v) ∧
  (∀ i, (i < count)%nat →
     is_Some (times !! i) ∧ is_Some (tempsC !! i) ∧ is_Some (codes !! i)) ∧
  (∃ rows, forecast_rows P u Demo.hourly_24_20 = Normal rows ∧ length rows = 8).
Proof.
  cbv zeta. split; [reflexivity|]. split; [|split; [|split; [|split]]].
  - intros rows Hrows.
    destruct (forecast_rows_Normal P u d rows Hrows) as [Hlen Hlook].
    split; [exact Hlen|]. intros i Hi.
    destruct (Hlook i Hi) as (r & Hr & _). by exists r.
  - apply forecast_rows_Normal_iff.
  - apply forecast_rows_Throw.
  - intros i Hi. repeat split; apply lookup_lt_is_Some; lia.
  - destruct (proj2 (forecast_rows_Normal_iff P u Demo.hourly_24_20)) as [rows Hr].
    { intros i v Hi Hv. unfold converted_at in Hv.
      change (row_count Demo.hourly_24_20) with 8%nat in Hi.
      do 8 (destruct i as [|i]; [vm_compute in Hv;
        repeat (apply elem_of_cons in Hv as [->|Hv]; [reflexivity|]);
        by apply elem_of_nil in Hv|]).
      lia. }
    exists rows. split; [done|].
    by destruct (forecast_rows_Normal P u _ rows Hr) as [-> _].
Qed.

Lemma forecast_rows_truncation_witness :
  (∃ rows, forecast_rows Demo.platform UnitsF Demo.hourly_24_20 = Normal rows ∧
           length rows = 8 ∧ is_Some (rows !! 7)) ∧
  (∃ i v, (i < 3)%nat ∧ v ∈ converted_at Demo.hourly_unconvertible i ∧
          converts v = false).
Proof.
  destruct (forecast_rows_truncation Demo.platform UnitsF Demo.hourly_24_20)
    as (_ & Hrows & Hiff & _ & _ & _).
  destruct (forecast_rows_truncation Demo.platform UnitsC Demo.hourly_unconvertible)
    as (_ & _ & _ & Hthrow & _ & _).
  split.
  - destruct (proj2 Hiff) as [rows Hr].
    { intros i v Hi Hv. unfold converted_at in Hv.
      do 8 (destruct i as [|i]; [vm_compute in Hv;
        repeat (apply elem_of_cons in Hv as [->|Hv]; [reflexivity|]);
        by apply elem_of_nil in Hv|]).
      vm_compute in Hi. lia. }
    exists rows. split; [exact Hr|].
    destruct (Hrows rows Hr) as [Hlen Hsome].
    split; [exact Hlen|]. apply Hsome. vm_compute. lia.
  - destruct (Hthrow "Cannot convert object to primitive value")
      as (i & v & Hi & Hv & Hcv & _); [by vm_compute|].
    exists i, v. split; [exact Hi|]. split; [exact Hv | exact Hcv].
Defined.

(** *** The loading guard *)

Lemma in_flight_le_pending (m : Machine) : (in_flight m ≤ length (m_pending m))%nat.
Proof. unfold in_flight. apply length_filter. Qed.

Lemma renderWeatherFromCacheOrFetch_loading (m : Machine) (now : Z) (force : bool) :
  isLoading (m_state m) = true → renderWeatherFromCacheOrFetch m now force = m.
Proof. intros Hl. unfold renderWeatherFromCacheOrFetch. by rewrite Hl. Qed.

Lemma renderWeatherFromCacheOrFetch_inv (m : Machine) (now : Z) (force : bool) :
  single_flight_inv m → single_flight_inv (renderWeatherFromCacheOrFetch m now force).
Proof.
  intros Hinv. unfold renderWeatherFromCacheOrFetch.
  destruct (isLoading (m_state m)) eqn:Hl; [done|].
  destruct Hinv as [[Ht _] | [_ Hp]]; [congruence|].
  left. destruct (fetchWeather_begin _ now force); cbn; by rewrite Hp.
Qed.

Lemma finish_inv (P : Platform) (F : WeatherCard.Formats) (fcParts : bool)
    (st : WeatherState) (ls : gmap string string)
    (reqs : list Request) (r : FetchResult) :
  single_flight_inv (finish P F fcParts st ls [] reqs r).
Proof.
  right. unfold finish.
  destruct r as [d s|msg]; [destruct (WeatherCard.renderWeather _ _ _ _ _ _)|]; done.
Qed.

Lemma settle_inv (H : Host) (P : Platform) (F : WeatherCard.Formats)
    (fcParts : bool) (m : Machine) (now : Z) (i : nat) (net : NetOutcome) :
  single_flight_inv m → single_flight_inv (settle H P F fcParts m now i net).
Proof.
  intros Hinv. unfold settle.
  destruct (m_pending m !! i) as [p|] eqn:Hp; [|done].
  destruct Hinv as [[_ Hlen] | [_ Hnil]]; [|by rewrite Hnil in Hp].
  destruct (m_pending m) as [|p0 [|p1 rest]]; try done.
  destruct i as [|i]; [|done]. cbn in Hp. injection Hp as ->.
  destruct p; apply finish_inv.
Qed.

Lemma select_inv (H : Host) (m : Machine) (now : Z) (st : WeatherState) :
  isLoading st = isLoading (m_state m) →
  single_flight_inv m → single_flight_inv (select H m now st).
Proof.
  intros Hl Hinv. unfold select.
  assert (single_flight_inv
            {| m_state := st;
               m_storage := (persistWeatherSettings H st (m_storage m)).1;
               m_view := m_view m; m_pending := m_pending m;
               m_requests := m_requests m |}) as Hinv'.
  { unfold single_flight_inv in *. cbn. by rewrite Hl. }
  destruct (persistWeatherSettings H st (m_storage m)).2; [|done].
  by apply renderWeatherFromCacheOrFetch_inv.
Qed.

Lemma step_inv (H : Host) (P : Platform) (F : WeatherCard.Formats)
    (fcParts : bool) (m : Machine) (now : Z) (ev : Event) :
  single_flight_inv m → single_flight_inv (step H P F fcParts m now ev).
Proof.
  intros Hinv. destruct ev; cbn.
  - by apply select_inv.
  - by apply select_inv.
  - by apply renderWeatherFromCacheOrFetch_inv.
  - by apply renderWeatherFromCacheOrFetch_inv.
  - by apply settle_inv.
Qed.

Lemma run_inv (H : Host) (P : Platform) (F : WeatherCard.Formats)
    (fcParts : bool) (evs : list (Z * Event)) (m : Machine) :
  single_flight_inv m → single_flight_inv (run H P F fcParts m evs).
Proof.
  revert m. induction evs as [|[now ev] evs IH]; intros m Hinv; [done|].
  cbn. apply IH. by apply step_inv.
Qed.

(** The key of a write is built when the answer arrives: if the
    selection moved while the request was out (the call for the new
    selection having returned at the guard), the payload is stored under
    the new selection's key. *)
Lemma settle_writes_current_key (H : Host) (P : Platform) (F : WeatherCard.Formats)
    (fcParts : bool) (m : Machine) (now : Z) (i : nat)
    (req : Request) (status : N) (json : value) :
  m_pending m !! i = Some (AwaitNetwork req) → res_ok status = true →
  cache (m_state (settle H P F fcParts m now i (NetResponse status (inr json))))
    = <[buildKey (m_state m) := {| ts := now; data := json |}]> (cache (m_state m)).
Proof.
  intros Hp Hok. unfold settle. rewrite Hp.
  rewrite fetchWeather_resume_success by done. cbn [fst snd]. unfold finish.
  by destruct (WeatherCard.renderWeather _ _ _ _ _ _).
Qed.

(** C5. While [isLoading] is up, a call of the flow returns at once:
    the whole machine, requests included, is as before. Hence, along
    every run of the event loop, at most one call is suspended and at
    most one request is in flight, and only while [isLoading] is up. *)
Theorem single_flight (H : Host) (P : Platform) (F : WeatherCard.Formats)
    (fcParts : bool) (m : Machine) (now : Z) (force : bool)
    (Hloading : isLoading (m_state m) = true) :
  renderWeatherFromCacheOrFetch m now force = m ∧
  step H P F fcParts m now EvRefreshClick = m ∧
  step H P F fcParts m now EvOverlayOpen = m ∧
  (∀ u c cache0 ls evs,
     let m' := run H P F fcParts (initial_machine u c cache0 ls) evs in
     (in_flight m' ≤ 1)%nat ∧ (length (m_pending m') ≤ 1)%nat ∧
     (0 < length (m_pending m') → isLoading (m_state m') = true)%nat).
Proof.
  split; [by apply renderWeatherFromCacheOrFetch_loading|].
  split; [by apply renderWeatherFromCacheOrFetch_loading|].
  split; [by apply renderWeatherFromCacheOrFetch_loading|].
  intros u c cache0 ls evs. cbv zeta.
  assert (Hinv : single_flight_inv (run H P F fcParts (initial_machine u c cache0 ls) evs)).
  { apply run_inv. by right. }
  pose proof (in_flight_le_pending
                (run H P F fcParts (initial_machine u c cache0 ls) evs)) as Hle.
  destruct Hinv as [[Ht Hlen] | [Hf Hnil]].
  - rewrite Hlen in *. repeat split; [lia | lia | done].
  - rewrite Hnil in *. cbn in *. repeat split; lia.
Qed.

Lemma single_flight_witness :
  let m := run (Demo.host 64) Demo.platform Samples.formats true
             (initial_machine UnitsC "erbil" ∅ ∅) [(1000%Z, EvOverlayOpen)] in
  isLoading (m_state m) = true ∧
  step (Demo.host 64) Demo.platform Samples.formats true m 1001 EvRefreshClick = m ∧
  (in_flight m ≤ 1)%nat.
Proof.
  cbv zeta.
  assert (Hl : isLoading (m_state (run (Demo.host 64) Demo.platform Samples.formats true
                                     (initial_machine UnitsC "erbil" ∅ ∅)
                                     [(1000%Z, EvOverlayOpen)])) = true) by reflexivity.
  destruct (single_flight (Demo.host 64) Demo.platform Samples.formats true _ 1001 true Hl)
    as (_ & Hrefresh & _ & Hrun).
  split; [exact Hl|]. split; [exact Hrefresh|].
  exact (proj1 (Hrun UnitsC "erbil" ∅ ∅ [(1000%Z, EvOverlayOpen)])).
Defined.

(** *** The cart *)

Import Cart.

Lemma findIndex_None {A : Type} (p : A → bool) (l : list A) :
  findIndex p l = None ↔ ∀ x, x ∈ l → p x = false.
Proof.
  induction l as [|x l IH]; cbn.
  - split; [intros _ y Hy; by apply elem_of_nil in Hy | done].
  - destruct (p x) eqn:Hpx.
    + split; [done|]. intros Hall. specialize (Hall x (list_elem_of_here _ _)). congruence.
    + destruct (findIndex p l) as [i|] eqn:Hfi; cbn.
      * split; [done|]. intros Hall.
        assert (Some i = None) as Habs; [|done].
        apply IH. intros y Hy. apply Hall. by apply list_elem_of_further.
      * split; [|done]. intros _ y Hy.
        apply elem_of_cons in Hy as [->|Hy]; [done|]. by apply IH.
Qed.

Lemma findIndex_Some {A : Type} (p : A → bool) (l : list A) (i : nat) :
  findIndex p l = Some i →
  ∃ x, l !! i = Some x ∧ p x = true ∧
       ∀ j y, (j < i)%nat → l !! j = Some y → p y = false.
Proof.
  revert i. induction l as [|x l IH]; intros i; cbn; [done|].
  destruct (p x) eqn:Hpx.
  - intros [= <-]. exists x. repeat split; [done|]. intros j y Hj. lia.
  - destruct (findIndex p l) as [k|] eqn:Hfi; cbn; [|done].
    intros [= <-]. destruct (IH k eq_refl) as (y & Hy & Hpy & Hbefore).
    exists y. repeat split; [done..|].
    intros [|j] z Hj Hz; cbn in Hz; [congruence|].
    apply (Hbefore j); [lia | done].
Qed.

(** [cart.find] returns the entry at the position [findIndex] gives. *)
Lemma find_findIndex {A : Type} (p : A → bool) (l : list A) :
  find p l = findIndex p l ≫= (l !!.).
Proof.
  induction l as [|x l IH]; cbn; [done|].
  destruct (p x); [done|]. rewrite IH. by destruct (findIndex p l).
Qed.

Lemma findIndex_present {A : Type} (p : A → bool) (l : list A) :
  (∃ x, x ∈ l ∧ p x = true) → ∃ i, findIndex p l = Some i.
Proof.
  intros (x & Hx & Hpx). destruct (findIndex p l) as [i|] eqn:Hfi; [eauto|].
  rewrite findIndex_None in Hfi. specialize (Hfi x Hx). congruence.
Qed.

Lemma alter_add_qty_ids (cart : list CartItem) (i : nat) :
  item_id <$> alter add_qty i cart = item_id <$> cart.
Proof.
  revert i. induction cart as [|a cart IH]; intros [|i]; cbn; try done.
  by rewrite IH.
Qed.

Lemma product_ids_strict (x y : float) :
  x ∈ product_id <$> products → y ∈ product_id <$> products →
  (x =? y)%float = true → x = y.
Proof.
  intros Hx Hy. cbn in Hx, Hy.
  repeat (apply elem_of_cons in Hx as [->|Hx]);
    try (by apply elem_of_nil in Hx);
    repeat (apply elem_of_cons in Hy as [->|Hy]);
    try (by apply elem_of_nil in Hy);
    first [reflexivity | intros Hcmp; vm_compute in Hcmp; discriminate Hcmp].
Qed.

Lemma cart_ok_distinct (cart : list CartItem) : cart_ok cart → distinct_ids cart.
Proof.
  intros [Hnd Hids] i j a b Ha Hb Heq.
  assert (item_id a = item_id b) as Hleib.
  { apply product_ids_strict; [| |done]; apply Hids; by eapply list_elem_of_lookup_2. }
  apply (NoDup_lookup _ i j (item_id a) Hnd); rewrite list_lookup_fmap.
  - by rewrite Ha.
  - by rewrite Hb, Hleib.
Qed.

(** The [data-id] attribute is a string or missing, and converts. *)
Lemma Number_dataset (P : Platform) (t : ClickTarget) :
  ∃ id, Number P (dataset_value t) = Normal id.
Proof. unfold dataset_value. destruct (dataset_id t); cbn; eauto. Qed.

Lemma onProductGridClick_ok (P : Platform) (cart : list CartItem) (t : ClickTarget) :
  cart_ok cart → cart_ok (onProductGridClick P cart t).
Proof.
  intros [Hnd Hids]. unfold onProductGridClick.
  destruct (negb (isButton t)); [done|].
  destruct (Number_dataset P t) as [id ->].
  destruct (find _ products) as [product|] eqn:Hprod; [|done].
  apply find_some in Hprod as [Hin Hpid]. apply list_elem_of_In in Hin.
  destruct (findIndex _ cart) as [i|] eqn:Hfi.
  - split; [by rewrite alter_add_qty_ids|].
    intros a Ha. apply list_elem_of_lookup in Ha as [j Hj].
    destruct (decide (i = j)) as [<-|Hne].
    + rewrite list_lookup_alter_eq in Hj.
      destruct (cart !! i) as [b|] eqn:Hb; [|done]. injection Hj as <-.
      apply (Hids b). by eapply list_elem_of_lookup_2.
    + rewrite list_lookup_alter_ne in Hj by done.
      apply Hids. by eapply list_elem_of_lookup_2.
  - rewrite findIndex_None in Hfi. split.
    + rewrite fmap_app. cbn. apply NoDup_app. split; [done|]. split.
      * intros x Hx Hx'. apply list_elem_of_singleton in Hx' as ->.
        apply list_elem_of_fmap in Hx as (it & Hit & Hitin).
        specialize (Hfi it Hitin). cbn in Hfi. rewrite <- Hit in Hfi. congruence.
      * apply NoDup_singleton.
    + intros a Ha. apply elem_of_app in Ha as [Ha|Ha]; [by apply Hids|].
      apply list_elem_of_singleton in Ha as ->.
      exact (list_elem_of_fmap_2 product_id products product Hin).
Qed.

Lemma clicks_ok (P : Platform) (targets : list ClickTarget) : cart_ok (clicks P targets).
Proof.
  unfold clicks.
  assert (Hgen : ∀ cart, cart_ok cart → cart_ok (foldl (onProductGridClick P) cart targets)).
  { induction targets as [|t targets IH]; intros cart Hok; [done|].
    cbn. apply IH. by apply onProductGridClick_ok. }
  apply Hgen. split; [constructor|]. intros a Ha. by apply elem_of_nil in Ha.
Qed.

(** C10. Along every sequence of clicks from the empty cart no two
    entries share an id. The id of a click converts to a number. A click
    on a button whose id is a product's adds 1 to the [qty] of the first
    entry with that id when there is one, and leaves the other entries and
    the length of the cart as they are; otherwise it appends one entry,
    the copy of the product with [qty] 1. A click whose id is no
    product's, or that is not on a button, leaves the cart as is. *)
Theorem cart_ids_unique (P : Platform) (cart : list CartItem) (target : ClickTarget) :
  ∃ id, Number P (dataset_value target) = Normal id ∧
  (∀ targets, distinct_ids (clicks P targets) ∧
              NoDup (item_id <$> clicks P targets)) ∧
  (∀ product, isButton target = true →
     find (fun p => (product_id p =? id)%float) products = Some product →
     (∃ it, it ∈ cart ∧ (item_id it =? id)%float = true) →
     ∃ i it, cart !! i = Some it ∧ (item_id it =? id)%float = true ∧
       (∀ j it', (j < i)%nat → cart !! j = Some it' →
          (item_id it' =? id)%float = false) ∧
       onProductGridClick P cart target = alter add_qty i cart ∧
       onProductGridClick P cart target !! i
         = Some {| item_id := item_id it; item_name := item_name it;
                   item_price := item_price it; item_image := item_image it;
                   qty := (qty it + 1)%float |} ∧
       (∀ j, j ≠ i → onProductGridClick P cart target !! j = cart !! j) ∧
       length (onProductGridClick P cart target) = length cart) ∧
  (∀ product, isButton target = true →
     find (fun p => (product_id p =? id)%float) products = Some product →
     (∀ it, it ∈ cart → (item_id it =? id)%float = false) →
     onProductGridClick P cart target
       = (cart ++ [ {| item_id := product_id product;
                       item_name := product_name product;
                       item_price := product_price product;
                       item_image := product_image product;
                       qty := 1 |} ])%list ∧
     (∃ it, last (onProductGridClick P cart target) = Some it ∧ qty it = 1%float ∧
            (item_id it =? id)%float = true) ∧
     length (onProductGridClick P cart target) = S (length cart)) ∧
  (find (fun p => (product_id p =? id)%float) products = None →
     onProductGridClick P cart target = cart) ∧
  (isButton target = false → onProductGridClick P cart target = cart).
Proof.
  destruct (Number_dataset P target) as [id Hid]. exists id.
  split; [exact Hid|]. split.
  { intros targets. pose proof (clicks_ok P targets) as Hok.
    split; [by apply cart_ok_distinct | by destruct Hok]. }
  split.
  { intros product Hb Hprod Hpresent.
    destruct (findIndex_present _ cart Hpresent) as [i Hfi].
    destruct (findIndex_Some _ cart i Hfi) as (it & Hit & Hidit & Hbefore).
    exists i, it. unfold onProductGridClick. rewrite Hb, Hid, Hprod, Hfi. cbn [negb].
    split; [done|]. split; [done|]. split; [exact Hbefore|]. split; [done|].
    split; [by rewrite list_lookup_alter_eq, Hit|].
    split; [|by rewrite length_alter].
    intros j Hj. by rewrite list_lookup_alter_ne. }
  split.
  { intros product Hb Hprod Habsent.
    assert (Hpush : onProductGridClick P cart target
                    = (cart ++ [item_of product 1])%list).
    { unfold onProductGridClick. rewrite Hb, Hid, Hprod. cbn [negb].
      by rewrite (proj2 (findIndex_None _ cart) Habsent). }
    rewrite Hpush. split; [reflexivity|]. split.
    - eexists. split; [apply last_snoc|]. split; [reflexivity|]. cbn [item_id item_of].
      by apply find_some in Hprod as [_ ?].
    - rewrite length_app. cbn. lia. }
  split.
  { intros Hprod. unfold onProductGridClick. rewrite Hid, Hprod. by destruct (negb _). }
  intros Hb. unfold onProductGridClick. by rewrite Hb.
Qed.

Lemma cart_ids_unique_witness :
  let apple := {| isButton := true; dataset_id := Some "1" |} in
  let mango := {| isButton := true; dataset_id := Some "2" |} in
  let cart := clicks Demo.platform [apple; mango] in
  NoDup (item_id <$> cart) ∧
  onProductGridClick Demo.platform [] apple
    = [ {| item_id := 1; item_name := "Honeycrisp Apples"; item_price := 4.99;
           item_image := "https://images.unsplash.com/photo-1567306226416-28f0efdc88ce?auto=format&fit=crop&w=900&q=80";
           qty := 1 |} ] ∧
  (∃ it, onProductGridClick Demo.platform cart apple !! 0%nat = Some it ∧
         item_id it = 1%float ∧ qty it = 2%float) ∧
  length (onProductGridClick Demo.platform cart apple) = 2%nat ∧
  onProductGridClick Demo.platform cart {| isButton := true; dataset_id := Some "9" |}
    = cart.
Proof.
  cbv zeta.
  set (apple := {| isButton := true; dataset_id := Some "1" |}).
  set (mango := {| isButton := true; dataset_id := Some "2" |}).
  destruct (cart_ids_unique Demo.platform (clicks Demo.platform [apple; mango])
              {| isButton := true; dataset_id := Some "9" |})
    as (id9 & Hid9 & Hinv & _ & _ & Hnone & _).
  destruct (cart_ids_unique Demo.platform [] apple)
    as (id1 & Hid1 & _ & _ & Hpush & _).
  destruct (cart_ids_unique Demo.platform (clicks Demo.platform [apple; mango]) apple)
    as (id1' & Hid1' & _ & Hincr & _).
  injection Hid9 as <-. injection Hid1 as <-. injection Hid1' as <-.
  split; [exact (proj2 (Hinv [apple; mango]))|].
  split.
  { refine (proj1 (Hpush _ eq_refl eq_refl _)).
    intros it Hit. by apply elem_of_nil in Hit. }
  split.
  { destruct (Hincr _ eq_refl eq_refl) as (i & it & Hit & Hidit & Hfirst & _ & Hnew & _).
    { eexists. split; [apply list_elem_of_here | reflexivity]. }
    destruct i as [|i].
    - injection Hit as <-. eexists. split; [exact Hnew|]. split; reflexivity.
    - exfalso. specialize (Hfirst 0%nat _ (Nat.lt_0_succ i) eq_refl).
      vm_compute in Hfirst. discriminate Hfirst. }
  split.
  { destruct (Hincr _ eq_refl eq_refl) as (i & it & _ & _ & _ & _ & _ & _ & Hlen).
    { eexists. split; [apply list_elem_of_here | reflexivity]. }
    exact Hlen. }
  apply Hnone. reflexivity.
Defined.

(** *** HTML escaping *)

Lemma string_app_assoc (x y z : string) : (x +:+ y) +:+ z = x +:+ (y +:+ z).
Proof.
  induction x as [|a x IH]; [reflexivity|].
  change ((String a x +:+ y) +:+ z) with (String a ((x +:+ y) +:+ z)).
  by rewrite IH.
Qed.

Lemma replaceAll_app (c : ascii) (r x y : string) :
  Html.replaceAll c r (x +:+ y) = Html.replaceAll c r x +:+ Html.replaceAll c r y.
Proof.
  induction x as [|a x IH]; [reflexivity|].
  change (String a x +:+ y) with (String a (x +:+ y)).
  cbn [Html.replaceAll]. rewrite IH.
  destruct (Ascii.eqb a c); [|reflexivity].
  by rewrite string_app_assoc.
Qed.

Lemma escape_app (x y : string) :
  Html.escape (x +:+ y) = Html.escape x +:+ Html.escape y.
Proof. unfold Html.escape. by rewrite !replaceAll_app. Qed.

Lemma escape_single (a : ascii) :
  Html.escape (String a EmptyString) = Html.entity a.
Proof.
  unfold Html.escape, Html.entity.
  cbn [Html.replaceAll].
  destruct (Ascii.eqb a "&") eqn:E1; [reflexivity|]. cbn [Html.replaceAll]. 
  destruct (Ascii.eqb a "<") eqn:E2; [reflexivity|]. cbn [Html.replaceAll].
  destruct (Ascii.eqb a ">") eqn:E3; [reflexivity|]. cbn [Html.replaceAll].
  destruct (Ascii.eqb a "034") eqn:E4; [reflexivity|]. cbn [Html.replaceAll].
  destruct (Ascii.eqb a "'") eqn:E5; reflexivity.
Qed.

Lemma occurs_app (c : ascii) (x y : string) :
  Html.occurs c (x +:+ y) = Html.occurs c x || Html.occurs c y.
Proof.
  induction x as [|a x IH]; [reflexivity|].
  change (String a x +:+ y) with (String a (x +:+ y)).
  cbn [Html.occurs]. rewrite IH. by rewrite orb_assoc.
Qed.

Lemma entity_no_markup (a c : ascii) :
  c ∈ Html.markup_chars → Html.occurs c (Html.entity a) = false.
Proof.
  intros Hc. unfold Html.entity.
  destruct (Ascii.eqb a "&") eqn:E1;
    [|destruct (Ascii.eqb a "<") eqn:E2;
      [|destruct (Ascii.eqb a ">") eqn:E3;
        [|destruct (Ascii.eqb a "034") eqn:E4;
          [|destruct (Ascii.eqb a "'") eqn:E5]]]];
    unfold Html.markup_chars in Hc;
    repeat (apply elem_of_cons in Hc as [->|Hc]);
    try (by apply elem_of_nil in Hc); cbn [Html.occurs];
    rewrite ?E2, ?E3, ?E4, ?E5; reflexivity.
Qed.

(** X1. The five chained replacements act as one pass that turns each
    of the five characters into its entity and keeps every other
    character: an ampersand written by a later replacement is never
    escaped again. *)
Theorem escapeHtml_one_pass (ToString : value → string) (v : value) :
  Html.escapeHtml ToString v = Html.one_pass (Html.coerce ToString v).
Proof.
  unfold Html.escapeHtml. generalize (Html.coerce ToString v). intros s.
  induction s as [|a s IH]; [reflexivity|].
  change (String a s) with (String a EmptyString +:+ s).
  rewrite escape_app, escape_single, IH. reflexivity.
Qed.

(** X2. Whatever the input, the escaped text holds no [<], [>], double
    quote or single quote. *)
Theorem escapeHtml_no_markup (ToString : value → string) (v : value) (c : ascii)
    (Hc : c ∈ Html.markup_chars) :
  Html.occurs c (Html.escapeHtml ToString v) = false.
Proof.
  unfold Html.escapeHtml. generalize (Html.coerce ToString v). intros s.
  induction s as [|a s IH]; [reflexivity|].
  change (String a s) with (String a EmptyString +:+ s).
  rewrite escape_app, escape_single, occurs_app, IH, (entity_no_markup a c Hc).
  reflexivity.
Qed.

Lemma escapeHtml_no_markup_witness :
  Html.occurs "<" (Html.escapeHtml (fun _ => "") (VStr "<img src=x onerror='go()'>"))
    = false.
Proof.
  apply (escapeHtml_no_markup (fun _ => "") (VStr "<img src=x onerror='go()'>") "<").
  unfold Html.markup_chars. apply list_elem_of_here.
Defined.

Import Props.

(** *** The current-conditions card *)

Lemma cell_Normal (P : Platform) (x : option float) (suffix : string) :
  WeatherCard.cell P x suffix
    = Normal match x with
             | Some n =>
                 (if negb (isFinite n) then "—" else toLocaleString P n 0) +:+ suffix
             | None => "—"
             end.
Proof. destruct x as [n|]; [|done]. unfold WeatherCard.cell. by rewrite formatNumber_VNum. Qed.

Lemma codeToIcon_code_value (P : Platform) (x : option float) :
  ∃ il, codeToIcon P (WeatherCard.code_value x) = Normal il ∧
        (x = None → il = {| icon := "ri-sun-line"; label := "Clear sky" |}).
Proof.
  destruct x as [n|]; cbn [WeatherCard.code_value].
  - destruct (codeToIcon_converts P (VNum n) eq_refl) as [il Hil]. by exists il.
  - eexists. split; [reflexivity | done].
Qed.

(** The card itself never throws: it converts numbers and [null] only. *)
Lemma renderNow_Normal (P : Platform) (F : WeatherCard.Formats)
    (st : WeatherState) (d : value) (source : string) :
  ∃ card, WeatherCard.renderNow P F st d source = Normal card.
Proof.
  unfold WeatherCard.renderNow.
  destruct (getCity_in_registry (cityId st)) as (c & -> & _). cbv zeta.
  destruct (codeToIcon_code_value P
              (WeatherCard.number_field (WeatherCard.current_of d) "weather_code"))
    as (il & -> & _).
  cbn [mbind completion_bind]. rewrite !cell_Normal. cbn [mbind completion_bind].
  rewrite !formatNumber_VNum. cbn [mbind completion_bind]. by eexists.
Qed.

(** X3. The card is drawn for every payload and selection. A payload
    without a numeric [current.weather_code] is shown as "Clear sky" with
    the sun icon, and a payload without a [current] record shows a dash in
    every value cell and in the time label. *)
Theorem renderNow_missing_data (P : Platform) (F : WeatherCard.Formats)
    (st : WeatherState) (d : value) (source : string) :
  ∃ card, WeatherCard.renderNow P F st d source = Normal card ∧
    (WeatherCard.number_field (WeatherCard.current_of d) "weather_code" = None →
       WeatherCard.now_icon card = "ri-sun-line" ∧
       WeatherCard.now_desc card = "Clear sky") ∧
    (WeatherCard.current_of d = VNull →
       WeatherCard.now_temp card = "—" ∧ WeatherCard.now_feels card = "—" ∧
       WeatherCard.now_humidity card = "—" ∧ WeatherCard.now_wind card = "—" ∧
       WeatherCard.time_label card = "—").
Proof.
  unfold WeatherCard.renderNow.
  destruct (getCity_in_registry (cityId st)) as (c & -> & _). cbv zeta.
  destruct (codeToIcon_code_value P
              (WeatherCard.number_field (WeatherCard.current_of d) "weather_code"))
    as (il & -> & Hil).
  cbn [mbind completion_bind]. rewrite !cell_Normal. cbn [mbind completion_bind].
  rewrite !formatNumber_VNum. cbn [mbind completion_bind].
  eexists. split; [reflexivity|]. split.
  - intros Hnone. rewrite (Hil Hnone).
    cbn [WeatherCard.now_icon WeatherCard.now_desc icon label]. split; reflexivity.
  - intros ->. cbn. by destruct (units st).
Qed.

Lemma renderNow_missing_data_witness :
  ∃ card, WeatherCard.renderNow Demo.platform Samples.formats Demo.state0
            (VObj [("error", VBool true)]) "live" = Normal card ∧
    WeatherCard.now_desc card = "Clear sky" ∧ WeatherCard.now_temp card = "—".
Proof.
  destruct (renderNow_missing_data Demo.platform Samples.formats Demo.state0
              (VObj [("error", VBool true)]) "live") as (card & Hc & Hcode & Hcur).
  exists card. split; [exact Hc|]. split.
  - apply Hcode. reflexivity.
  - apply Hcur. reflexivity.
Defined.

(** *** [renderWeather] as a whole *)

Lemma forecast_body_Throw (P : Platform) (u : Units) (d : value) (msg : string) :
  forecast_body P u d = Throw msg ↔ forecast_rows P u d = Throw msg.
Proof.
  unfold forecast_body. destruct (forecast_rows P u d); cbn; split; intros Heq;
    first [discriminate Heq | by injection Heq as ->].
Qed.

Lemma forecast_body_Normal (P : Platform) (u : Units) (d : value) :
  (∃ b, forecast_body P u d = Normal b) ↔ ∃ rows, forecast_rows P u d = Normal rows.
Proof.
  unfold forecast_body. destruct (forecast_rows P u d) as [rows|msg]; cbn.
  - split; eauto.
  - split; by intros [? ?].
Qed.

(** [renderWeather] fails exactly when the page has the forecast card
    and the forecast rows throw; the error is the one of the rows. *)
Lemma renderWeather_cases (P : Platform) (F : WeatherCard.Formats) (fcParts : bool)
    (st : WeatherState) (d : value) (source : string) :
  ((fcParts = false ∨ ∃ rows, forecast_rows P (units st) d = Normal rows) ∧
   ∃ out, WeatherCard.renderWeather P F fcParts st d source = Normal out) ∨
  (∃ msg, fcParts = true ∧ forecast_rows P (units st) d = Throw msg ∧
          WeatherCard.renderWeather P F fcParts st d source = Throw msg).
Proof.
  unfold WeatherCard.renderWeather.
  destruct (renderNow_Normal P F st d source) as [card ->]. cbn [mbind completion_bind].
  destruct fcParts.
  - unfold forecast_body. destruct (forecast_rows P (units st) d) as [rows|msg]; cbn.
    + left. split; [right|]; by eexists.
    + right. by exists msg.
  - left. split; [by left | by eexists].
Qed.

Lemma renderWeather_Normal_indep (P : Platform) (F : WeatherCard.Formats)
    (fcParts : bool) (st st' : WeatherState) (d : value) (s s' : string) :
  units st = units st' →
  (∃ out, WeatherCard.renderWeather P F fcParts st d s = Normal out) →
  ∃ out, WeatherCard.renderWeather P F fcParts st' d s' = Normal out.
Proof.
  intros Hu [out Hout].
  destruct (renderWeather_cases P F fcParts st' d s')
    as [[_ Hn] | (msg & Hfc & Hrows & _)]; [done|].
  destruct (renderWeather_cases P F fcParts st d s)
    as [[[Hfc' | [rows Hr]] _] | (msg' & _ & _ & Hthrow)]; congruence.
Qed.

Lemma renderWeather_Throw_indep (P : Platform) (F : WeatherCard.Formats)
    (fcParts : bool) (st st' : WeatherState) (d : value) (s s' : string) (msg : string) :
  units st = units st' →
  WeatherCard.renderWeather P F fcParts st d s = Throw msg →
  WeatherCard.renderWeather P F fcParts st' d s' = Throw msg.
Proof.
  intros Hu Hthrow.
  destruct (renderWeather_cases P F fcParts st d s)
    as [[_ [out Hn]] | (msg' & Hfc & Hrows & Hthrow')]; [congruence|].
  destruct (renderWeather_cases P F fcParts st' d s')
    as [[[Hfc' | [rows Hr]] _] | (msg'' & _ & Hrows'' & Hthrow'')]; congruence.
Qed.

Lemma finish_drawn (P : Platform) (F : WeatherCard.Formats) (fcParts : bool)
    (st : WeatherState) (ls : gmap string string) (rest : list Pending)
    (reqs : list Request) (d : value) (s : string) :
  (∃ out, WeatherCard.renderWeather P F fcParts st d s = Normal out) →
  finish P F fcParts st ls rest reqs (Returned d s)
    = {| m_state := set_isLoading false st; m_storage := ls;
         m_view := ViewWeather d s; m_pending := rest; m_requests := reqs |}.
Proof. intros [out Hout]. unfold finish. by rewrite Hout. Qed.

Lemma finish_thrown (P : Platform) (F : WeatherCard.Formats) (fcParts : bool)
    (st : WeatherState) (ls : gmap string string) (rest : list Pending)
    (reqs : list Request) (d : value) (s : string) (msg : string) :
  WeatherCard.renderWeather P F fcParts st d s = Throw msg →
  finish P F fcParts st ls rest reqs (Returned d s)
    = {| m_state := set_isLoading false (set_lastError (Some msg) st);
         m_storage := ls; m_view := ViewError msg; m_pending := rest;
         m_requests := reqs |}.
Proof. intros Hout. unfold finish. by rewrite Hout. Qed.

(** *** More on the fetch flow *)

Lemma fetchWeather_resume_cache (H : Host) (st : WeatherState)
    (ls : gmap string string) (now : Z) (net : NetOutcome) :
  let r := fetchWeather_resume H st ls now net in
  (cache r.2.1 = cache st ∨
   ∃ d, cache r.2.1 = <[buildKey st := {| ts := now; data := d |}]> (cache st)) ∧
  units r.2.1 = units st ∧ cityId r.2.1 = cityId st ∧
  isLoading r.2.1 = isLoading st ∧ lastError r.2.1 = lastError st.
Proof.
  cbv zeta. destruct net as [msg|status [msg|json]]; cbn;
    try destruct (negb (res_ok status)); cbn; eauto 10.
Qed.

(** X4. A call of [fetchWeather] leaves the selection and the flags as
    it last found them (at the call when it returns without the network,
    at the answer otherwise), never touches the entry of another key and
    never removes a key from the mapping. *)
Theorem fetchWeather_frame (H : Host) (st : WeatherState) (ls : gmap string string)
    (now now' : Z) (force : bool) (resumed : WeatherState * gmap string string)
    (net : NetOutcome) :
  let r := fetchWeather H st ls now force resumed net now' in
  let found := match run_network_calls r with O => st | _ => resumed.1 end in
  units (run_state r) = units found ∧ cityId (run_state r) = cityId found ∧
  isLoading (run_state r) = isLoading found ∧
  lastError (run_state r) = lastError found ∧
  (∀ k, k ≠ buildKey found → cache (run_state r) !! k = cache found !! k) ∧
  dom (cache found) ⊆ dom (cache (run_state r)) ∧
  (run_network_calls r = 0 → run_state r = st ∧ run_storage r = ls).
Proof.
  cbv zeta. unfold fetchWeather.
  destruct (fetchWeather_begin st now force);
    cbn [run_state run_storage run_network_calls]; try done.
  destruct (fetchWeather_resume_cache H resumed.1 resumed.2 now' net)
    as ([Hc | [d Hc]] & ? & ? & ? & ?);
    repeat split; try done; rewrite Hc; try done.
  - intros k Hk. by rewrite lookup_insert_ne.
  - rewrite dom_insert_L. set_solver.
Qed.

Lemma renderWeatherFromCacheOrFetch_cache (m : Machine) (now : Z) (force : bool) :
  cache (m_state (renderWeatherFromCacheOrFetch m now force)) = cache (m_state m).
Proof.
  unfold renderWeatherFromCacheOrFetch.
  destruct (isLoading (m_state m)); [done|].
  by destruct (fetchWeather_begin _ now force).
Qed.

Lemma finish_cache (P : Platform) (F : WeatherCard.Formats) (fcParts : bool)
    (st : WeatherState) (ls : gmap string string)
    (rest : list Pending) (reqs : list Request) (r : FetchResult) :
  cache (m_state (finish P F fcParts st ls rest reqs r)) = cache st.
Proof.
  unfold finish.
  destruct r as [d s|msg]; [destruct (WeatherCard.renderWeather _ _ _ _ _ _)|]; done.
Qed.

Lemma finish_requests (P : Platform) (F : WeatherCard.Formats) (fcParts : bool)
    (st : WeatherState) (ls : gmap string string)
    (rest : list Pending) (reqs : list Request) (r : FetchResult) :
  m_requests (finish P F fcParts st ls rest reqs r) = reqs ∧
  m_pending (finish P F fcParts st ls rest reqs r) = rest ∧
  m_storage (finish P F fcParts st ls rest reqs r) = ls ∧
  isLoading (m_state (finish P F fcParts st ls rest reqs r)) = false ∧
  units (m_state (finish P F fcParts st ls rest reqs r)) = units st ∧
  cityId (m_state (finish P F fcParts st ls rest reqs r)) = cityId st.
Proof.
  unfold finish.
  destruct r as [d s|msg]; [destruct (WeatherCard.renderWeather _ _ _ _ _ _)|]; done.
Qed.

Lemma step_dom (H : Host) (P : Platform) (F : WeatherCard.Formats)
    (fcParts : bool) (m : Machine) (now : Z) (ev : Event) :
  dom (cache (m_state m)) ⊆ dom (cache (m_state (step H P F fcParts m now ev))).
Proof.
  destruct ev as [v|id| | |i net]; cbn [step].
  - unfold select. destruct (persistWeatherSettings _ _ _).2; [|done].
    by rewrite renderWeatherFromCacheOrFetch_cache.
  - unfold select. destruct (persistWeatherSettings _ _ _).2; [|done].
    by rewrite renderWeatherFromCacheOrFetch_cache.
  - by rewrite renderWeatherFromCacheOrFetch_cache.
  - by rewrite renderWeatherFromCacheOrFetch_cache.
  - unfold settle. destruct (m_pending m !! i) as [[req|r]|]; [| |done].
    + rewrite finish_cache.
      destruct (fetchWeather_resume_cache H (m_state m) (m_storage m) now net)
        as ([Hc | [d Hc]] & _); rewrite Hc; [done|].
      rewrite dom_insert_L. set_solver.
    + by rewrite finish_cache.
Qed.

(** X5. Along every run of the event loop the mapping keeps all its
    keys: an entry may be overwritten, but none is ever deleted, stale or
    not. *)
Theorem cache_keys_never_removed (H : Host) (P : Platform) (F : WeatherCard.Formats)
    (fcParts : bool) (m : Machine) (evs : list (Z * Event)) :
  dom (cache (m_state m)) ⊆ dom (cache (m_state (run H P F fcParts m evs))).
Proof.
  revert m. induction evs as [|[now ev] evs IH]; intros m; [done|].
  cbn [run]. etrans; [apply (step_dom H P F fcParts m now ev) | apply IH].
Qed.

Lemma fetchWeather_begin_request (st : WeatherState) (now : Z) (force : bool)
    (req : Request) :
  fetchWeather_begin st now force = BeginFetch req → registered_request req.
Proof.
  unfold fetchWeather_begin.
  destruct (getCity_in_registry (cityId st)) as (c & -> & Hc).
  destruct (negb force); [destruct (truthy _)|]; intros [= <-]; by exists c.
Qed.

Lemma renderWeatherFromCacheOrFetch_requests (m : Machine) (now : Z) (force : bool) :
  Forall registered_request (m_requests m) →
  Forall registered_request (m_requests (renderWeatherFromCacheOrFetch m now force)).
Proof.
  intros Hall. unfold renderWeatherFromCacheOrFetch.
  destruct (isLoading (m_state m)); [done|].
  destruct (fetchWeather_begin _ now force) eqn:Hb; cbn; try done.
  apply Forall_app. split; [done|]. constructor; [|done].
  by eapply fetchWeather_begin_request.
Qed.

Lemma step_requests (H : Host) (P : Platform) (F : WeatherCard.Formats)
    (fcParts : bool) (m : Machine) (now : Z) (ev : Event) :
  Forall registered_request (m_requests m) →
  Forall registered_request (m_requests (step H P F fcParts m now ev)).
Proof.
  intros Hall. destruct ev as [v|id| | |i net]; cbn [step].
  - unfold select. destruct (persistWeatherSettings _ _ _).2; [|done].
    by apply renderWeatherFromCacheOrFetch_requests.
  - unfold select. destruct (persistWeatherSettings _ _ _).2; [|done].
    by apply renderWeatherFromCacheOrFetch_requests.
  - by apply renderWeatherFromCacheOrFetch_requests.
  - by apply renderWeatherFromCacheOrFetch_requests.
  - unfold settle. destruct (m_pending m !! i) as [[req|r]|]; [| |done].
    + by rewrite (proj1 (finish_requests _ _ _ _ _ _ _ _)).
    + by rewrite (proj1 (finish_requests _ _ _ _ _ _ _ _)).
Qed.

(** X6. Every request the flow sends, on any run from the initial
    state, is the fixed request for the coordinates of a registered city:
    the same endpoint, field lists, time zone and horizon, whatever the
    units and the selected id. *)
Theorem requests_are_registered (H : Host) (P : Platform) (F : WeatherCard.Formats)
    (fcParts : bool) (u : Units) (c : string)
    (m0 : gmap string CacheEntry) (ls : gmap string string) (evs : list (Z * Event)) :
  ∀ req, req ∈ m_requests (run H P F fcParts (initial_machine u c m0 ls) evs) →
    (∃ city, city ∈ APP_cities ∧ req = request_for city) ∧
    req_base req = APP_weather_base ∧
    req_current req = APP_weather_params_current ∧
    req_hourly req = APP_weather_params_hourly ∧
    req_timezone req = "auto" ∧ req_forecast_hours req = "24".
Proof.
  assert (Hgen : ∀ m, Forall registered_request (m_requests m) →
                      Forall registered_request (m_requests (run H P F fcParts m evs))).
  { induction evs as [|[now ev] evs IH]; intros m Hm; [done|].
    cbn [run]. apply IH. by apply step_requests. }
  intros req Hreq.
  specialize (Hgen (initial_machine u c m0 ls) (Forall_nil_2 _)).
  rewrite Forall_forall in Hgen. destruct (Hgen req Hreq) as (city & Hcity & ->).
  split; [by exists city|]. repeat split; reflexivity.
Qed.

Lemma requests_are_registered_witness :
  let m := run (Demo.host 64) Demo.platform Samples.formats true
             (initial_machine UnitsF "nowhere" ∅ ∅) [(1000%Z, EvOverlayOpen)] in
  ∃ req, m_requests m = [req] ∧ req_base req = APP_weather_base ∧
         req_forecast_hours req = "24".
Proof.
  cbv zeta. eexists. split; [reflexivity|].
  destruct (requests_are_registered (Demo.host 64) Demo.platform Samples.formats true
              UnitsF "nowhere" ∅ ∅ [(1000%Z, EvOverlayOpen)]
              (request_for {| city_id := "erbil"; city_name := "Erbil (Hewlêr)";
                              city_country := "Iraq"; city_lat := 36.1911;
                              city_lon := 44.0092 |}))
    as (_ & Hbase & _ & _ & _ & Hhours).
  - apply list_elem_of_here.
  - split; [exact Hbase | exact Hhours].
Defined.

Lemma open_idle_miss (m : Machine) (now : Z) (force : bool) :
  isLoading (m_state m) = false →
  force = true ∨ ¬ has_usable_entry (m_state m) now →
  ∃ city, getCity (cityId (m_state m)) = Some city ∧
    renderWeatherFromCacheOrFetch m now force
      = {| m_state := set_lastError None (set_isLoading true (m_state m));
           m_storage := m_storage m; m_view := ViewSkeleton;
           m_pending := m_pending m ++ [AwaitNetwork (request_for city)];
           m_requests := m_requests m ++ [request_for city] |}.
Proof.
  intros Hl Hmiss.
  destruct (getCity_in_registry (cityId (m_state m))) as (city & Hcity & _).
  exists city. split; [done|].
  unfold renderWeatherFromCacheOrFetch. rewrite Hl.
  assert (Hb : fetchWeather_begin (set_lastError None (set_isLoading true (m_state m)))
                 now force = BeginFetch (request_for city)).
  { destruct (proj2 (fetchWeather_begin_fetch_iff
                       (set_lastError None (set_isLoading true (m_state m))) now force))
      as [req Hreq].
    - destruct Hmiss as [?|Hno]; [by left|right].
      intros (e & He & Hu). apply Hno. by exists e.
    - rewrite Hreq. f_equal. unfold fetchWeather_begin in Hreq.
      cbn [cityId set_lastError set_isLoading] in Hreq. rewrite Hcity in Hreq.
      destruct (negb force); [destruct (truthy _)|]; congruence. }
  by rewrite Hb.
Qed.

Lemma open_idle_hit (m : Machine) (now : Z) (e : CacheEntry) :
  isLoading (m_state m) = false →
  cache (m_state m) !! buildKey (m_state m) = Some e → usable now e →
  renderWeatherFromCacheOrFetch m now false
    = {| m_state := set_lastError None (set_isLoading true (m_state m));
         m_storage := m_storage m; m_view := ViewSkeleton;
         m_pending := m_pending m ++ [AwaitSettled (Returned (data e) "cache")];
         m_requests := m_requests m |}.
Proof.
  intros Hl Hk Hu. unfold renderWeatherFromCacheOrFetch. rewrite Hl.
  by rewrite (fetchWeather_begin_hit
                (set_lastError None (set_isLoading true (m_state m))) now e Hk Hu).
Qed.

Lemma settle_network_success (H : Host) (P : Platform) (F : WeatherCard.Formats)
    (fcParts : bool) (m : Machine) (now : Z) (req : Request)
    (status : N) (json : value) :
  m_pending m = [AwaitNetwork req] → res_ok status = true →
  settle H P F fcParts m now 0 (NetResponse status (inr json))
    = finish P F fcParts (cacheSet H (m_state m) (m_storage m) now json).1
        (cacheSet H (m_state m) (m_storage m) now json).2 [] (m_requests m)
        (Returned json "live").
Proof.
  intros Hp Hok. unfold settle. rewrite Hp. cbn [lookup list_lookup].
  by rewrite fetchWeather_resume_success.
Qed.

Lemma settle_network_failure (H : Host) (P : Platform) (F : WeatherCard.Formats)
    (fcParts : bool) (m : Machine) (now : Z) (req : Request)
    (net : NetOutcome) :
  m_pending m = [AwaitNetwork req] → net_failed net = true →
  settle H P F fcParts m now 0 net
    = {| m_state := set_isLoading false
                      (set_lastError (Some (failure_message net)) (m_state m));
         m_storage := m_storage m;
         m_view := ViewError (failure_message net); m_pending := [];
         m_requests := m_requests m |}.
Proof.
  intros Hp Hf. unfold settle. rewrite Hp. cbn [lookup list_lookup].
  by rewrite fetchWeather_resume_failure.
Qed.

Lemma settle_settled (H : Host) (P : Platform) (F : WeatherCard.Formats)
    (fcParts : bool) (m : Machine) (now : Z) (r : FetchResult)
    (net : NetOutcome) :
  m_pending m = [AwaitSettled r] →
  settle H P F fcParts m now 0 net
    = finish P F fcParts (m_state m) (m_storage m) [] (m_requests m) r.
Proof. intros Hp. unfold settle. by rewrite Hp. Qed.

(** Opening an idle overlay without a usable entry and receiving a
    successful answer: the machine after the two events. *)
Lemma open_then_answer (H : Host) (P : Platform) (F : WeatherCard.Formats)
    (fcParts : bool) (m : Machine) (t0 t1 : Z) (status : N) (json : value) :
  isLoading (m_state m) = false → m_pending m = [] →
  ¬ has_usable_entry (m_state m) t0 → res_ok status = true →
  ∃ city, getCity (cityId (m_state m)) = Some city ∧
    run H P F fcParts m [(t0, EvOverlayOpen);
                         (t1, EvSettle 0 (NetResponse status (inr json)))]
      = finish P F fcParts
          (cacheSet H (set_lastError None (set_isLoading true (m_state m)))
             (m_storage m) t1 json).1
          (cacheSet H (set_lastError None (set_isLoading true (m_state m)))
             (m_storage m) t1 json).2
          [] (m_requests m ++ [request_for city]) (Returned json "live").
Proof.
  intros Hidle Hnone Hmiss Hok.
  destruct (open_idle_miss m t0 false Hidle (or_intror Hmiss)) as (city & Hcity & Hopen).
  exists city. split; [done|]. cbn [run step]. rewrite Hopen.
  rewrite (settle_network_success H P F fcParts _ t1 (request_for city)); [done| |done].
  cbn [m_pending]. by rewrite Hnone.
Qed.

(** X7. From an idle overlay without a usable entry, opening it sends
    one request; when the answer arrives the payload is cached, and it is
    shown as live when [renderWeather] draws it. Opening the overlay again
    within the time-to-live then sends nothing and shows the same payload
    as cached. When [renderWeather] throws on the payload, both times the
    overlay shows the error card and records the message, although the
    payload is in the cache. *)
Theorem flow_live_then_cached (H : Host) (P : Platform) (F : WeatherCard.Formats)
    (fcParts : bool) (m : Machine) (t0 t1 t2 : Z) (status : N)
    (json : value) (net2 : NetOutcome)
    (Hidle : isLoading (m_state m) = false) (Hnone : m_pending m = [])
    (Hmiss : ¬ has_usable_entry (m_state m) t0)
    (Hok : res_ok status = true) (Htruthy : truthy json = true)
    (Hnz : t1 ≠ 0%Z) (Httl : (t2 - t1 <= 600000)%Z) :
  let m1 := run H P F fcParts m [(t0, EvOverlayOpen);
                     (t1, EvSettle 0 (NetResponse status (inr json)))] in
  let m2 := run H P F fcParts m1 [(t2, EvOverlayOpen); (t2, EvSettle 0 net2)] in
  isLoading (m_state m1) = false ∧ m_pending m1 = [] ∧
  length (m_requests m1) = S (length (m_requests m)) ∧
  cache (m_state m1) !! buildKey (m_state m) = Some {| ts := t1; data := json |} ∧
  m_requests m2 = m_requests m1 ∧ m_state m2 = m_state m1 ∧ m_pending m2 = [] ∧
  ((∃ out, WeatherCard.renderWeather P F fcParts (m_state m) json "live" = Normal out) →
     m_view m1 = ViewWeather json "live" ∧ lastError (m_state m1) = None ∧
     m_view m2 = ViewWeather json "cache") ∧
  (∀ msg, WeatherCard.renderWeather P F fcParts (m_state m) json "live" = Throw msg →
     m_view m1 = ViewError msg ∧ lastError (m_state m1) = Some msg ∧
     m_view m2 = ViewError msg).
Proof.
  cbv zeta.
  destruct (open_then_answer H P F fcParts m t0 t1 status json Hidle Hnone Hmiss Hok)
    as (city & _ & ->).
  set (st1 := (cacheSet H (set_lastError None (set_isLoading true (m_state m)))
                 (m_storage m) t1 json).1).
  set (ls1 := (cacheSet H (set_lastError None (set_isLoading true (m_state m)))
                 (m_storage m) t1 json).2).
  assert (Hk : cache st1 !! buildKey st1 = Some {| ts := t1; data := json |}).
  { exact (cacheSet_lookup H _ (m_storage m) t1 json). }
  assert (Hu : usable t2 {| ts := t1; data := json |}) by done.
  assert (Hsecond : ∀ m1, m_pending m1 = [] → isLoading (m_state m1) = false →
            cache (m_state m1) = cache st1 → buildKey (m_state m1) = buildKey st1 →
            run H P F fcParts m1 [(t2, EvOverlayOpen); (t2, EvSettle 0 net2)]
            = finish P F fcParts (set_lastError None (set_isLoading true (m_state m1)))
                (m_storage m1) [] (m_requests m1) (Returned json "cache")).
  { intros m1 Hp1 Hl1 Hc1 Hk1. cbn [run step].
    rewrite (open_idle_hit m1 t2 {| ts := t1; data := json |}); [|done| |done].
    - rewrite (settle_settled H P F fcParts _ t2 (Returned json "cache")); [done|].
      cbn [m_pending]. by rewrite Hp1.
    - by rewrite Hc1, Hk1. }
  destruct (renderWeather_cases P F fcParts (m_state m) json "live")
    as [[_ Hdrawn] | (msg & _ & _ & Hthrown)].
  - rewrite (finish_drawn P F fcParts st1 ls1 [] _ json "live")
      by (by apply (renderWeather_Normal_indep P F fcParts (m_state m) st1 json "live")).
    rewrite Hsecond by done. cbn [m_state m_pending m_requests m_view].
    rewrite (finish_drawn P F fcParts _ ls1 [] _ json "cache")
      by (by apply (renderWeather_Normal_indep P F fcParts (m_state m) _ json "live")).
    cbn [m_state m_pending m_requests m_view].
    destruct Hdrawn as [out Hout].
    repeat split; try done;
      first [by rewrite length_app, Nat.add_comm | congruence | (cbn; congruence)].
  - rewrite (finish_thrown P F fcParts st1 ls1 [] _ json "live" msg)
      by (by apply (renderWeather_Throw_indep P F fcParts (m_state m) st1 json "live")).
    rewrite Hsecond by done. cbn [m_state m_pending m_requests m_view m_storage].
    rewrite (finish_thrown P F fcParts _ ls1 [] _ json "cache" msg)
      by (by apply (renderWeather_Throw_indep P F fcParts (m_state m) _ json "live")).
    cbn [m_state m_pending m_requests m_view].
    repeat split; try done;
      repeat match goal with Hex : ∃ _, _ |- _ => destruct Hex end;
      first [by rewrite length_app, Nat.add_comm | congruence | (cbn; congruence)].
Qed.

Lemma flow_live_then_cached_witness :
  let payload := VObj [("current", VObj [("temperature_2m", VNum 21)])] in
  let m1 := run (Demo.host 64) Demo.platform Samples.formats true
              (initial_machine UnitsC "erbil" ∅ ∅)
              [(1000%Z, EvOverlayOpen);
               (1200%Z, EvSettle 0 (NetResponse 200 (inr payload)))] in
  let m2 := run (Demo.host 64) Demo.platform Samples.formats true m1
              [(5000%Z, EvOverlayOpen); (5000%Z, EvSettle 0 (NetTransportError "offline"))] in
  let n1 := run (Demo.host 64) Demo.platform Samples.formats true
              (initial_machine UnitsC "erbil" ∅ ∅)
              [(1000%Z, EvOverlayOpen);
               (1200%Z, EvSettle 0 (NetResponse 200 (inr Demo.hourly_unconvertible)))] in
  m_view m1 = ViewWeather payload "live" ∧ m_view m2 = ViewWeather payload "cache" ∧
  m_requests m2 = m_requests m1 ∧
  m_view n1 = ViewError "Cannot convert object to primitive value" ∧
  cache (m_state n1) !! "erbil_c"
    = Some {| ts := 1200; data := Demo.hourly_unconvertible |}.
Proof.
  cbv zeta.
  assert (Hmiss : ¬ has_usable_entry (m_state (initial_machine UnitsC "erbil" ∅ ∅)) 1000).
  { intros (e & He & _). vm_compute in He. discriminate He. }
  destruct (flow_live_then_cached (Demo.host 64) Demo.platform Samples.formats true
              (initial_machine UnitsC "erbil" ∅ ∅) 1000 1200 5000 200
              (VObj [("current", VObj [("temperature_2m", VNum 21)])])
              (NetTransportError "offline") eq_refl eq_refl Hmiss eq_refl eq_refl)
    as (_ & _ & _ & _ & Hreq & _ & _ & Hdrawn & _); [lia | lia |].
  destruct (flow_live_then_cached (Demo.host 64) Demo.platform Samples.formats true
              (initial_machine UnitsC "erbil" ∅ ∅) 1000 1200 5000 200
              Demo.hourly_unconvertible
              (NetTransportError "offline") eq_refl eq_refl Hmiss eq_refl eq_refl)
    as (_ & _ & _ & Hcached & _ & _ & _ & _ & Hthrown); [lia | lia |].
  destruct Hdrawn as (Hv1 & _ & Hv2); [eexists; by vm_compute|].
  destruct (Hthrown "Cannot convert object to primitive value") as (Hn1 & _);
    [by vm_compute|].
  split; [exact Hv1|]. split; [exact Hv2|]. split; [exact Hreq|].
  split; [exact Hn1 | exact Hcached].
Defined.

(** X8. A failed fetch does not block the overlay: the error is
    recorded and shown, the loading flag is down again and the mapping is
    as before, and the next refresh clears the error and sends a new
    request. *)
Theorem flow_retry_after_failure (H : Host) (P : Platform) (F : WeatherCard.Formats)
    (fcParts : bool) (m : Machine) (t0 t1 t2 : Z)
    (net : NetOutcome)
    (Hidle : isLoading (m_state m) = false) (Hnone : m_pending m = [])
    (Hfail : net_failed net = true) :
  let m1 := run H P F fcParts m [(t0, EvRefreshClick); (t1, EvSettle 0 net)] in
  let m2 := step H P F fcParts m1 t2 EvRefreshClick in
  m_view m1 = ViewError (failure_message net) ∧
  lastError (m_state m1) = Some (failure_message net) ∧
  isLoading (m_state m1) = false ∧ m_pending m1 = [] ∧
  cache (m_state m1) = cache (m_state m) ∧ m_storage m1 = m_storage m ∧
  lastError (m_state m2) = None ∧ isLoading (m_state m2) = true ∧
  m_view m2 = ViewSkeleton ∧
  length (m_requests m2) = (length (m_requests m) + 2)%nat.
Proof.
  cbv zeta.
  destruct (open_idle_miss m t0 true Hidle (or_introl eq_refl)) as (city & _ & Hopen).
  assert (Hm1 : run H P F fcParts m [(t0, EvRefreshClick); (t1, EvSettle 0 net)]
                = {| m_state := set_isLoading false
                       (set_lastError (Some (failure_message net))
                          (set_lastError None (set_isLoading true (m_state m))));
                     m_storage := m_storage m;
                     m_view := ViewError (failure_message net); m_pending := [];
                     m_requests := m_requests m ++ [request_for city] |}).
  { cbn [run step]. rewrite Hopen.
    rewrite (settle_network_failure H P F fcParts _ t1 (request_for city)); [done| |done].
    cbn [m_pending]. by rewrite Hnone. }
  rewrite Hm1. clear Hm1 Hopen.
  set (m1 := {| m_state := _; m_storage := _; m_view := ViewError _;
                m_pending := []; m_requests := _ |}).
  destruct (open_idle_miss m1 t2 true eq_refl (or_introl eq_refl)) as (city' & _ & Hopen').
  cbn [step]. rewrite Hopen'. subst m1.
  cbn [m_view m_state m_requests m_pending m_storage lastError isLoading cache
       set_isLoading set_lastError].
  repeat split; try done.
  rewrite !length_app. cbn. lia.
Qed.

Lemma flow_retry_after_failure_witness :
  let m1 := run (Demo.host 64) Demo.platform Samples.formats true
              (initial_machine UnitsC "erbil" ∅ ∅)
              [(1000%Z, EvRefreshClick);
               (1200%Z, EvSettle 0 (NetResponse 500 (inr VNull)))] in
  lastError (m_state m1) = Some "Weather request failed (500)" ∧
  isLoading (m_state (step (Demo.host 64) Demo.platform Samples.formats true
                        m1 2000 EvRefreshClick)) = true.
Proof.
  cbv zeta.
  destruct (flow_retry_after_failure (Demo.host 64) Demo.platform Samples.formats true
              (initial_machine UnitsC "erbil" ∅ ∅)
              1000 1200 2000 (NetResponse 500 (inr VNull)))
    as (_ & Herr & _ & _ & _ & _ & _ & Hload & _).
  - reflexivity.
  - reflexivity.
  - reflexivity.
  - split; [exact Herr | exact Hload].
Defined.

Lemma select_while_loading (H : Host) (m : Machine) (now : Z) (st : WeatherState) :
  isLoading st = true →
  select H m now st
    = {| m_state := st; m_storage := (persistWeatherSettings H st (m_storage m)).1;
         m_view := m_view m; m_pending := m_pending m; m_requests := m_requests m |}.
Proof.
  intros Hl. unfold select.
  destruct (persistWeatherSettings H st (m_storage m)).2; [|done].
  by apply renderWeatherFromCacheOrFetch_loading.
Qed.

(** X9. When the city is changed while a request is out, no request is
    sent for the new city; the answer to the old request is then stored
    under the key of the new city, and it is shown as live when
    [renderWeather] draws it (the error card is shown when it throws). *)
Theorem city_change_in_flight (H : Host) (P : Platform) (F : WeatherCard.Formats)
    (fcParts : bool) (m : Machine) (t0 t1 t2 : Z) (id' : string)
    (status : N) (json : value)
    (Hidle : isLoading (m_state m) = false) (Hnone : m_pending m = [])
    (Hmiss : ¬ has_usable_entry (m_state m) t0)
    (Hok : res_ok status = true) :
  let m3 := run H P F fcParts m [(t0, EvOverlayOpen); (t1, EvCityChange id');
                     (t2, EvSettle 0 (NetResponse status (inr json)))] in
  ∃ city, getCity (cityId (m_state m)) = Some city ∧
    m_requests m3 = (m_requests m ++ [request_for city])%list ∧
    cityId (m_state m3) = id' ∧
    isLoading (m_state m3) = false ∧ m_pending m3 = [] ∧
    cache (m_state m3)
      = <[id' +:+ "_" +:+ units_str (units (m_state m)) := {| ts := t2; data := json |}]>
          (cache (m_state m)) ∧
    ((∃ out, WeatherCard.renderWeather P F fcParts (m_state m) json "live" = Normal out) →
       m_view m3 = ViewWeather json "live" ∧ lastError (m_state m3) = None) ∧
    (∀ msg, WeatherCard.renderWeather P F fcParts (m_state m) json "live" = Throw msg →
       m_view m3 = ViewError msg ∧ lastError (m_state m3) = Some msg).
Proof.
  cbv zeta.
  destruct (open_idle_miss m t0 false Hidle (or_intror Hmiss)) as (city & Hcity & Hopen).
  exists city. split; [done|].
  cbn [run step]. rewrite Hopen.
  rewrite select_while_loading by done.
  rewrite (settle_network_success H P F fcParts _ t2 (request_for city)); [| |done].
  2: { cbn [m_pending]. by rewrite Hnone. }
  cbn [m_state m_storage m_requests].
  set (st3 := (cacheSet H _ _ t2 json).1). set (ls3 := (cacheSet H _ _ t2 json).2).
  assert (Hu : units (m_state m) = units st3) by done.
  destruct (renderWeather_cases P F fcParts (m_state m) json "live")
    as [[_ Hdrawn] | (msg & _ & _ & Hthrown)].
  - rewrite (finish_drawn P F fcParts st3 ls3 [] _ json "live")
      by (by apply (renderWeather_Normal_indep P F fcParts (m_state m) st3 json "live")).
    cbn [m_state m_pending m_requests m_view].
    destruct Hdrawn as [out Hout].
    repeat split; try done; first [congruence | (cbn; congruence)].
  - rewrite (finish_thrown P F fcParts st3 ls3 [] _ json "live" msg)
      by (by apply (renderWeather_Throw_indep P F fcParts (m_state m) st3 json "live")).
    cbn [m_state m_pending m_requests m_view].
    repeat split; try done;
      repeat match goal with Hex : ∃ _, _ |- _ => destruct Hex end;
      first [congruence | (cbn; congruence)].
Qed.

Lemma city_change_in_flight_witness :
  let m3 := run (Demo.host 64) Demo.platform Samples.formats true
              (initial_machine UnitsC "erbil" ∅ ∅)
              [(1000%Z, EvOverlayOpen); (1100%Z, EvCityChange "duhok");
               (1200%Z, EvSettle 0 (NetResponse 200 (inr (VObj []))))] in
  length (m_requests m3) = 1%nat ∧
  cache (m_state m3) = {[ "duhok_c" := {| ts := 1200; data := VObj [] |} ]} ∧
  m_view m3 = ViewWeather (VObj []) "live".
Proof.
  cbv zeta.
  destruct (city_change_in_flight (Demo.host 64) Demo.platform Samples.formats true
              (initial_machine UnitsC "erbil" ∅ ∅)
              1000 1100 1200 "duhok" 200 (VObj []))
    as (city & _ & Hreq & _ & _ & _ & Hcache & Hdrawn & _).
  - reflexivity.
  - reflexivity.
  - intros (e & He & _). vm_compute in He. discriminate He.
  - reflexivity.
  - split; [by rewrite Hreq|]. split; [exact Hcache|].
    refine (proj1 (Hdrawn _)). eexists. by vm_compute.
Defined.

(** X10. When the storage refuses a write of the settings, the
    handler of a selection change stops there: the new selection is in
    the state, but no fetch starts and the overlay keeps what it showed. *)
Theorem selection_change_storage_refused (H : Host) (P : Platform) (F : WeatherCard.Formats)
    (fcParts : bool) (m : Machine) (now : Z)
    (id : string)
    (Hrefused : (persistWeatherSettings H (set_cityId id (m_state m))
                   (m_storage m)).2 = false) :
  let m' := step H P F fcParts m now (EvCityChange id) in
  cityId (m_state m') = id ∧
  isLoading (m_state m') = isLoading (m_state m) ∧
  m_pending m' = m_pending m ∧ m_requests m' = m_requests m ∧
  m_view m' = m_view m ∧
  cache (m_state m') = cache (m_state m) ∧
  (quota_allows H (m_storage m) APP_storageKeys_weatherUnits
     (units_str (units (m_state m))) = false → m_storage m' = m_storage m).
Proof.
  cbv zeta. cbn [step]. unfold select. rewrite Hrefused.
  cbn [m_state m_pending m_requests m_view m_storage].
  repeat split; try done.
  intros Hq. unfold persistWeatherSettings, localStorage_setItem.
  cbn [units set_cityId]. by rewrite Hq.
Qed.

Lemma selection_change_storage_refused_witness :
  let m := initial_machine UnitsC "erbil" ∅ ∅ in
  let m' := step (Demo.host 0) Demo.platform Samples.formats true m 1000 (EvCityChange "zakho") in
  cityId (m_state m') = "zakho" ∧ m_requests m' = [].
Proof.
  cbv zeta.
  destruct (selection_change_storage_refused (Demo.host 0) Demo.platform
              Samples.formats true (initial_machine UnitsC "erbil" ∅ ∅) 1000 "zakho")
    as (Hid & _ & _ & Hreq & _).
  - reflexivity.
  - split; [exact Hid | exact Hreq].
Defined.

(** X11. The selection survives a reload: after [persistWeatherSettings]
    ran to its end on a state with a city, loading the storage gives back
    the same units and city, hence the same cache key. *)
Theorem selection_round_trip (H : Host) (st : WeatherState)
    (ls ls' : gmap string string) (m : gmap string CacheEntry)
    (Hsaved : persistWeatherSettings H st ls = (ls', true))
    (Hcity : cityId st ≠ "") :
  Boot.load_units ls' = units st ∧
  Boot.boot_cityId ls' = cityId st ∧
  buildKey (Boot.boot_state ls' m) = buildKey st.
Proof.
  unfold persistWeatherSettings, localStorage_setItem in Hsaved.
  destruct (quota_allows H ls _ _); [|done].
  destruct (String.eqb_spec (cityId st) "") as [|_]; [done|].
  destruct (quota_allows H _ _ (cityId st)); [|done].
  injection Hsaved as <-.
  assert (Hu : Boot.load_units
                 (<[APP_storageKeys_lastCity := cityId st]>
                    (<[APP_storageKeys_weatherUnits := units_str (units st)]> ls))
               = units st).
  { unfold Boot.load_units. rewrite lookup_insert_ne by done.
    rewrite lookup_insert_eq. by destruct (units st). }
  assert (Hc : Boot.boot_cityId
                 (<[APP_storageKeys_lastCity := cityId st]>
                    (<[APP_storageKeys_weatherUnits := units_str (units st)]> ls))
               = cityId st).
  { unfold Boot.boot_cityId, Boot.load_cityId. rewrite lookup_insert_eq.
    by destruct (String.eqb_spec (cityId st) ""). }
  split; [done|]. split; [done|].
  unfold buildKey, Boot.boot_state. cbn [cityId units initial_state].
  by rewrite Hu, Hc.
Qed.

Lemma selection_round_trip_witness :
  let st := initial_state UnitsF "halabja" ∅ in
  Boot.load_units (persistWeatherSettings (Demo.host 64) st ∅).1 = UnitsF ∧
  Boot.boot_cityId (persistWeatherSettings (Demo.host 64) st ∅).1 = "halabja".
Proof.
  cbv zeta.
  destruct (selection_round_trip (Demo.host 64) (initial_state UnitsF "halabja" ∅) ∅
              (persistWeatherSettings (Demo.host 64)
                 (initial_state UnitsF "halabja" ∅) ∅).1 ∅)
    as (Hu & Hc & _).
  - reflexivity.
  - discriminate.
  - split; [exact Hu | exact Hc].
Defined.

(** *** News pagination *)

Lemma totalPages_of_bounds (n : nat) :
  (1 <= News.totalPages_of n)%Z ∧
  (6 * (News.totalPages_of n - 1) <= Z.of_nat n)%Z ∧
  (Z.of_nat n <= 6 * News.totalPages_of n)%Z ∧
  ((0 < n)%nat → (6 * (News.totalPages_of n - 1) < Z.of_nat n)%Z).
Proof.
  unfold News.totalPages_of, News.APP_news_perPage.
  change (6 - 1)%Z with 5%Z.
  pose proof (Z.div_mod (Z.of_nat n + 5) 6 ltac:(lia)) as Hdm.
  pose proof (Z.mod_pos_bound (Z.of_nat n + 5) 6 ltac:(lia)) as Hmod.
  repeat split; try lia.
Qed.

Lemma clamp_bounds (n lo hi : Z) :
  (lo <= hi)%Z → (lo <= News.clamp n lo hi <= hi)%Z.
Proof. unfold News.clamp. lia. Qed.

Lemma clamp_id (n lo hi : Z) :
  (lo <= n <= hi)%Z → News.clamp n lo hi = n.
Proof. unfold News.clamp. lia. Qed.

Lemma apply_page (H : Host) (S : News.StringOps) (st : News.NewsState)
    (ls : gmap string string) :
  (News.apply H S st ls).1.1
    = News.set_page
        (News.clamp (News.news_page st) 1
           (Z.min (News.totalPages_of (length (News.filtered S st))) News.APP_news_maxPage))
        st.
Proof. unfold News.apply. by destruct (localStorage_setItem H ls _ _). Qed.

Lemma apply_page_range (H : Host) (S : News.StringOps) (st : News.NewsState)
    (ls : gmap string string) :
  (1 <= News.news_page (News.apply H S st ls).1.1 <= 4)%Z ∧
  (News.news_page (News.apply H S st ls).1.1
     <= News.totalPages_of (length (News.filtered S st)))%Z.
Proof.
  rewrite apply_page.
  pose proof (totalPages_of_bounds (length (News.filtered S st))) as (Htp & _).
  pose proof (clamp_bounds (News.news_page st) 1
                (Z.min (News.totalPages_of (length (News.filtered S st)))
                   News.APP_news_maxPage)) as Hc.
  unfold News.APP_news_maxPage in *. cbn [News.news_page News.set_page]. lia.
Qed.

(** X12. After [apply] the page lies between 1 and 4 and does not
    exceed the number of pages of the filtered list, whatever page number
    came in and whether or not the storage took the write; filter, query
    and items are as before, and applying again changes nothing more. *)
Theorem news_page_clamped (H : Host) (S : News.StringOps) (st : News.NewsState)
    (ls ls2 : gmap string string) :
  let st' := (News.apply H S st ls).1.1 in
  (1 <= News.news_page st' <= 4)%Z ∧
  (News.news_page st' <= News.totalPages_of (length (News.filtered S st)))%Z ∧
  News.news_filter st' = News.news_filter st ∧
  News.news_query st' = News.news_query st ∧
  News.news_items st' = News.news_items st ∧
  (News.apply H S st' ls2).1.1 = st'.
Proof.
  cbv zeta. destruct (apply_page_range H S st ls) as [Hrange Htp].
  split; [done|]. split; [done|]. rewrite !apply_page in *.
  cbn [News.news_page News.set_page News.news_filter News.news_query News.news_items]
    in *.
  repeat split.
  change (News.filtered S (News.set_page ?p st)) with (News.filtered S st).
  unfold News.APP_news_maxPage in *.
  rewrite clamp_id by lia. reflexivity.
Qed.

Lemma page_slice_take24 (fl : list News.NewsItem) (k : nat) :
  (k < 4)%nat →
  News.page_slice fl (Z.of_nat k * News.APP_news_perPage)
    = take 6 (drop (6 * k) (take 24 fl)).
Proof.
  intros Hk. unfold News.page_slice, News.APP_news_perPage.
  replace (Z.to_nat (Z.of_nat k * 6)) with (6 * k)%nat by lia.
  change (Z.to_nat 6) with 6%nat.
  rewrite (take_drop_commute (take 24 fl)), take_take.
  replace (Nat.min (6 * k + 6) 24) with (6 * k + 6)%nat by lia.
  by rewrite <- take_drop_commute.
Qed.

Lemma apply_drawn (H : Host) (S : News.StringOps) (st st' : News.NewsState)
    (ls ls' : gmap string string) (v : News.NewsView) :
  News.apply H S st ls = (st', ls', Some v) →
  News.shown v
    = take 6 (drop (6 * Z.to_nat (News.news_page st' - 1)) (News.filtered S st)) ∧
  ls' !! News.APP_storageKeys_newsPage = Some (pretty (News.news_page st')).
Proof.
  intros Hdrawn. unfold News.apply in Hdrawn.
  destruct (localStorage_setItem H ls _ _) as [ls1|] eqn:Hset; [|done].
  injection Hdrawn as <- <- <-.
  cbn [News.shown News.news_page News.set_page]. split.
  - unfold News.page_slice, News.APP_news_perPage. f_equal. f_equal. lia.
  - unfold localStorage_setItem in Hset.
    destruct (quota_allows H ls _ _); [|done]. injection Hset as <-.
    apply lookup_insert_eq.
Qed.

(** X13. When [apply] draws the page, it shows the slice of at most
    six consecutive matches that starts at [6 * (page - 1)]; every shown
    item is an item that passes the filter, and the page is empty only
    when nothing matches. *)
Theorem news_page_shown (H : Host) (S : News.StringOps) (st st' : News.NewsState)
    (ls ls' : gmap string string) (v : News.NewsView)
    (Hdrawn : News.apply H S st ls = (st', ls', Some v)) :
  News.shown v
    = take 6 (drop (6 * Z.to_nat (News.news_page st' - 1)) (News.filtered S st)) ∧
  (length (News.shown v) ≤ 6)%nat ∧
  (∀ it, it ∈ News.shown v →
     it ∈ News.news_items st ∧
     News.matches S (News.news_filter st)
       (News.toLowerCase S (News.trim S (News.news_query st))) it = true) ∧
  (News.shown v = [] ↔ News.filtered S st = []) ∧
  ls' !! News.APP_storageKeys_newsPage = Some (pretty (News.news_page st')).
Proof.
  pose proof (apply_page_range H S st ls) as (Hrange & Htp).
  rewrite Hdrawn in Hrange, Htp. cbn [fst] in Hrange, Htp.
  destruct (apply_drawn H S st st' ls ls' v Hdrawn) as (Hslice & Hstored).
  set (p := News.news_page st') in *.
  set (fl := News.filtered S st) in *.
  rewrite Hslice. split; [done|]. split.
  { rewrite length_take. lia. }
  split.
  { intros it Hit.
    assert (it ∈ fl) as Hfl.
    { apply (subseteq_drop (6 * Z.to_nat (p - 1)) fl).
      by apply (subseteq_take 6 (drop (6 * Z.to_nat (p - 1)) fl)). }
    unfold fl, News.filtered in Hfl. apply list_elem_of_filter in Hfl as [Hm Hin].
    done. }
  split; [|done]. split.
  - intros Hnil. destruct fl as [|x fl'] eqn:Hfl; [done|]. exfalso.
    pose proof (totalPages_of_bounds (length (x :: fl'))) as (_ & _ & _ & Hlt).
    specialize (Hlt ltac:(cbn; lia)).
    apply (f_equal length) in Hnil. rewrite length_take, length_drop in Hnil.
    cbn [length] in *. lia.
  - intros ->. by rewrite drop_nil.
Qed.

Lemma news_page_shown_witness :
  ∃ v, (News.apply (Demo.host 64) Samples.string_ops
          (News.set_page 3 Samples.news0) ∅).2 = Some v ∧
       length (News.shown v) = 6%nat ∧
       News.page_text v = "Page 3 / 5".
Proof.
  destruct (News.apply (Demo.host 64) Samples.string_ops
              (News.set_page 3 Samples.news0) ∅) as [[st' ls'] [v|]] eqn:Happly;
    [|vm_compute in Happly; discriminate Happly].
  exists v. split; [reflexivity|].
  destruct (news_page_shown (Demo.host 64) Samples.string_ops _ _ _ _ _ Happly)
    as (Hshown & _).
  vm_compute in Happly. injection Happly as <- <- <-.
  split; [by rewrite Hshown | reflexivity].
Defined.

(** X14. Only the first 24 matches can ever be on a page: a drawn page
    is one of the four slices of six that make up the first 24 matches,
    and these four slices together are exactly those 24. A match beyond
    the 24th is shown by no page number. *)
Theorem news_first_24_only (H : Host) (S : News.StringOps) (st st' : News.NewsState)
    (ls ls' : gmap string string) (v : News.NewsView)
    (Hdrawn : News.apply H S st ls = (st', ls', Some v)) :
  (∃ k, (k < 4)%nat ∧ News.news_page st' = (Z.of_nat k + 1)%Z ∧
        News.shown v = take 6 (drop (6 * k) (take 24 (News.filtered S st)))) ∧
  (News.page_items S st 1 ++ News.page_items S st 2 ++
     News.page_items S st 3 ++ News.page_items S st 4)%list
    = take 24 (News.filtered S st) ∧
  (length (News.shown v) ≤ length (take 24 (News.filtered S st)))%nat.
Proof.
  pose proof (apply_page_range H S st ls) as (Hrange & _).
  rewrite Hdrawn in Hrange. cbn [fst] in Hrange.
  destruct (apply_drawn H S st st' ls ls' v Hdrawn) as (Hshown & _).
  assert (Hk : ∃ k, (k < 4)%nat ∧ News.news_page st' = (Z.of_nat k + 1)%Z).
  { exists (Z.to_nat (News.news_page st' - 1)). lia. }
  destruct Hk as (k & Hk & Hp).
  assert (Hs : News.shown v = take 6 (drop (6 * k) (take 24 (News.filtered S st)))).
  { rewrite Hshown, Hp. replace (Z.to_nat (Z.of_nat k + 1 - 1)) with k by lia.
    rewrite (take_drop_commute (take 24 _)), take_take.
    replace (Nat.min (6 * k + 6) 24) with (6 * k + 6)%nat by lia.
    by rewrite <- take_drop_commute. }
  split; [by exists k|]. split.
  - unfold News.page_items, News.page_slice, News.APP_news_perPage.
    change (Z.to_nat ((1 - 1) * 6)) with 0%nat.
    change (Z.to_nat ((2 - 1) * 6)) with 6%nat.
    change (Z.to_nat ((3 - 1) * 6)) with 12%nat.
    change (Z.to_nat ((4 - 1) * 6)) with 18%nat.
    change (Z.to_nat 6) with 6%nat.
    generalize (News.filtered S st). intros fl. rewrite drop_0.
    change 24%nat with (6 + (6 + (6 + 6)))%nat.
    rewrite <- (take_take_drop fl 6). f_equal.
    rewrite <- (take_take_drop (drop 6 fl) 6), drop_drop. f_equal.
    rewrite <- (take_take_drop (drop (6 + 6) fl) 6), drop_drop. reflexivity.
  - rewrite Hs, length_take, length_drop. lia.
Qed.

Lemma news_first_24_only_witness :
  ∃ v, (News.onNextClick (Demo.host 64) Samples.string_ops
          (News.set_page 9 Samples.news0) ∅).2 = Some v ∧
       News.page_text v = "Page 4 / 5" ∧
       (length (News.shown v) ≤ 24)%nat.
Proof.
  destruct (News.onNextClick (Demo.host 64) Samples.string_ops
              (News.set_page 9 Samples.news0) ∅) as [[st' ls'] [v|]] eqn:Happly;
    [|vm_compute in Happly; discriminate Happly].
  exists v. split; [reflexivity|].
  destruct (news_first_24_only (Demo.host 64) Samples.string_ops _ _ _ _ _ Happly)
    as (_ & _ & Hlen).
  split.
  - vm_compute in Happly. injection Happly as <- <- <-. reflexivity.
  - etrans; [exact Hlen|]. rewrite length_take. lia.
Defined.

(** X15. With more than 24 matches, on page 4 the Next button is drawn
    enabled, and a click on it draws page 4 again: the page number and
    the items stay the same. *)
Theorem news_next_at_cap (H : Host) (S : News.StringOps) (st : News.NewsState)
    (ls : gmap string string)
    (Hpage : News.news_page st = 4%Z)
    (Hmany : (24 < length (News.filtered S st))%nat) :
  News.news_page (News.onNextClick H S st ls).1.1 = 4%Z ∧
  (∀ v, (News.apply H S st ls).2 = Some v → News.next_disabled v = false) ∧
  (∀ v, (News.onNextClick H S st ls).2 = Some v →
     News.next_disabled v = false ∧ News.shown v = News.page_items S st 4).
Proof.
  pose proof (totalPages_of_bounds (length (News.filtered S st))) as (_ & _ & Hup & _).
  assert (Htp : (5 <= News.totalPages_of (length (News.filtered S st)))%Z) by lia.
  assert (Hnext : ∀ p, (4 <= p)%Z →
            News.clamp p 1 (Z.min (News.totalPages_of (length (News.filtered S st)))
                              News.APP_news_maxPage) = 4%Z).
  { intros p Hp. unfold News.clamp, News.APP_news_maxPage. lia. }
  split.
  { unfold News.onNextClick. rewrite apply_page.
    change (News.filtered S (News.set_page ?p st)) with (News.filtered S st).
    cbn [News.news_page News.set_page]. apply Hnext. lia. }
  split.
  { intros v. unfold News.apply. rewrite (Hnext (News.news_page st)) by lia.
    destruct (localStorage_setItem H ls _ _); [|done]. cbn. intros [= <-]. cbn. lia. }
  intros v. unfold News.onNextClick, News.apply.
  change (News.filtered S (News.set_page ?p st)) with (News.filtered S st).
  cbn [News.news_page News.set_page]. rewrite (Hnext (News.news_page st + 1)%Z) by lia.
  destruct (localStorage_setItem H ls _ _); [|done]. cbn. intros [= <-]. cbn.
  split; [lia | reflexivity].
Qed.

Lemma news_next_at_cap_witness :
  News.news_page (News.onNextClick (Demo.host 64) Samples.string_ops
                    (News.set_page 4 Samples.news0) ∅).1.1 = 4%Z.
Proof.
  apply (news_next_at_cap (Demo.host 64) Samples.string_ops
           (News.set_page 4 Samples.news0) ∅).
  - reflexivity.
  - vm_compute. lia.
Defined.

(** *** Gallery navigation *)

(** X16. In a gallery with items, [move] by one step keeps every
    index that is not negative inside [0 .. total - 1], wrapping at both
    ends; one step forward and one step back cancel each other. *)
Theorem gallery_move_in_range (g : Gallery.GalleryState) (dir : Z)
    (Hitems : (0 < Gallery.total g)%nat)
    (Hindex : (0 <= Gallery.currentIndex g)%Z)
    (Hdir : dir = 1%Z ∨ dir = (-1)%Z) :
  (0 <= Gallery.currentIndex (Gallery.move dir g) < Z.of_nat (Gallery.total g))%Z ∧
  Gallery.total (Gallery.move dir g) = Gallery.total g ∧
  ((Gallery.currentIndex g < Z.of_nat (Gallery.total g))%Z →
     Gallery.move (- dir) (Gallery.move dir g) = g ∧
     (dir = 1%Z → Gallery.currentIndex g = (Z.of_nat (Gallery.total g) - 1)%Z →
        Gallery.currentIndex (Gallery.move dir g) = 0%Z) ∧
     (dir = (-1)%Z → Gallery.currentIndex g = 0%Z →
        Gallery.currentIndex (Gallery.move dir g) = (Z.of_nat (Gallery.total g) - 1)%Z)).
Proof.
  destruct g as [n i]. cbn [Gallery.total Gallery.currentIndex] in *.
  unfold Gallery.move. cbn [Gallery.total Gallery.currentIndex].
  destruct n as [|n']; [lia|]. cbn [Gallery.total Gallery.currentIndex].
  set (t := Z.of_nat (S n')) in *. assert (Ht : (0 < t)%Z) by (unfold t; lia).
  assert (Hrem : ∀ x, (0 <= x)%Z → (0 <= Z.rem x t < t)%Z).
  { intros x Hx. rewrite Z.rem_mod_nonneg by lia. apply Z.mod_pos_bound. lia. }
  split; [apply Hrem; lia|]. split; [done|].
  intros Hlt.
  assert (Hstep : ∀ d, d = 1%Z ∨ d = (-1)%Z →
            Z.rem (i + d + t) t
              = if decide (i + d < 0)%Z then (i + d + t)%Z
                else if decide (t <= i + d)%Z then (i + d - t)%Z else (i + d)%Z).
  { intros d Hd. rewrite Z.rem_mod_nonneg by lia.
    repeat case_decide.
    - apply Z.mod_small. lia.
    - replace (i + d + t)%Z with (i + d - t + 2 * t)%Z by lia.
      rewrite Z_mod_plus_full. apply Z.mod_small. lia.
    - replace (i + d + t)%Z with (i + d + 1 * t)%Z by lia.
      rewrite Z_mod_plus_full. apply Z.mod_small. lia. }
  split.
  { f_equal. rewrite (Hstep dir Hdir).
    assert (Hback : ∀ j, (0 <= j < t)%Z → (j = i + dir + t ∨ j = i + dir - t ∨ j = i + dir)%Z →
              Z.rem (j + - dir + t) t = i).
    { intros j Hj Hcases. rewrite Z.rem_mod_nonneg by lia.
      destruct Hcases as [-> | [-> | ->]].
      - replace (i + dir + t + - dir + t)%Z with (i + 2 * t)%Z by lia.
        rewrite Z_mod_plus_full. apply Z.mod_small. lia.
      - replace (i + dir - t + - dir + t)%Z with i by lia. apply Z.mod_small. lia.
      - replace (i + dir + - dir + t)%Z with (i + 1 * t)%Z by lia.
        rewrite Z_mod_plus_full. apply Z.mod_small. lia. }
    repeat case_decide; apply Hback; lia. }
  split.
  - intros -> Hi. rewrite (Hstep 1%Z (or_introl eq_refl)). repeat case_decide; lia.
  - intros -> Hi. rewrite (Hstep (-1)%Z (or_intror eq_refl)). repeat case_decide; lia.
Qed.

Lemma gallery_move_in_range_witness :
  Gallery.currentIndex
    (Gallery.move 1 {| Gallery.total := 5; Gallery.currentIndex := 4 |}) = 0%Z.
Proof.
  destruct (gallery_move_in_range {| Gallery.total := 5; Gallery.currentIndex := 4 |} 1)
    as (_ & _ & Hin).
  - cbn. lia.
  - cbn. lia.
  - by left.
  - destruct Hin as (_ & Hwrap & _); [cbn; lia|]. apply Hwrap; reflexivity.
Defined.

(** *** More on the cart *)

Lemma onProductGridClick_copies (P : Platform) (cart : list CartItem) (t : ClickTarget) :
  Forall product_copy cart → Forall product_copy (onProductGridClick P cart t).
Proof.
  intros Hall. unfold onProductGridClick.
  destruct (negb (isButton t)); [done|].
  destruct (Number_dataset P t) as [id ->].
  destruct (find _ products) as [product|] eqn:Hprod; [|done].
  apply find_some in Hprod as [Hin _]. apply list_elem_of_In in Hin.
  destruct (findIndex _ cart) as [i|].
  - apply Forall_lookup. intros j it Hj.
    rewrite Forall_lookup in Hall.
    destruct (decide (i = j)) as [<-|Hne].
    + rewrite list_lookup_alter_eq in Hj.
      destruct (cart !! i) as [b|] eqn:Hb; [|done]. injection Hj as <-.
      destruct (Hall i b Hb) as (p & ? & ? & ? & ? & ?). by exists p.
    + rewrite list_lookup_alter_ne in Hj by done. by eapply Hall.
  - apply Forall_app. split; [done|]. constructor; [|done]. by exists product.
Qed.

Lemma onProductGridClick_length (P : Platform) (cart : list CartItem) (t : ClickTarget) :
  (length cart ≤ length (onProductGridClick P cart t) ≤ S (length cart))%nat.
Proof.
  unfold onProductGridClick.
  destruct (negb (isButton t)); [lia|].
  destruct (Number_dataset P t) as [id ->].
  destruct (find _ products); [|lia].
  destruct (findIndex _ cart).
  - rewrite length_alter. lia.
  - rewrite length_app. cbn. lia.
Qed.

(** X23. Whatever is clicked, the cart holds only copies of catalogue
    products (same id, name, price and image), never more than six
    entries, and a click never removes an entry. *)
Theorem cart_holds_products (P : Platform) (targets : list ClickTarget) (t : ClickTarget) :
  Forall product_copy (clicks P targets) ∧
  (length (clicks P targets) ≤ 6)%nat ∧
  (length (clicks P targets) ≤ length (clicks P (targets ++ [t])))%nat.
Proof.
  split; [|split].
  - unfold clicks.
    assert (Hgen : ∀ cart, Forall product_copy cart →
                     Forall product_copy (foldl (onProductGridClick P) cart targets)).
    { induction targets as [|x targets IH]; intros cart Hc; [done|].
      cbn. apply IH. by apply onProductGridClick_copies. }
    by apply Hgen.
  - destruct (clicks_ok P targets) as [Hnd Hids].
    rewrite <- (length_fmap item_id).
    change 6%nat with (length (product_id <$> products)).
    apply submseteq_length, NoDup_submseteq; [done|].
    intros x Hx. apply list_elem_of_fmap in Hx as (it & -> & Hit). by apply Hids.
  - unfold clicks. rewrite foldl_app. cbn. apply onProductGridClick_length.
Qed.

(** *** More on the gallery *)

Lemma news_clamp_range (n lo hi : Z) :
  (lo <= hi)%Z → (lo <= News.clamp n lo hi <= hi)%Z.
Proof. unfold News.clamp. lia. Qed.

Lemma gallery_move_keeps_range (dir : Z) (g : Gallery.GalleryState) :
  dir = 1%Z ∨ dir = (-1)%Z →
  (0 <= Gallery.currentIndex g < Z.of_nat (Gallery.total g))%Z →
  (0 <= Gallery.currentIndex (Gallery.move dir g)
     < Z.of_nat (Gallery.total (Gallery.move dir g)))%Z.
Proof.
  intros Hdir Hr. unfold Gallery.move.
  destruct (Gallery.total g) as [|n] eqn:Hn; [lia|].
  cbn [Gallery.total Gallery.currentIndex].
  rewrite Z.rem_mod_nonneg by lia. apply Z.mod_pos_bound. lia.
Qed.

(** X17. The modal opens only on a gallery with items, at the index
    clamped into [0 .. total - 1] whatever index is asked for; every
    arrow key pressed afterwards leaves the index in that range, so the
    position chip always reads between 1 and the number of items. *)
Theorem gallery_index_always_valid (g g' : Gallery.GalleryState) (index : Z)
    (keys : list Gallery.Key)
    (Hopen : Gallery.openGalleryModal index g = Some g') :
  let g'' := foldl (fun s k => Gallery.onKey k s) g' keys in
  (0 < Gallery.total g)%nat ∧
  Gallery.total g'' = Gallery.total g ∧
  (0 <= Gallery.currentIndex g'' < Z.of_nat (Gallery.total g))%Z ∧
  ((0 <= index < Z.of_nat (Gallery.total g))%Z → Gallery.currentIndex g' = index).
Proof.
  cbv zeta. unfold Gallery.openGalleryModal in Hopen.
  destruct (Gallery.total g) as [|n] eqn:Hn; [done|]. injection Hopen as <-.
  split; [lia|].
  assert (Hgen : ∀ s, Gallery.total s = S n →
            (0 <= Gallery.currentIndex s < Z.of_nat (S n))%Z →
            Gallery.total (foldl (fun s k => Gallery.onKey k s) s keys) = S n ∧
            (0 <= Gallery.currentIndex (foldl (fun s k => Gallery.onKey k s) s keys)
               < Z.of_nat (S n))%Z).
  { induction keys as [|k keys IH]; intros s Ht Hr; [done|].
    cbn [foldl]. apply IH.
    - destruct k; unfold Gallery.onKey, Gallery.move; by rewrite Ht.
    - assert (Hm : ∀ d, d = 1%Z ∨ d = (-1)%Z →
                (0 <= Gallery.currentIndex (Gallery.move d s) < Z.of_nat (S n))%Z).
      { intros d Hd. pose proof (gallery_move_keeps_range d s Hd) as Hk.
        rewrite Ht in Hk. specialize (Hk Hr).
        unfold Gallery.move in Hk |- *. rewrite Ht in Hk |- *.
        cbn [Gallery.total] in Hk. exact Hk. }
      destruct k; cbn [Gallery.onKey]; apply Hm; auto. }
  destruct (Hgen {| Gallery.total := S n;
                    Gallery.currentIndex := News.clamp index 0 (Z.of_nat (S n) - 1) |})
    as [Ht Hr].
  - done.
  - cbn [Gallery.currentIndex].
    pose proof (news_clamp_range index 0 (Z.of_nat (S n) - 1) ltac:(lia)). lia.
  - split; [done|]. split; [done|].
    intros Hi. cbn [Gallery.currentIndex]. unfold News.clamp. lia.
Qed.

Lemma gallery_index_always_valid_witness :
  let g := {| Gallery.total := 3; Gallery.currentIndex := 0 |} in
  let g' := {| Gallery.total := 3; Gallery.currentIndex := 2 |} in
  let g'' := foldl (fun s k => Gallery.onKey k s) g'
               [Gallery.ArrowRight; Gallery.ArrowRight] in
  Gallery.openGalleryModal 99 g = Some g' ∧
  (0 <= Gallery.currentIndex g'' < 3)%Z ∧
  Gallery.position_chip g'' = "2 / 3".
Proof.
  cbv zeta. split; [reflexivity|].
  destruct (gallery_index_always_valid
              {| Gallery.total := 3; Gallery.currentIndex := 0 |}
              {| Gallery.total := 3; Gallery.currentIndex := 2 |} 99
              [Gallery.ArrowRight; Gallery.ArrowRight] eq_refl) as (_ & _ & Hr & _).
  split; [exact Hr | reflexivity].
Defined.

(** *** The body scroll lock *)

Import Overlays.

Lemma lock_count (w : Z) (bs : BodyStyle * ScrollLock) :
  lockCount (lock w bs).2 = S (lockCount bs.2).
Proof. unfold lock. by destruct (negb _). Qed.

Lemma unlock_count (bs : BodyStyle * ScrollLock) :
  lockCount (unlock bs).2 = pred (lockCount bs.2).
Proof. unfold unlock. destruct (negb _); cbn; lia. Qed.

Lemma lock_keeps_inv (b0 : BodyStyle) (w : Z) (bs : BodyStyle * ScrollLock) :
  lock_inv b0 bs → lock_inv b0 (lock w bs).
Proof.
  intros [Hzero Hpos]. unfold lock.
  destruct (lockCount bs.2) as [|n] eqn:Hn; cbn [Nat.eqb negb].
  - specialize (Hzero eq_refl). subst b0. unfold lock_inv. cbn. split; [lia | done].
  - specialize (Hpos ltac:(lia)). unfold lock_inv. cbn. split; [lia | done].
Qed.

Lemma unlock_keeps_inv (b0 : BodyStyle) (bs : BodyStyle * ScrollLock) :
  (0 < lockCount bs.2)%nat → lock_inv b0 bs → lock_inv b0 (unlock bs).
Proof.
  intros Hn [_ Hpos]. specialize (Hpos Hn) as (Ho & Ht & Hpo & Hpp & Hpt).
  unfold unlock. destruct (lockCount bs.2) as [|[|n]] eqn:Hc; [lia| |].
  - unfold lock_inv. cbn. split; [intros _ | lia].
    destruct b0. cbn in *. by rewrite Hpo, Hpp, Hpt.
  - unfold lock_inv. cbn. split; [intros Hz; discriminate Hz | intros _; done].
Qed.

Lemma locks_count (ws : list Z) (bs : BodyStyle * ScrollLock) :
  lockCount (locks ws bs).2 = (lockCount bs.2 + length ws)%nat.
Proof.
  revert bs. induction ws as [|w ws IH]; intros bs; cbn; [lia|].
  rewrite IH, lock_count. lia.
Qed.

Lemma locks_keep_inv (b0 : BodyStyle) (ws : list Z) (bs : BodyStyle * ScrollLock) :
  lock_inv b0 bs → lock_inv b0 (locks ws bs).
Proof.
  revert bs. induction ws as [|w ws IH]; intros bs Hinv; [done|].
  cbn. apply IH. by apply lock_keeps_inv.
Qed.

Lemma unlocks_count (k : nat) (bs : BodyStyle * ScrollLock) :
  lockCount (unlocks k bs).2 = (lockCount bs.2 - k)%nat.
Proof.
  revert bs. induction k as [|k IH]; intros bs; cbn; [lia|].
  rewrite IH, unlock_count. lia.
Qed.

Lemma unlocks_keep_inv (b0 : BodyStyle) (k : nat) (bs : BodyStyle * ScrollLock) :
  (k ≤ lockCount bs.2)%nat → lock_inv b0 bs → lock_inv b0 (unlocks k bs).
Proof.
  revert bs. induction k as [|k IH]; intros bs Hk Hinv; [done|].
  cbn. apply IH.
  - rewrite unlock_count. lia.
  - apply unlock_keeps_inv; [lia | done].
Qed.

(** X18. Nested locks: starting unlocked, after any number of [lock]
    calls the body is set not to scroll, it stays so while fewer
    [unlock] calls than [lock] calls were made, and the [unlock] that
    balances the last [lock] puts back exactly the three styles the body
    had before the first one. *)
Theorem scroll_lock_nesting (b : BodyStyle) (sl : ScrollLock) (ws : list Z) (k : nat)
    (Hfree : lockCount sl = 0%nat) (Hlocks : ws ≠ []) :
  let bs := locks ws (b, sl) in
  lockCount bs.2 = length ws ∧
  ((k < length ws)%nat →
     overflow (unlocks k bs).1 = "hidden" ∧ touchAction (unlocks k bs).1 = "none" ∧
     locked (unlocks k bs).2 = true) ∧
  (unlocks (length ws) bs).1 = b ∧
  locked (unlocks (length ws) bs).2 = false.
Proof.
  cbv zeta.
  assert (Hinv0 : lock_inv b (b, sl)).
  { split; [done|]. cbn. lia. }
  pose proof (locks_keep_inv b ws (b, sl) Hinv0) as Hinv.
  pose proof (locks_count ws (b, sl)) as Hcount. cbn [snd] in Hcount.
  rewrite Hfree in Hcount. cbn in Hcount.
  split; [done|]. split.
  - intros Hk.
    pose proof (unlocks_keep_inv b k (locks ws (b, sl)) ltac:(lia) Hinv) as [_ Hpos].
    pose proof (unlocks_count k (locks ws (b, sl))) as Hc.
    destruct Hpos as (Ho & Ht & _); [lia|].
    split; [done|]. split; [done|]. unfold locked. apply Nat.ltb_lt. lia.
  - pose proof (unlocks_keep_inv b (length ws) (locks ws (b, sl)) ltac:(lia) Hinv)
      as [Hzero _].
    pose proof (unlocks_count (length ws) (locks ws (b, sl))) as Hc.
    split; [apply Hzero; lia|]. unfold locked. apply Nat.ltb_ge. lia.
Qed.

Lemma scroll_lock_nesting_witness :
  let bs := locks [15%Z; 0%Z] (Samples.page_style, initial_lock) in
  paddingRight bs.1 = "15px" ∧ overflow (unlocks 1 bs).1 = "hidden" ∧
  (unlocks 2 bs).1 = Samples.page_style.
Proof.
  cbv zeta.
  destruct (scroll_lock_nesting Samples.page_style initial_lock [15%Z; 0%Z] 1)
    as (_ & Hheld & Hback & _).
  - reflexivity.
  - discriminate.
  - split; [reflexivity|]. split; [|exact Hback].
    destruct Hheld as (Ho & _); [cbn; lia | exact Ho].
Defined.

(** *** The overlay stack *)

Lemma findIndex_fst (el : nat) (stack : list (nat * Kind)) :
  el ∈ (fst <$> stack) →
  ∃ idx k, Cart.findIndex (fun x => (x.1 =? el)%nat) stack = Some idx ∧
           stack !! idx = Some (el, k).
Proof.
  intros Hin. apply list_elem_of_fmap in Hin as ([el' k] & -> & Hin).
  destruct (findIndex_present (fun x : nat * Kind => (x.1 =? el')%nat) stack) as [idx Hidx].
  { exists (el', k). split; [done|]. cbn. apply Nat.eqb_refl. }
  destruct (findIndex_Some _ stack idx Hidx) as ([el2 k2] & Hl & Heq & _).
  cbn in Heq. apply Nat.eqb_eq in Heq as ->. eauto.
Qed.

Lemma fst_delete_other (el x : nat) (k : Kind) (stack : list (nat * Kind)) (idx : nat) :
  stack !! idx = Some (el, k) → x ≠ el → x ∈ (fst <$> stack) →
  x ∈ (fst <$> delete idx stack).
Proof.
  intros Hidx Hne Hin. apply list_elem_of_fmap in Hin as ([x' k'] & -> & Hin).
  apply list_elem_of_lookup in Hin as [j Hj].
  apply list_elem_of_fmap. exists (x', k'). split; [done|].
  apply list_elem_of_lookup.
  destruct (decide (j < idx)%nat) as [Hlt|Hge].
  - exists j. by rewrite list_lookup_delete_lt.
  - assert (j ≠ idx) by (intros ->; rewrite Hidx in Hj; by injection Hj as -> _).
    exists (pred j). rewrite list_lookup_delete_ge by lia.
    replace (S (pred j)) with j by lia. done.
Qed.

Lemma closeMobileNav_inv (b0 : BodyStyle) (u : UI) :
  ui_inv b0 u → ui_inv b0 (closeMobileNav u) ∧ navShown (closeMobileNav u) = false.
Proof.
  intros (Hcount & Hshown & Hlock). unfold closeMobileNav.
  destruct (navShown u) eqn:Hnav; cbn [negb];
    [|split; [unfold ui_inv; by rewrite Hnav | done]].
  split; [|done]. unfold ui_inv.
  split; [|split]; cbn [body scroll shown navShown overlayStack].
  - rewrite unlock_count. cbn. lia.
  - done.
  - rewrite <- surjective_pairing. apply unlock_keeps_inv; [cbn; lia | done].
Qed.

Lemma open_with_inv (b0 : BodyStyle) (k : Kind) (el : nat) (a : option nat) (w : Z)
    (u : UI) :
  ui_inv b0 u → ui_inv b0 (open_with k el a w u).
Proof.
  intros Hinv. destruct (closeMobileNav_inv b0 u Hinv) as [(Hcount & Hshown & Hlock) Hnav].
  unfold open_with, ui_inv.
  split; [|split]; cbn [body scroll shown navShown overlayStack].
  - rewrite lock_count, Hnav, length_app. cbn. rewrite Hnav in Hcount. lia.
  - intros x Hx. rewrite fmap_app. apply elem_of_app.
    apply elem_of_union in Hx as [Hx|Hx].
    + right. apply elem_of_singleton in Hx as ->. cbn. apply list_elem_of_here.
    + left. by apply Hshown.
  - rewrite <- surjective_pairing. by apply lock_keeps_inv.
Qed.

Lemma close_with_inv (b0 : BodyStyle) (k : Kind) (el : nat) (u : UI) :
  ui_inv b0 u → ui_inv b0 (close_with k el u).
Proof.
  intros (Hcount & Hshown & Hlock). unfold close_with.
  destruct (bool_decide (el ∈ shown u)) eqn:Hel; cbn [negb]; [|done].
  apply bool_decide_eq_true in Hel.
  destruct (findIndex_fst el (overlayStack u) (Hshown el Hel)) as (idx & k' & Hfi & Hidx).
  unfold stack_without. rewrite Hfi.
  assert (idx < length (overlayStack u))%nat by (by eapply lookup_lt_Some).
  unfold ui_inv. split; [|split]; cbn [body scroll shown navShown overlayStack].
  - rewrite unlock_count, length_delete by eauto. cbn. lia.
  - intros x Hx. apply elem_of_difference in Hx as [Hx Hne].
    rewrite elem_of_singleton in Hne.
    by apply (fst_delete_other el x k' _ idx Hidx Hne), Hshown.
  - rewrite <- surjective_pairing. apply unlock_keeps_inv; [cbn; lia | done].
Qed.

Lemma ui_step_inv (b0 : BodyStyle) (u : UI) (ev : UIEvent) :
  ui_inv b0 u → ui_inv b0 (ui_step u ev).
Proof.
  intros Hinv. destruct ev as [el a w|el a w|el|el| |a w|]; cbn [ui_step].
  - by apply open_with_inv.
  - by apply open_with_inv.
  - by apply close_with_inv.
  - by apply close_with_inv.
  - unfold onEscape. destruct (overlayStack u) as [|x rest] eqn:Hs.
    + destruct (navShown u); [|done]. by apply closeMobileNav_inv.
    + unfold closeTopOverlay. rewrite Hs.
      destruct (last (x :: rest)) as [[el [|]]|]; [| |done]; by apply close_with_inv.
  - unfold onNavToggle. destruct (navShown u) eqn:Hnav; cbn [negb].
    + by apply closeMobileNav_inv.
    + destruct Hinv as (Hcount & Hshown & Hlock). unfold openMobileNav.
      unfold ui_inv. split; [|split]; cbn [body scroll shown navShown overlayStack].
      * rewrite lock_count. cbn. rewrite Hnav in Hcount. lia.
      * done.
      * rewrite <- surjective_pairing. by apply lock_keeps_inv.
  - by apply closeMobileNav_inv.
Qed.

Lemma ui_run_inv (b0 : BodyStyle) (evs : list UIEvent) (u : UI) :
  ui_inv b0 u → ui_inv b0 (ui_run u evs).
Proof.
  revert u. induction evs as [|ev evs IH]; intros u Hinv; [done|].
  cbn. apply IH. by apply ui_step_inv.
Qed.

(** X19. Along every run of opening and closing overlays, modals and
    the navigation, the lock count is the number of stack entries plus
    one for an open navigation, and every shown overlay has a stack
    entry. The body does not scroll while anything is shown, and once the
    stack is empty and the navigation closed it has the styles the page
    started with. *)
Theorem ui_lock_matches_stack (b0 : BodyStyle) (evs : list UIEvent) :
  let u := ui_run (initial_ui b0) evs in
  lockCount (scroll u)
    = (length (overlayStack u) + (if navShown u then 1 else 0))%nat ∧
  (∀ el, el ∈ shown u → el ∈ (fst <$> overlayStack u)) ∧
  ((∃ el, el ∈ shown u) ∨ navShown u = true → overflow (body u) = "hidden") ∧
  (overlayStack u = [] → navShown u = false → body u = b0).
Proof.
  cbv zeta.
  assert (Hinit : ui_inv b0 (initial_ui b0)).
  { unfold ui_inv, lock_inv. cbn. repeat split; try done; try lia; set_solver. }
  destruct (ui_run_inv b0 evs _ Hinit) as (Hcount & Hshown & Hzero & Hpos).
  cbn [fst snd] in Hzero, Hpos.
  split; [done|]. split; [done|]. split.
  - intros Hopen. apply Hpos. rewrite Hcount.
    destruct Hopen as [[el Hel] | ->]; [|lia].
    apply Hshown in Hel. destruct (overlayStack _); [|cbn; lia].
    by apply elem_of_nil in Hel.
  - intros Hs Hn. apply Hzero. rewrite Hcount, Hs, Hn. reflexivity.
Qed.

Lemma findIndex_snoc_fresh (el : nat) (k : Kind) (rest : list (nat * Kind)) :
  el ∉ (fst <$> rest) →
  Cart.findIndex (fun x => (x.1 =? el)%nat) (rest ++ [(el, k)]) = Some (length rest).
Proof.
  induction rest as [|[x kx] rest IH]; intros Hfresh; cbn.
  - by rewrite Nat.eqb_refl.
  - rewrite fmap_cons, not_elem_of_cons in Hfresh. destruct Hfresh as [Hne Hfresh].
    cbn in Hne. destruct (Nat.eqb_spec x el) as [->|_]; [done|].
    by rewrite (IH Hfresh).
Qed.

Lemma stack_without_snoc (el : nat) (k : Kind) (rest : list (nat * Kind)) :
  el ∉ (fst <$> rest) → stack_without el (rest ++ [(el, k)]) = rest.
Proof.
  intros Hfresh. unfold stack_without. rewrite (findIndex_snoc_fresh el k rest Hfresh).
  rewrite (delete_middle rest [] (el, k)). by rewrite app_nil_r.
Qed.

(** X20. Escape closes the overlay or modal on top of the stack when
    it is shown and has no other entry: its entry goes, it is hidden, the
    lock count drops by one, and closing an overlay makes the entry below
    the current overlay. *)
Theorem escape_closes_top (u : UI) (el : nat) (k : Kind) (rest : list (nat * Kind))
    (Hstack : overlayStack u = (rest ++ [(el, k)])%list)
    (Hshown : el ∈ shown u)
    (Honce : el ∉ (fst <$> rest)) :
  let u' := onEscape u in
  overlayStack u' = rest ∧
  shown u' = shown u ∖ {[el]} ∧
  lockCount (scroll u') = pred (lockCount (scroll u)) ∧
  navShown u' = navShown u ∧
  (k = KOverlay → currentOverlay u' = fst <$> last rest) ∧
  (k = KModal → currentOverlay u' = currentOverlay u) ∧
  (rest = [] → lastFocus u' = None).
Proof.
  cbv zeta. unfold onEscape, closeTopOverlay. rewrite Hstack, last_snoc.
  assert (Hclose : ∀ k', close_with k' el u
            = {| body := (unlock (body u, scroll u)).1;
                 scroll := (unlock (body u, scroll u)).2;
                 shown := shown u ∖ {[el]}; navShown := navShown u;
                 overlayStack := rest;
                 currentOverlay :=
                   match k' with
                   | KOverlay => fst <$> last rest
                   | KModal => currentOverlay u
                   end;
                 lastFocus := match rest with [] => None | _ => lastFocus u end |}).
  { intros k'. unfold close_with. rewrite bool_decide_eq_true_2 by done.
    cbn [negb]. by rewrite Hstack, stack_without_snoc. }
  assert (Hgoal : ∀ k', k' = k →
            let u' := close_with k' el u in
            overlayStack u' = rest ∧ shown u' = shown u ∖ {[el]} ∧
            lockCount (scroll u') = pred (lockCount (scroll u)) ∧
            navShown u' = navShown u ∧
            (k = KOverlay → currentOverlay u' = fst <$> last rest) ∧
            (k = KModal → currentOverlay u' = currentOverlay u) ∧
            (rest = [] → lastFocus u' = None)).
  { intros k' ->. cbv zeta. rewrite Hclose. cbn.
    repeat split; try done.
    - by rewrite unlock_count.
    - by intros ->.
    - by intros ->.
    - by intros ->. }
  destruct rest as [|x rest']; cbn [app]; destruct k; by apply Hgoal.
Qed.

Lemma escape_closes_top_witness :
  let u := ui_run (initial_ui Samples.page_style)
             [UOpenOverlay 1 None 15; UOpenModal 2 (Some 7) 15] in
  overlayStack (onEscape u) = [(1, KOverlay)] ∧
  lockCount (scroll (onEscape u)) = 1%nat.
Proof.
  cbv zeta.
  destruct (escape_closes_top
              (ui_run (initial_ui Samples.page_style)
                 [UOpenOverlay 1 None 15; UOpenModal 2 (Some 7) 15])
              2 KModal [(1, KOverlay)])
    as (Hs & _ & Hc & _).
  - reflexivity.
  - apply (bool_decide_unpack _). by vm_compute.
  - apply (bool_decide_unpack _). by vm_compute.
  - split; [exact Hs | exact Hc].
Defined.

(** X21. When the entry on top of the stack belongs to an element that
    is already hidden, Escape does nothing at all: the entry stays, and
    with it the lock and whatever lies below it on the stack. Opening an
    overlay twice and closing it once leaves such an entry. *)
Theorem escape_stuck_on_hidden_top (u : UI) (el : nat) (k : Kind)
    (rest : list (nat * Kind))
    (Hstack : overlayStack u = (rest ++ [(el, k)])%list)
    (Hhidden : el ∉ shown u) :
  onEscape u = u ∧ closeOverlay el u = u ∧ closeModal el u = u.
Proof.
  assert (Hclose : ∀ k', close_with k' el u = u).
  { intros k'. unfold close_with. by rewrite bool_decide_eq_false_2. }
  split; [|split; apply Hclose].
  unfold onEscape, closeTopOverlay. rewrite Hstack, last_snoc.
  destruct rest; cbn [app]; destruct k; apply Hclose.
Qed.

Lemma escape_stuck_on_hidden_top_witness :
  let u := ui_run (initial_ui Samples.page_style)
             [UOpenOverlay 1 None 15; UOpenOverlay 1 None 15; UCloseOverlay 1] in
  overlayStack u = [(1, KOverlay)] ∧ onEscape u = u ∧
  overflow (body u) = "hidden".
Proof.
  cbv zeta.
  destruct (escape_stuck_on_hidden_top
              (ui_run (initial_ui Samples.page_style)
                 [UOpenOverlay 1 None 15; UOpenOverlay 1 None 15; UCloseOverlay 1])
              1 KOverlay [])
    as (He & _).
  - reflexivity.
  - vm_compute. set_solver.
  - split; [reflexivity|]. split; [exact He | reflexivity].
Defined.

(** X22. Opening an element that is hidden and not on the stack, with
    the navigation closed, and closing it again restores the stack, the
    set of shown elements, the lock count and the body styles. *)
Theorem open_close_round_trip (b0 : BodyStyle) (u : UI) (k : Kind) (el : nat)
    (a : option nat) (w : Z)
    (Hinv : lock_inv b0 (body u, scroll u))
    (Hnav : navShown u = false)
    (Hhidden : el ∉ shown u)
    (Hfresh : el ∉ (fst <$> overlayStack u)) :
  let u' := close_with k el (open_with k el a w u) in
  overlayStack u' = overlayStack u ∧ shown u' = shown u ∧
  lockCount (scroll u') = lockCount (scroll u) ∧
  body u' = body u ∧ navShown u' = false ∧
  (overlayStack u = [] → lastFocus u' = None).
Proof.
  cbv zeta. unfold open_with, closeMobileNav. rewrite Hnav. cbn [negb].
  unfold close_with. cbn [shown overlayStack body scroll navShown lastFocus currentOverlay].
  rewrite bool_decide_eq_true_2 by set_solver. cbn [negb].
  rewrite stack_without_snoc by done.
  cbn [shown overlayStack body scroll navShown lastFocus currentOverlay].
  rewrite <- surjective_pairing.
  split; [done|]. split.
  { apply set_eq. intros x. rewrite elem_of_difference, elem_of_union, elem_of_singleton.
    split; [intros [[->|?] ?]; done | intros ?; split; [by right | by intros ->]]. }
  split.
  { rewrite unlock_count, lock_count. done. }
  split; [|split; [done | by intros ->]].
  destruct Hinv as [Hzero Hpos]. cbn [fst snd] in Hzero, Hpos.
  unfold lock, unlock. cbn [fst snd].
  destruct (lockCount (scroll u)) as [|n] eqn:Hn; cbn.
  - by destruct (body u).
  - done.
Qed.

Lemma open_close_round_trip_witness :
  let u := initial_ui Samples.page_style in
  body (closeOverlay 3 (openOverlay 3 None 20 u)) = Samples.page_style ∧
  overlayStack (closeOverlay 3 (openOverlay 3 None 20 u)) = [].
Proof.
  cbv zeta.
  destruct (open_close_round_trip Samples.page_style (initial_ui Samples.page_style)
              KOverlay 3 None 20)
    as (Hs & _ & _ & Hb & _).
  - unfold lock_inv. cbn. split; [done | lia].
  - reflexivity.
  - set_solver.
  - set_solver.
  - split; [exact Hb | exact Hs].
Defined.

(** *** More on the forecast rows *)

(** X24. When the elements the loop converts are convertible, all rows
    are rendered, also a row whose index lies beyond the end of the wind
    or humidity array: the missing value is read as [undefined] and its
    cell shows a dash in place of a number. The label of a row is the one
    [codeToIcon] gives for the row's weather code. *)
Theorem forecast_missing_cells_dash (P : Platform) (u : Units) (d : value) (i : nat)
    (Hi : (i < row_count d)%nat)
    (Hconv : ∀ j v, (j < row_count d)%nat → v ∈ converted_at d j → converts v = true) :
  ∃ rows r, forecast_rows P u d = Normal rows ∧ rows !! i = Some r ∧
    ((length (hourly_array (hourly_of d) "wind_speed_10m") ≤ i)%nat →
       row_wind r = "—" +:+ " " +:+ windUnit u) ∧
    ((length (hourly_array (hourly_of d) "relative_humidity_2m") ≤ i)%nat →
       row_hum r = "—" +:+ "%") ∧
    ∃ il, codeToIcon P (index (hourly_array (hourly_of d) "weather_code") i) = Normal il ∧
          row_icon r = icon il ∧ row_label r = label il.
Proof.
  destruct (proj2 (forecast_rows_Normal_iff P u d) Hconv) as [rows Hrows].
  destruct (forecast_rows_Normal P u d rows Hrows) as [_ Hlook].
  destruct (Hlook i Hi) as (r & Hr & Hrow).
  exists rows, r. split; [done|]. split; [done|].
  exact (forecast_row_missing_cells P u _ _ _ _ _ i r Hrow).
Qed.

Lemma forecast_missing_cells_dash_witness :
  let d := VObj [("hourly",
             VObj [("time", VArr (replicate 3 (VStr "2026-01-01T00:00")));
                   ("temperature_2m", VArr (replicate 3 (VNum 20)));
                   ("weather_code", VArr (replicate 3 (VNum 95)));
                   ("wind_speed_10m", VArr [VNum 10])])] in
  ∃ rows r, forecast_rows Demo.platform UnitsF d = Normal rows ∧
       rows !! 2%nat = Some r ∧
       row_wind r = "— mph" ∧ row_hum r = "—%" ∧ row_label r = "Thunderstorm".
Proof.
  cbv zeta.
  destruct (forecast_missing_cells_dash Demo.platform UnitsF
              (VObj [("hourly",
                 VObj [("time", VArr (replicate 3 (VStr "2026-01-01T00:00")));
                       ("temperature_2m", VArr (replicate 3 (VNum 20)));
                       ("weather_code", VArr (replicate 3 (VNum 95)));
                       ("wind_speed_10m", VArr [VNum 10])])])
              2) as (rows & r & Hrows & Hr & Hw & Hh & il & Hil & _ & Hl).
  - vm_compute. lia.
  - intros j v Hj Hv. unfold converted_at in Hv.
    do 3 (destruct j as [|j]; [vm_compute in Hv;
      repeat (apply elem_of_cons in Hv as [->|Hv]; [reflexivity|]);
      by apply elem_of_nil in Hv|]).
    vm_compute in Hj. lia.
  - exists rows, r. split; [exact Hrows|]. split; [exact Hr|].
    split; [apply Hw; cbn; lia|]. split; [apply Hh; cbn; lia|].
    rewrite Hl. vm_compute in Hil. by injection Hil as <-.
Defined.

(** X25. The forecast card shows its "no data" placeholder exactly
    when the time, temperature or weather-code array is missing or empty.
    Otherwise it shows between one and eight rows when every element the
    loop converts is convertible, and throws the TypeError of an element
    that is not when there is one; in that case nothing is drawn. *)
Theorem forecast_body_empty (P : Platform) (u : Units) (d : value) :
  (forecast_body P u d = Normal NoForecast ↔
     hourly_array (hourly_of d) "time" = [] ∨
     hourly_array (hourly_of d) "temperature_2m" = [] ∨
     hourly_array (hourly_of d) "weather_code" = []) ∧
  (∀ rows, forecast_body P u d = Normal (ForecastRows rows) →
     forecast_rows P u d = Normal rows ∧ length rows = row_count d ∧
     (1 ≤ length rows ≤ 8)%nat) ∧
  ((∃ b, forecast_body P u d = Normal b) ↔
     ∀ i v, (i < row_count d)%nat → v ∈ converted_at d i → converts v = true) ∧
  (∀ msg, forecast_body P u d = Throw msg →
     ∃ i v, (i < row_count d)%nat ∧ v ∈ converted_at d i ∧ converts v = false ∧
            msg = TypeError_message P v) ∧
  forecast_body P u VNull = Normal NoForecast.
Proof.
  assert (Hzero : row_count d = 0%nat ↔
            hourly_array (hourly_of d) "time" = [] ∨
            hourly_array (hourly_of d) "temperature_2m" = [] ∨
            hourly_array (hourly_of d) "weather_code" = []).
  { unfold row_count, forecast_count. cbv zeta.
    destruct (hourly_array (hourly_of d) "time");
      destruct (hourly_array (hourly_of d) "temperature_2m");
      destruct (hourly_array (hourly_of d) "weather_code"); cbn [length];
      split; try lia; try (intros _; by eauto);
      intros [He | [He | He]]; discriminate He. }
  split; [|split; [|split; [|split; [|reflexivity]]]].
  - rewrite <- Hzero. unfold forecast_body.
    destruct (forecast_rows P u d) as [rows|msg] eqn:Hrows; cbn [mbind completion_bind].
    + destruct (forecast_rows_Normal P u d rows Hrows) as [Hlen _].
      destruct rows as [|r rows]; cbn [length] in Hlen.
      * split; [done|]. done.
      * split; [done|]. intros Hz. lia.
    + split; [done|]. intros Hz. exfalso.
      destruct (forecast_rows_Throw P u d msg Hrows) as (i & v & Hi & _). lia.
  - intros rows. unfold forecast_body.
    destruct (forecast_rows P u d) as [rs|msg] eqn:Hrows; cbn [mbind completion_bind];
      [|done].
    destruct (forecast_rows_Normal P u d rs Hrows) as [Hlen _].
    destruct rs as [|r rs]; [done|]. intros [= <-].
    split; [done|]. split; [done|].
    rewrite Hlen. unfold row_count, forecast_count in *. cbn [length] in *. lia.
  - rewrite forecast_body_Normal. apply forecast_rows_Normal_iff.
  - intros msg Hmsg. apply (forecast_rows_Throw P u d msg).
    by apply forecast_body_Throw.
Qed.
